(** * driver/manager.py: the bring-up pipeline of [InfrastructureManager]

    A shallow embedding of [src/driver/manager.py].  The script drives
    external tools (minikube, kubectl, docker, terraform), so the embedding
    threads an explicit [world] through every method: the file system facts
    the script probes, the answers of the external commands, the dictionaries
    living in the interpreter's store, and the trace of everything the script
    does that can be observed from outside (log lines, prints, probes,
    removals, sleeps, launched processes).

    Characters are modelled by [ascii], read as the code points U+0000 to
    U+00FF; Python's [str] methods are written out for that range. *)

From Stdlib Require Import ZArith NArith List Ascii String Bool Lia.
From stdpp Require Import base option list gmap strings pretty.
Import ListNotations.

Local Open Scope string_scope.
Local Open Scope list_scope.

(** ** Python's [str] methods *)

Module PyStr.

(** The double quote character, as a one-character string. *)
Definition dquote : string := String (ascii_of_nat 34) EmptyString.

Definition chars (s : string) : list ascii := list_ascii_of_string s.
Definition of_chars (l : list ascii) : string := string_of_list_ascii l.

(** [str.isspace] on one character of the range U+0000..U+00FF:
    TAB, LF, VT, FF, CR, the separators U+001C..U+001F, SPACE, NEL
    (U+0085) and NBSP (U+00A0). *)
Definition is_space (c : ascii) : bool :=
  let n := nat_of_ascii c in
  (((9 <=? n) && (n <=? 13)) || ((28 <=? n) && (n <=? 32))
   || (n =? 133) || (n =? 160))%nat.

(** The line boundaries of [str.splitlines] in that range: LF, VT, FF,
    CR, FS, GS, RS and NEL (CR LF counts as one boundary). *)
Definition is_linebreak (c : ascii) : bool :=
  let n := nat_of_ascii c in
  (((10 <=? n) && (n <=? 13)) || ((28 <=? n) && (n <=? 30))
   || (n =? 133))%nat.

Fixpoint drop_while (p : ascii -> bool) (l : list ascii) : list ascii :=
  match l with
  | [] => []
  | c :: l' => if p c then drop_while p l' else l
  end.

Definition strip_with (p : ascii -> bool) (s : string) : string :=
  of_chars (rev (drop_while p (rev (drop_while p (chars s))))).

(** [s.strip()] *)
Definition strip (s : string) : string := strip_with is_space s.

(** [s.strip(cs)]: removes leading and trailing characters that occur
    in [cs]. *)
Definition strip_chars (cs : string) (s : string) : string :=
  strip_with (fun c => existsb (Ascii.eqb c) (chars cs)) s.

(** [s.startswith(p)] *)
Fixpoint startswith (s p : string) : bool :=
  match p, s with
  | EmptyString, _ => true
  | String a p', String b s' => Ascii.eqb a b && startswith s' p'
  | String _ _, EmptyString => false
  end.

(** [needle in hay] *)
Fixpoint contains (needle hay : string) : bool :=
  startswith hay needle ||
  match hay with
  | EmptyString => false
  | String _ hay' => contains needle hay'
  end.

(** [s.split(sep, 1)] for a one-character separator: [None] stands for
    the one-element list [[s]] (no separator found), [Some (a, b)] for
    the two-element list [[a, b]]. *)
Fixpoint split_once (sep : ascii) (s : string) : option (string * string) :=
  match s with
  | EmptyString => None
  | String c s' =>
      if Ascii.eqb c sep then Some (EmptyString, s')
      else match split_once sep s' with
           | Some (a, b) => Some (String c a, b)
           | None => None
           end
  end.

(** [s.splitlines()]: the accumulator [cur] holds the current line in
    reverse; a final line without terminator is kept, an empty tail after
    the last terminator is not. *)
Fixpoint splitlines_go (cur : list ascii) (started : bool) (l : list ascii)
  : list string :=
  match l with
  | [] => if started then [of_chars (rev cur)] else []
  | c :: l' =>
      if is_linebreak c then
        of_chars (rev cur) ::
        match l' with
        | c' :: l'' =>
            if ((nat_of_ascii c =? 13) && (nat_of_ascii c' =? 10))%nat
            then splitlines_go [] false l''
            else splitlines_go [] false l'
        | [] => []
        end
      else splitlines_go (c :: cur) true l'
  end.

Definition splitlines (s : string) : list string :=
  splitlines_go [] false (chars s).

(** [sep.join(l)] *)
Fixpoint join (sep : string) (l : list string) : string :=
  match l with
  | [] => ""
  | [x] => x
  | x :: l' => x +:+ sep +:+ join sep l'
  end.

End PyStr.

(** ** Values, exceptions and outcomes *)

Set Warnings "-register-all".

(** What [json.load] returns: [None], [bool], [int], [str], [list] and
    [dict] (the items of a dict in insertion order, keys distinct; lookup
    takes the first match).  Floats are not modelled. *)
Inductive json : Type :=
| JNull
| JBool (b : bool)
| JInt (z : Z)
| JStr (s : string)
| JArr (l : list json)
| JObj (kv : list (string * json)).

Fixpoint assoc (k : string) (kv : list (string * json)) : option json :=
  match kv with
  | [] => None
  | (k', v) :: kv' => if String.eqb k k' then Some v else assoc k kv'
  end.

Module PyRepr.

Definition hex_digit (n : nat) : ascii :=
  ascii_of_nat (if (n <? 10)%nat then 48 + n else 87 + n).

(** [str.isprintable] on one character of the range U+0000..U+00FF. *)
Definition is_printable (c : ascii) : bool :=
  let n := nat_of_ascii c in
  (((32 <=? n) && (n <? 127)) || ((161 <=? n) && negb (n =? 173)))%nat.

Definition escape_char (quote : ascii) (c : ascii) : string :=
  let n := nat_of_ascii c in
  if Ascii.eqb c quote || (n =? 92)%nat then String (ascii_of_nat 92) (String c "")
  else if (n =? 9)%nat then String (ascii_of_nat 92) "t"
  else if (n =? 10)%nat then String (ascii_of_nat 92) "n"
  else if (n =? 13)%nat then String (ascii_of_nat 92) "r"
  else if is_printable c then String c ""
  else String (ascii_of_nat 92)
         (String "x" (String (hex_digit (n / 16)) (String (hex_digit (n mod 16)) ""))).

(** [repr(s)] for a [str]: single quotes, unless the text has a single
    quote and no double quote. *)
Definition repr_str (s : string) : string :=
  let squote := ascii_of_nat 39 in
  let quote :=
    if PyStr.contains "'" s && negb (PyStr.contains PyStr.dquote s)
    then ascii_of_nat 34 else squote in
  String quote
    (fold_right (fun c acc => escape_char quote c +:+ acc)
                (String quote "") (PyStr.chars s)).

Fixpoint repr (j : json) : string :=
  match j with
  | JNull => "None"
  | JBool true => "True"
  | JBool false => "False"
  | JInt z => pretty z
  | JStr s => repr_str s
  | JArr l => "[" +:+ PyStr.join ", " (map repr l) +:+ "]"
  | JObj kv =>
      "{" +:+ PyStr.join ", "
                (map (fun p => repr_str (fst p) +:+ ": " +:+ repr (snd p)) kv)
          +:+ "}"
  end.

(** [str(j)], which is what an f-string field [{j}] inserts. *)
Definition str (j : json) : string :=
  match j with
  | JStr s => s
  | _ => repr j
  end.

End PyRepr.

(** The first argument of [subprocess.run]: a string or a list. *)
Inductive cmd_arg : Type :=
| CmdStr (s : string)
| CmdList (argv : list string).

Inductive exn : Type :=
| KeyError (k : string)
| IndexError
| TypeError
| ValueError (msg : string)
| OSError (msg : string)
| CalledProcessError (cmd : cmd_arg) (returncode : N) (stderr : option string)
| KeyboardInterrupt.

(** [isinstance(e, Exception)]: everything here but [KeyboardInterrupt]. *)
Definition is_Exception (e : exn) : bool :=
  match e with
  | KeyboardInterrupt => false
  | _ => true
  end.

(** [str(e)] *)
Definition exn_str (e : exn) : string :=
  match e with
  | KeyError k => PyRepr.repr_str k
  | IndexError => "list index out of range"
  | TypeError => ""
  | ValueError msg => msg
  | OSError msg => msg
  | CalledProcessError cmd rc _ =>
      "Command '" +:+
      match cmd with
      | CmdStr s => s
      | CmdList argv => PyRepr.repr (JArr (map JStr argv))
      end +:+ "' returned non-zero exit status " +:+ pretty rc +:+ "."
  | KeyboardInterrupt => ""
  end.

Inductive outcome (A : Type) : Type :=
| Return (a : A)     (* the call returns [a] *)
| Exit (code : Z)    (* [sys.exit(code)] *)
| Raise (e : exn).   (* an exception leaves the call *)
Arguments Return {A} a.
Arguments Exit {A} code.
Arguments Raise {A} e.

(** [j[k]] for a string key [k]. *)
Definition subscript (j : json) (k : string) : exn + json :=
  match j with
  | JObj kv =>
      match assoc k kv with
      | Some v => inr v
      | None => inl (KeyError k)
      end
  | _ => inl TypeError
  end.

(** ** The world the script runs in *)

(** The methods of [utils.logger.Logger] the script calls ([utils] is not
    part of this file's source: a call is recorded as a log line with the
    method as its severity). *)
Inductive level : Type := Header | Info | Warning | Error | Success | Debug.

(** How a child process ended, seen from [subprocess]. *)
Inductive proc_result : Type :=
| Completed (returncode : N) (stdout stderr : string)
| SpawnError (msg : string)   (* [OSError] of [Popen]: binary absent, ... *)
| Interrupted.                (* [KeyboardInterrupt] while waiting *)

(** A dictionary of the interpreter's store: [os.environ] itself, or a
    dictionary allocated by the script. *)
Inductive ref : Type :=
| Environ
| Cell (n : nat).

(** What the file system holds at a path. *)
Inductive node : Type := RegularFile | Directory.

Inductive event : Type :=
| Log (lvl : level) (msg : string)
| Print (s : string)
| Probe (path : string)       (* [os.path.exists(path)] *)
| Remove (path : string)      (* [os.remove(path)] *)
| Sleep (secs : nat)          (* [time.sleep(secs)] *)
| Exec (cmd : cmd_arg) (shell : bool)
       (own_env : bool)                 (* launched with [env=self.env] *)
       (child_env : gmap string string) (* the environment the child gets *)
       (cwd : option string).

Record world : Type := World {
  project_root : string;                 (* [PROJECT_ROOT] *)
  fs : gmap string node;                 (* what exists at which path *)
  listing : list string;                 (* [os.listdir(PROJECT_ROOT)] *)
  remove_error : gmap string string;     (* paths [os.remove] fails on, with [str(e)] *)
  config_load : exn + json;              (* [open] and [json.load] of the config file *)
  oracle : nat -> cmd_arg -> gmap string string -> proc_result;
                                         (* the answer to the n-th launch *)
  launched : nat;                        (* launches so far *)
  os_environ : gmap string string;       (* [os.environ] *)
  heap : list (gmap string string);      (* dictionaries allocated so far *)
  trace : list event                     (* what happened, oldest first *)
}.

Definition set_trace (t : list event) (w : world) : world :=
  World (project_root w) (fs w) (listing w) (remove_error w)
        (config_load w) (oracle w) (launched w) (os_environ w) (heap w) t.

Definition set_launched (n : nat) (w : world) : world :=
  World (project_root w) (fs w) (listing w) (remove_error w)
        (config_load w) (oracle w) n (os_environ w) (heap w) (trace w).

Definition set_fs (f : gmap string node) (w : world) : world :=
  World (project_root w) f (listing w) (remove_error w)
        (config_load w) (oracle w) (launched w) (os_environ w) (heap w) (trace w).

Definition set_os_environ (e : gmap string string) (w : world) : world :=
  World (project_root w) (fs w) (listing w) (remove_error w)
        (config_load w) (oracle w) (launched w) e (heap w) (trace w).

Definition set_heap (h : list (gmap string string)) (w : world) : world :=
  World (project_root w) (fs w) (listing w) (remove_error w)
        (config_load w) (oracle w) (launched w) (os_environ w) h (trace w).

(** ** Computations: state passing with exits and exceptions *)

Definition W (A : Type) : Type := world -> outcome A * world.

Definition ret {A} (a : A) : W A := fun w => (Return a, w).

Definition bind {A B} (m : W A) (k : A -> W B) : W B :=
  fun w =>
    match m w with
    | (Return a, w') => k a w'
    | (Exit c, w') => (Exit c, w')
    | (Raise e, w') => (Raise e, w')
    end.

#[global] Instance W_ret : MRet W := @ret.
#[global] Instance W_bind : MBind W := fun A B k m => bind m k.

Definition raise {A} (e : exn) : W A := fun w => (Raise e, w).

(** [sys.exit(code)] *)
Definition sys_exit {A} (code : Z) : W A := fun w => (Exit code, w).

(** [try: m  except C as e: h e], where [catches] tells which exceptions
    the class [C] covers. *)
Definition try_except {A} (m : W A) (catches : exn -> bool) (h : exn -> W A) : W A :=
  fun w =>
    match m w with
    | (Raise e, w') => if catches e then h e w' else (Raise e, w')
    | r => r
    end.

(** [try: m  except: h]: a bare [except] also catches [SystemExit]. *)
Definition try_except_all {A} (m : W A) (h : W A) : W A :=
  fun w =>
    match m w with
    | (Return a, w') => (Return a, w')
    | (_, w') => h w'
    end.

Definition gets {A} (f : world -> A) : W A := fun w => (Return (f w), w).

Definition emit (e : event) : W unit :=
  fun w => (Return tt, set_trace (trace w ++ [e]) w).

(** ** The library calls the script makes *)

Definition Logger_header (msg : string) : W unit := emit (Log Header msg).
Definition Logger_info (msg : string) : W unit := emit (Log Info msg).
Definition Logger_warning (msg : string) : W unit := emit (Log Warning msg).
Definition Logger_error (msg : string) : W unit := emit (Log Error msg).
Definition Logger_success (msg : string) : W unit := emit (Log Success msg).
Definition Logger_debug (msg : string) : W unit := emit (Log Debug msg).

Definition print (s : string) : W unit := emit (Print s).
Definition time_sleep (secs : nat) : W unit := emit (Sleep secs).

(** [os.path.join(a, b)] (POSIX). *)
Definition path_join (a b : string) : string :=
  if PyStr.startswith b "/" then b
  else if String.eqb a "" || PyStr.startswith (PyStr.of_chars (rev (PyStr.chars a))) "/"
       then a +:+ b
       else a +:+ "/" +:+ b.

Definition os_path_exists (path : string) : W bool :=
  emit (Probe path) ;;
  gets (fun w => bool_decide (is_Some (fs w !! path))).

Definition os_path_isdir (path : string) : W bool :=
  gets (fun w => match fs w !! path with Some Directory => true | _ => false end).

Definition os_path_isfile (path : string) : W bool :=
  gets (fun w => match fs w !! path with Some RegularFile => true | _ => false end).

(** What [os.remove(path)] does to the file system: it fails where the
    world says so and on anything that is not a regular file (with the
    messages of a POSIX system). *)
Definition remove_file (path : string) : W unit :=
  fun w =>
    match remove_error w !! path with
    | Some msg => (Raise (OSError msg), w)
    | None =>
        match fs w !! path with
        | Some RegularFile => (Return tt, set_fs (delete path (fs w)) w)
        | Some Directory =>
            (Raise (OSError ("[Errno 21] Is a directory: " +:+ PyRepr.repr_str path)), w)
        | None =>
            (Raise (OSError ("[Errno 2] No such file or directory: "
                             +:+ PyRepr.repr_str path)), w)
        end
    end.

Definition os_remove (path : string) : W unit :=
  emit (Remove path) ;; remove_file path.

(** The dictionary a reference points to. *)
Definition deref (r : ref) (w : world) : gmap string string :=
  match r with
  | Environ => os_environ w
  | Cell n => default ∅ (heap w !! n)
  end.

(** [d.copy()]: a new dictionary with the same items. *)
Definition dict_copy (r : ref) : W ref :=
  fun w => (Return (Cell (length (heap w))), set_heap (heap w ++ [deref r w]) w).

(** [d[k] = v] *)
Definition dict_setitem (r : ref) (k v : string) : W unit :=
  fun w =>
    (Return tt,
     match r with
     | Environ => set_os_environ (<[k := v]> (os_environ w)) w
     | Cell n => set_heap (alter (insert k v) n (heap w)) w
     end).

(** [d.get(k)] *)
Definition dict_get (r : ref) (k : string) : W (option string) :=
  gets (fun w => deref r w !! k).

(** Launching a child and waiting for it: the child's environment is the
    dictionary passed as [env], or [os.environ] when none is passed. *)
Definition launch (cmd : cmd_arg) (shell : bool) (env : option ref)
    (cwd : option string) : W proc_result :=
  fun w =>
    let child_env := deref (default Environ env) w in
    (Return (oracle w (launched w) cmd child_env),
     set_trace (trace w ++ [Exec cmd shell (bool_decide (is_Some env)) child_env cwd])
               (set_launched (S (launched w)) w)).

(** [subprocess.run(cmd, ..., check=check)] reduced to the exit status and
    the two streams of the completed process. *)
Definition subprocess_run (cmd : cmd_arg) (shell check : bool) (capture : bool)
    (env : option ref) (cwd : option string) : W (N * string * string) :=
  r ← launch cmd shell env cwd;
  match r with
  | Completed rc out err =>
      if check && negb (rc =? 0)%N
      then raise (CalledProcessError cmd rc (if capture then Some err else None))
      else ret (rc, out, err)
  | SpawnError msg => raise (OSError msg)
  | Interrupted => raise KeyboardInterrupt
  end.

(** [subprocess.check_output(argv, text=True)] *)
Definition subprocess_check_output (argv : list string) : W string :=
  r ← subprocess_run (CmdList argv) false true false None None;
  ret (r.1.2).

(** ** The module constants *)

Definition PROJECT_ROOT (w : world) : string := project_root w.
Definition K8S_DIR (w : world) : string := path_join (PROJECT_ROOT w) "k8s".
Definition TERRAFORM_DIR (w : world) : string :=
  path_join (path_join (PROJECT_ROOT w) "terraform") "local".
Definition CONFIG_FILE (w : world) : string :=
  path_join (path_join (PROJECT_ROOT w) "driver") "config.json".

(** ** class InfrastructureManager *)

Record manager : Type := Manager {
  env : ref;
  config : json;
  services : list string;
  minikube_ip : option string
}.

Definition set_minikube_ip (ip : option string) (self : manager) : manager :=
  Manager (env self) (config self) (services self) ip.

(** An exception or a value, as a computation. *)
Definition lift {A} (r : exn + A) : W A :=
  match r with
  | inl e => raise e
  | inr a => ret a
  end.

(** [for x in l: body x] *)
Fixpoint for_each {A} (l : list A) (body : A -> W unit) : W unit :=
  match l with
  | [] => ret tt
  | x :: l' => body x ;; for_each l' body
  end.

(** [with open(CONFIG_FILE, 'r') as f: return json.load(f)] *)
Definition json_load_config : W json :=
  cl ← gets config_load; lift cl.

Definition load_config : W json :=
  config_file ← gets CONFIG_FILE;
  found ← os_path_exists config_file;
  (if negb (found : bool)
   then Logger_error ("Config file not found at: " +:+ config_file) ;; sys_exit 1
   else ret tt) ;;
  try_except json_load_config is_Exception
    (fun e => Logger_error ("Failed to parse config.json: " +:+ exn_str e) ;;
              sys_exit 1).

Fixpoint discover_loop (names : list string) (services : list string)
  : W (list string) :=
  match names with
  | [] => ret services
  | name :: names' =>
      path ← gets (fun w => path_join (PROJECT_ROOT w) name);
      is_dir ← os_path_isdir path;
      has_manifest ← (if (is_dir : bool) then os_path_isfile (path_join path "Dockerfile")
                      else ret false);
      discover_loop names'
        (if is_dir && has_manifest then services ++ [name] else services)
  end.

Definition discover_services : W (list string) :=
  names ← gets listing; discover_loop names [].

Definition is_CalledProcessError (e : exn) : bool :=
  match e with
  | CalledProcessError _ _ _ => true
  | _ => false
  end.

Definition is_KeyboardInterrupt (e : exn) : bool :=
  match e with
  | KeyboardInterrupt => true
  | _ => false
  end.

(** [cmd if isinstance(cmd, str) else " ".join(cmd)] *)
Definition cmd_str (cmd : cmd_arg) : string :=
  match cmd with
  | CmdStr s => s
  | CmdList argv => PyStr.join " " argv
  end.

(** [cwd_override or PROJECT_ROOT]: [None] and the empty string are falsy. *)
Definition cwd_or (cwd_override : option string) (root : string) : string :=
  match cwd_override with
  | Some d => if String.eqb d "" then root else d
  | None => root
  end.

Definition run_cmd (self : manager) (cmd : cmd_arg) (shell capture : bool)
    (cwd_override : option string) (ignore_errors : bool) : W string :=
  Logger_debug ("Exec: " +:+ cmd_str cmd) ;;
  root ← gets PROJECT_ROOT;
  try_except
    (result ← subprocess_run cmd shell true capture (Some (env self))
                (Some (cwd_or cwd_override root));
     ret (if capture then PyStr.strip result.1.2 else ""))
    is_CalledProcessError
    (fun e =>
       if ignore_errors then ret ""
       else
         Logger_error ("Command failed: " +:+ cmd_str cmd) ;;
         match e with
         | CalledProcessError _ _ (Some err) =>
             if capture && negb (String.eqb err "") then print err else ret tt
         | _ => ret tt
         end ;;
         sys_exit 1).

(** *** Cleanup and unlock *)

Definition force_unlock_terraform (self : manager) : W unit :=
  lock_file ← gets (fun w => path_join (TERRAFORM_DIR w) ".terraform.tfstate.lock.info");
  found ← os_path_exists lock_file;
  if (found : bool) then
    Logger_warning ("Found Terraform Lock File: " +:+ lock_file) ;;
    try_except
      (os_remove lock_file ;;
       Logger_success "Removed Lock File. Terraform is now unlocked.")
      is_Exception
      (fun e => Logger_error ("Could not remove lock file: " +:+ exn_str e))
  else ret tt.

(** [self.config["ingress"][key]] *)
Definition ingress_setting (self : manager) (key : string) : W json :=
  ingress ← lift (subscript (config self) "ingress");
  lift (subscript ingress key).

(** An element of an argument list has to be a [str]: [" ".join] and
    [subprocess.run] raise [TypeError] on anything else. *)
Definition as_argument (j : json) : W string :=
  match j with
  | JStr s => ret s
  | _ => raise TypeError
  end.

Definition cleanup_resources (self : manager) : W unit :=
  Logger_header "Step 0: Cleaning Up Old Resources" ;;
  Logger_info "Force deleting all deployments, services, and ingress..." ;;
  run_cmd self (CmdList ["kubectl"; "delete";
                         "deployments,services,ingress,configmaps"; "--all"])
          false true None true ;;
  namespace ← ingress_setting self "namespace";
  namespace ← as_argument namespace;
  run_cmd self (CmdList ["kubectl"; "delete"; "namespace"; namespace])
          false true None true ;;
  Logger_info "Waiting 5 seconds for resources to terminate..." ;;
  time_sleep 5 ;;
  Logger_success "Cleanup complete.".

(** *** Standard logic *)

(** [self.minikube_ip] is the one attribute assigned after [__init__]:
    the method hands back the updated object. *)
Definition check_minikube (self : manager) : W manager :=
  Logger_header "Step 1: Checking Infrastructure" ;;
  try_except
    (result ← subprocess_run (CmdList ["minikube"; "status"])
                false false true None None;
     if (result.1.1 =? 0)%N && PyStr.contains "Running" result.1.2
     then Logger_success "Minikube is running."
     else
       Logger_warning "Starting Minikube..." ;;
       subprocess_run (CmdList ["minikube"; "start"]) false true false None None ;;
       ret tt)
    is_Exception
    (fun e => Logger_error ("Minikube check failed: " +:+ exn_str e) ;;
              sys_exit 1) ;;
  try_except_all
    (ip ← subprocess_check_output ["minikube"; "ip"];
     Logger_info ("Minikube IP: " +:+ PyStr.strip ip) ;;
     ret (set_minikube_ip (Some (PyStr.strip ip)) self))
    (ret (set_minikube_ip (Some "<minikube-ip>") self)).

(** [line.split("=", 1)[1]], stripped of white space and then of double
    quotes. *)
Definition assigned_value (line : string) : W string :=
  match PyStr.split_once "=" line with
  | Some (_, v) => ret (PyStr.strip_chars PyStr.dquote (PyStr.strip v))
  | None => raise IndexError
  end.

(** The body of the loop over the lines of the export. *)
Definition set_docker_env_line (self : manager) (line : string) : W unit :=
  if PyStr.startswith (PyStr.strip line) "$Env:DOCKER_HOST" then
    v ← assigned_value line; dict_setitem (env self) "DOCKER_HOST" v
  else if PyStr.startswith (PyStr.strip line) "$Env:DOCKER_TLS_VERIFY" then
    v ← assigned_value line; dict_setitem (env self) "DOCKER_TLS_VERIFY" v
  else if PyStr.startswith (PyStr.strip line) "$Env:DOCKER_CERT_PATH" then
    v ← assigned_value line; dict_setitem (env self) "DOCKER_CERT_PATH" v
  else ret tt.

Definition set_docker_env (self : manager) : W unit :=
  Logger_header "Step 2: Configuring Docker Environment" ;;
  try_except_all
    (output ← subprocess_check_output
                ["minikube"; "-p"; "minikube"; "docker-env"; "--shell"; "powershell"];
     for_each (PyStr.splitlines output) (set_docker_env_line self) ;;
     host ← dict_get (env self) "DOCKER_HOST";
     Logger_info ("Docker pointed to Minikube: " +:+ default "None" host))
    (Logger_error "Failed to configure Docker env").

Definition build_images (self : manager) : W unit :=
  Logger_header "Step 4: Building Service Images" ;;
  for_each (services self)
    (fun service =>
       Logger_info ("Building: " +:+ service +:+ "...") ;;
       run_cmd self (CmdList ["docker"; "build"; "-t";
                              service +:+ "-service:latest"; "./" +:+ service])
               false true None false ;;
       ret tt) ;;
  Logger_success "Images built.".

Definition deploy_k8s (self : manager) : W unit :=
  Logger_header "Step 5: Deploying via Terraform" ;;
  tf ← gets TERRAFORM_DIR;
  run_cmd self (CmdList ["terraform"; "init"]) false false (Some tf) false ;;
  run_cmd self (CmdList ["terraform"; "apply"; "-auto-approve"])
          false false (Some tf) false ;;
  Logger_success "Terraform apply completed.".

(** The test on the output of [kubectl get pods]. *)
Definition healthy (output : string) : bool :=
  (PyStr.contains "Running" output
   && negb (PyStr.contains "Error" output)
   && negb (PyStr.contains "CrashLoop" output)
   && negb (PyStr.contains "ContainerCreating" output))
  && (PyStr.contains "backend" output && PyStr.contains "ui" output).

(** [while retries < 40: ...].  The result tells whether the loop was left
    by the [return] inside it.  [fuel] bounds the unfolding; 41 rounds are
    enough from [retries = 0], since the test fails at 40. *)
Fixpoint wait_loop (self : manager) (fuel : nat) (retries : nat) : W bool :=
  match fuel with
  | 0 => ret false
  | S fuel' =>
      if (retries <? 40)%nat then
        output ← run_cmd self (CmdList ["kubectl"; "get"; "pods"])
                   false true None false;
        if healthy (output : string) then
          Logger_success "All Pods are RUNNING!" ;; ret true
        else
          time_sleep 3 ;;
          (if (S retries mod 5 =? 0)%nat then Logger_debug "Waiting for pods..."
           else ret tt) ;;
          wait_loop self fuel' (S retries)
      else ret false
  end.

Definition wait_for_pods (self : manager) : W unit :=
  Logger_header "Step 6: Health Check" ;;
  returned ← wait_loop self 41 0;
  if (returned : bool) then ret tt
  else Logger_warning "Timed out waiting for pods.".

Definition open_tunnel (self : manager) : W unit :=
  local_port ← ingress_setting self "local_port";
  container_port ← ingress_setting self "container_port";
  namespace ← ingress_setting self "namespace";
  service ← ingress_setting self "service_name";
  Logger_header "Step 8: Opening Access Tunnel" ;;
  Logger_info ("Starting port-forwarding to Ingress (" +:+ PyRepr.str service +:+ ")") ;;
  Logger_info ("Mapping: localhost:" +:+ PyRepr.str local_port
               +:+ " -> Container:" +:+ PyRepr.str container_port) ;;
  Logger_info ("Access URL: http://localhost:" +:+ PyRepr.str local_port) ;;
  Logger_info "Press Ctrl+C to stop." ;;
  try_except
    (namespace ← as_argument namespace;
     subprocess_run
       (CmdList ["kubectl"; "port-forward"; "-n"; namespace;
                 "svc/" +:+ PyRepr.str service;
                 PyRepr.str local_port +:+ ":" +:+ PyRepr.str container_port])
       false true false None None ;;
     ret tt)
    is_KeyboardInterrupt
    (fun _ => Logger_info (String (ascii_of_nat 10) "Goodbye!")).

Definition main (self : manager) : W unit :=
  force_unlock_terraform self ;;
  cleanup_resources self ;;
  self ← check_minikube self;
  set_docker_env self ;;
  build_images self ;;
  deploy_k8s self ;;
  wait_for_pods self ;;
  open_tunnel self.

Definition __init__ : W manager :=
  env ← dict_copy Environ;
  config ← load_config;
  services ← discover_services;
  ret (Manager env config services None).

(** [manager = InfrastructureManager(); manager.main()] *)
Definition program : W unit :=
  manager ← __init__; main manager.

(** * Properties *)

(** ** Vocabulary of the statements *)

(** The three variables [set_docker_env] writes. *)
Definition bridged : list string :=
  ["DOCKER_HOST"; "DOCKER_TLS_VERIFY"; "DOCKER_CERT_PATH"].

(** The events a computation added to the trace of [w]. *)
Definition new_events (w w' : world) : list event :=
  drop (length (trace w)) (trace w').

Definition is_error_line (e : event) : bool :=
  match e with
  | Log Error _ => true
  | _ => false
  end.

(** The process goes on after the call: the call returned. *)
Definition returns {A} (o : outcome A) : bool :=
  match o with
  | Return _ => true
  | _ => false
  end.

Arguments path_join : simpl never.
Arguments PyStr.strip : simpl never.
Arguments PyStr.strip_chars : simpl never.
Arguments PyStr.contains : simpl never.
Arguments PyStr.startswith : simpl never.
Arguments PyStr.splitlines : simpl never.
Arguments PyStr.join : simpl never.
Arguments PyRepr.repr_str : simpl never.
Arguments PyRepr.repr : simpl never.
Arguments PyRepr.str : simpl never.
Arguments exn_str : simpl never.

(** ** Small worlds to try the statements on *)

(** A world with nothing on disk, an empty host environment, one empty
    dictionary allocated, and the given answers to launches. *)
Definition blank_world
    (answers : nat -> cmd_arg -> gmap string string -> proc_result) : world :=
  World "/proj" ∅ [] ∅ (inl (OSError "")) answers 0 ∅ [∅] [].

(** A manager whose [env] is that dictionary. *)
Definition plain_manager : manager := Manager (Cell 0) JNull [] None.

(** Every command exits with status 2 and the text boom on stderr. *)
Definition failing_world : world :=
  blank_world (fun _ _ _ => Completed 2 "" "boom").

(** ** The primitive moves of a run *)

(** One move of a method whose [self.env] is [r]: it adds an event from
    [allowed] to the trace, launches a child (with [os.environ] or with
    [self.env]), removes a file, assigns one of the bridged variables in
    [self.env], or allocates a dictionary. *)
Inductive action (allowed : event -> Prop) (r : ref) : world -> world -> Prop :=
| act_emit e w :
    allowed e -> action allowed r w (set_trace (trace w ++ [e]) w)
| act_launch cmd shell env cwd w :
    env = None \/ env = Some r ->
    action allowed r w (launch cmd shell env cwd w).2
| act_remove path w :
    action allowed r w (remove_file path w).2
| act_setitem k v w :
    In k bridged -> action allowed r w (dict_setitem r k v w).2
| act_alloc d w :
    action allowed r w (set_heap (heap w ++ [d]) w).

(** Every run of [m] is a sequence of such moves. *)
Definition sound (allowed : event -> Prop) (r : ref) {A} (m : W A) : Prop :=
  forall w, rtc (action allowed r) w (m w).2.

Definition is_exec (e : event) : bool :=
  match e with
  | Exec _ _ _ _ _ => true
  | _ => false
  end.

(** Everything a method records itself, launches apart. *)
Definition any_note (e : event) : Prop := is_exec e = false.

(** The same without step headers and without probes of the file system. *)
Definition quiet_note (e : event) : Prop :=
  match e with
  | Exec _ _ _ _ _ => False
  | Probe _ => False
  | Log Header _ => False
  | _ => True
  end.

(** ** The steps of the pipeline, read off the trace *)

Inductive step : Type :=
| Unlock | Reap | Bootstrap | BridgeEnvironment | Build | Deploy | HealthPoll | Tunnel.

Definition pipeline : list step :=
  [Unlock; Reap; Bootstrap; BridgeEnvironment; Build; Deploy; HealthPoll; Tunnel].

Definition lock_file_of (root : string) : string :=
  path_join (path_join (path_join root "terraform") "local")
            ".terraform.tfstate.lock.info".

Definition step_of_header (msg : string) : option step :=
  if String.eqb msg "Step 0: Cleaning Up Old Resources" then Some Reap
  else if String.eqb msg "Step 1: Checking Infrastructure" then Some Bootstrap
  else if String.eqb msg "Step 2: Configuring Docker Environment"
       then Some BridgeEnvironment
  else if String.eqb msg "Step 4: Building Service Images" then Some Build
  else if String.eqb msg "Step 5: Deploying via Terraform" then Some Deploy
  else if String.eqb msg "Step 6: Health Check" then Some HealthPoll
  else if String.eqb msg "Step 8: Opening Access Tunnel" then Some Tunnel
  else None.

Arguments lock_file_of : simpl never.

(** The event by which a step shows that it has begun: the probe for the
    lock file for the first one, the step header for the others. *)
Definition step_of_event (root : string) (e : event) : option step :=
  match e with
  | Probe path => if String.eqb path (lock_file_of root) then Some Unlock else None
  | Log Header msg => step_of_header msg
  | _ => None
  end.

Definition steps_begun (root : string) (evs : list event) : list step :=
  omap (step_of_event root) evs.

(** Whatever the outcome of [m], the steps that begin during it are the
    first ones of [l], in that order; if [m] returns, they are all of [l].
    [PROJECT_ROOT] stays what it was. *)
Definition runs_steps (l : list step) {A} (m : W A) : Prop :=
  forall w,
    project_root (m w).2 = project_root w /\
    exists evs,
      trace (m w).2 = trace w ++ evs /\
      steps_begun (project_root w) evs `prefix_of` l /\
      (returns (m w).1 = true -> steps_begun (project_root w) evs = l).

(** The events recorded after the attempt to remove [path]. *)
Fixpoint after_removal (path : string) (evs : list event) : list event :=
  match evs with
  | [] => []
  | Remove p :: evs' => if String.eqb p path then evs' else after_removal path evs'
  | _ :: evs' => after_removal path evs'
  end.

(** The outcome of the removal is reported at severity [lvl]. *)
Definition removal_reported_as (lvl : level) (path : string) (evs : list event) : Prop :=
  exists msg, In (Log lvl msg) (after_removal path evs).

(** A lock file is there and can be removed. *)
Definition stale_lock_world : world :=
  World "/proj" {[ "/proj/terraform/local/.terraform.tfstate.lock.info" := RegularFile ]}
        [] ∅ (inl (OSError "")) (fun _ _ _ => Completed 0 "" "") 0 ∅ [∅] [].

(** A lock file is there and [os.remove] fails on it. *)
Definition held_lock_world : world :=
  World "/proj" {[ "/proj/terraform/local/.terraform.tfstate.lock.info" := RegularFile ]}
        []
        {[ "/proj/terraform/local/.terraform.tfstate.lock.info" :=
             "[Errno 13] Permission denied" ]}
        (inl (OSError "")) (fun _ _ _ => Completed 0 "" "") 0 ∅ [∅] [].

(** [main] up to the call of [open_tunnel]; the result is the object as the
    bootstrap step left it. *)
Definition before_tunnel (self : manager) : W manager :=
  force_unlock_terraform self ;;
  cleanup_resources self ;;
  self ← check_minikube self;
  set_docker_env self ;;
  build_images self ;;
  deploy_k8s self ;;
  wait_for_pods self ;;
  ret self.

(** The configuration of the end-to-end example: the four settings under
    the key ingress. *)
Definition example_config : json :=
  JObj [("ingress",
         JObj [("namespace", JStr "app"); ("local_port", JInt 8080);
               ("container_port", JInt 80); ("service_name", JStr "ingress-nginx")])].

Definition example_port_forward : cmd_arg :=
  CmdList ["kubectl"; "port-forward"; "-n"; "app"; "svc/ingress-nginx"; "8080:80"].

(** ** The pipeline's environment and the host's *)

(** [d] carries everything of the seed [E]: the same value at every name
    that is not a bridged variable, and no name of [E] is missing. *)
Definition keeps_seed (E d : gmap string string) : Prop :=
  (forall k, ~ In k bridged -> d !! k = E !! k) /\ dom E ⊆ dom d.

(** What a launched child may see: the host environment [E] itself when it
    inherits [os.environ], a dictionary that keeps the seed when it is
    handed [self.env]. *)
Definition child_env_ok (E : gmap string string) (e : event) : Prop :=
  match e with
  | Exec _ _ own child_env _ => if own then keeps_seed E child_env else child_env = E
  | _ => True
  end.

(** The invariant of a run whose [self.env] is the dictionary [Cell n],
    seeded from the host environment [E], and whose events start at
    position [t0] of the trace. *)
Definition env_inv (E : gmap string string) (n t0 : nat) (w : world) : Prop :=
  os_environ w = E /\
  (exists d, heap w !! n = Some d /\ keeps_seed E d) /\
  t0 <= length (trace w) /\
  Forall (child_env_ok E) (drop t0 (trace w)).

(** The commands launched among some events, in order. *)
Definition launched_cmds (evs : list event) : list cmd_arg :=
  omap (fun e => match e with
                 | Exec cmd _ _ _ _ => Some cmd
                 | _ => None
                 end) evs.

Definition minikube_status : cmd_arg := CmdList ["minikube"; "status"].
Definition minikube_start : cmd_arg := CmdList ["minikube"; "start"].
Definition minikube_ip_query : cmd_arg := CmdList ["minikube"; "ip"].

(** ** The health poll *)

Definition get_pods : cmd_arg := CmdList ["kubectl"; "get"; "pods"].

(** The answer to poll number [i] (from 0) of a health check started in
    [w]. *)
Definition poll_answer (self : manager) (w : world) (i : nat) : proc_result :=
  oracle w (launched w + i) get_pods (deref (env self) w).

(** The snapshot of a poll is the trimmed output of a status command that
    exited with status 0. *)
Definition unhealthy_poll (self : manager) (w : world) (i : nat) : Prop :=
  exists out err,
    poll_answer self w i = Completed 0 out err /\ healthy (PyStr.strip out) = false.

Definition healthy_poll (self : manager) (w : world) (i : nat) : Prop :=
  exists out err,
    poll_answer self w i = Completed 0 out err /\ healthy (PyStr.strip out) = true.

(** What one poll records, and what a whole unsuccessful round records. *)
Definition poll_events (self : manager) (w : world) : list event :=
  [Log Debug "Exec: kubectl get pods";
   Exec get_pods false true (deref (env self) w) (Some (PROJECT_ROOT w))].

Definition round_events (self : manager) (w : world) (i : nat) : list event :=
  poll_events self w ++ Sleep 3 ::
  (if (S i mod 5 =? 0)%nat then [Log Debug "Waiting for pods..."] else []).

(** The cluster never gets healthy: every poll shows a pod in creation. *)
Definition pending_world : world :=
  blank_world (fun _ _ _ => Completed 0 "backend-7d4 0/1 ContainerCreating" "").

(** ** The environment bridge *)

Definition docker_env_cmd : cmd_arg :=
  CmdList ["minikube"; "-p"; "minikube"; "docker-env"; "--shell"; "powershell"].

(** What [check_output] hands to [set_docker_env] in [w]: the output of the
    export command, if that command ran and exited with status 0. *)
Definition exported_output (w : world) : option string :=
  match oracle w (launched w) docker_env_cmd (os_environ w) with
  | Completed 0%N out _ => Some out
  | _ => None
  end.

Definition exported_lines (w : world) : list string :=
  match exported_output w with
  | Some out => PyStr.splitlines out
  | None => []
  end.

(** The line, once trimmed, starts with the PowerShell assignment to the
    variable [key]. *)
Definition assigns (key line : string) : bool :=
  PyStr.startswith (PyStr.strip line) ("$Env:" +:+ key).

(** The variable a line is taken to assign, by the order of the tests. *)
Definition assigned_key (line : string) : option string :=
  if assigns "DOCKER_HOST" line then Some "DOCKER_HOST"
  else if assigns "DOCKER_TLS_VERIFY" line then Some "DOCKER_TLS_VERIFY"
  else if assigns "DOCKER_CERT_PATH" line then Some "DOCKER_CERT_PATH"
  else None.

(** The value a line assigns: the text after the first equals sign, trimmed
    and without surrounding double quotes; none without an equals sign. *)
Definition line_value (line : string) : option string :=
  match PyStr.split_once "=" line with
  | Some (_, v) => Some (PyStr.strip_chars PyStr.dquote (PyStr.strip v))
  | None => None
  end.

(** A line the loop cannot parse: it starts like an assignment to one of
    the three variables and has no equals sign. *)
Definition malformed (line : string) : bool :=
  match assigned_key line, line_value line with
  | Some _, None => true
  | _, _ => false
  end.

(** The reference points to a dictionary of the store. *)
Definition valid_ref (r : ref) (w : world) : Prop :=
  match r with
  | Environ => True
  | Cell n => n < length (heap w)
  end.

(** Example lines of an export. *)
Definition quoted (s : string) : string := PyStr.dquote +:+ s +:+ PyStr.dquote.

Definition host_line : string := "$Env:DOCKER_HOST = " +:+ quoted "tcp://1.2.3.4:2376".
Definition tls_line : string := "$Env:DOCKER_TLS_VERIFY = " +:+ quoted "1".
Definition cert_line : string :=
  "$Env:DOCKER_CERT_PATH = " +:+ quoted "C:\Users\dev\.minikube\certs".
Definition active_line : string :=
  "$Env:MINIKUBE_ACTIVE_DOCKERD = " +:+ quoted "minikube".

(** The line of the claim, in the syntax of a POSIX shell export rather
    than of PowerShell. *)
Definition bare_host_line : string := "DOCKER_HOST = " +:+ quoted "tcp://1.2.3.4:2376".

Definition newline : string := String (ascii_of_nat 10) "".

(** The export command prints [out]; everything else succeeds silently. *)
Definition export_world (out : string) : world :=
  blank_world (fun _ cmd _ =>
                 match cmd with
                 | CmdList ("minikube" :: "-p" :: _) => Completed 0 out ""
                 | _ => Completed 0 "" ""
                 end).

(** What [minikube docker-env --shell powershell] typically prints. *)
Definition typical_export : string :=
  tls_line +:+ newline +:+ host_line +:+ newline +:+ cert_line +:+ newline
  +:+ active_line +:+ newline.


(** ** The configuration gate *)

(** The four settings [open_tunnel] and [cleanup_resources] read. *)
Definition required_fields : list string :=
  ["namespace"; "local_port"; "container_port"; "service_name"].

Definition has_field (j : json) (key : string) : bool :=
  match subscript j "ingress" with
  | inr ingress => match subscript ingress key with inr _ => true | inl _ => false end
  | inl _ => false
  end.

Definition has_all_fields (j : json) : bool := forallb (has_field j) required_fields.

(** The run ends in [sys.exit] with a non-zero code and no step has begun. *)
Definition aborts_before_step_one (w : world) : Prop :=
  exists code,
    code <> 0%Z /\ (program w).1 = Exit code /\
    steps_begun (project_root w) (new_events w (program w).2) = [].

(** A configuration without the local port. *)
Definition config_without_local_port : json :=
  JObj [("ingress",
         JObj [("namespace", JStr "app"); ("container_port", JInt 80);
               ("service_name", JStr "ingress-nginx")])].

(** A machine on which every tool works: the cluster is up, the export
    prints the usual lines, the pods are healthy at the first poll and the
    port-forward runs until it is interrupted.  On disk: the configuration
    file and two services. *)
Definition working_tools (n : nat) (cmd : cmd_arg) (e : gmap string string)
  : proc_result :=
  match cmd with
  | CmdList ["minikube"; "status"] => Completed 0 "host: Running" ""
  | CmdList ["minikube"; "ip"] => Completed 0 ("192.168.49.2" +:+ newline) ""
  | CmdList ("minikube" :: "-p" :: _) => Completed 0 typical_export ""
  | CmdList ["kubectl"; "get"; "pods"] =>
      Completed 0 ("backend-7d4 1/1 Running" +:+ newline +:+ "ui-5c9 1/1 Running") ""
  | CmdList ("kubectl" :: "port-forward" :: _) => Interrupted
  | _ => Completed 0 "" ""
  end.

Definition working_machine (cfg : json) : world :=
  World "/proj"
        {[ "/proj/driver/config.json" := RegularFile;
           "/proj/driver" := Directory;
           "/proj/backend" := Directory;
           "/proj/backend/Dockerfile" := RegularFile;
           "/proj/ui" := Directory;
           "/proj/ui/Dockerfile" := RegularFile ]}
        ["backend"; "driver"; "README.md"; "ui"]
        ∅ (inr cfg) working_tools 0 {[ "PATH" := "/usr/bin" ]} [] [].

(** ** The remaining methods *)

(** [name] is a service: a directory of the project root that holds a
    regular file named Dockerfile. *)
Definition is_service (w : world) (name : string) : bool :=
  match fs w !! path_join (PROJECT_ROOT w) name with
  | Some Directory =>
      match fs w !! path_join (path_join (PROJECT_ROOT w) name) "Dockerfile" with
      | Some RegularFile => true
      | _ => false
      end
  | _ => false
  end.

(** What a call of [run_cmd] records up to the launch of the command. *)
Definition run_events (self : manager) (w : world) (cmd : cmd_arg) (shell : bool)
    (cwd_override : option string) : list event :=
  [Log Debug ("Exec: " +:+ cmd_str cmd);
   Exec cmd shell true (deref (env self) w) (Some (cwd_or cwd_override (PROJECT_ROOT w)))].

(** The commands of the reap, build and deploy steps. *)
Definition delete_all : cmd_arg :=
  CmdList ["kubectl"; "delete"; "deployments,services,ingress,configmaps"; "--all"].

Definition delete_namespace (ns : string) : cmd_arg :=
  CmdList ["kubectl"; "delete"; "namespace"; ns].

Definition build_cmd (service : string) : cmd_arg :=
  CmdList ["docker"; "build"; "-t"; service +:+ "-service:latest"; "./" +:+ service].

Definition terraform_init : cmd_arg := CmdList ["terraform"; "init"].

Definition terraform_apply : cmd_arg := CmdList ["terraform"; "apply"; "-auto-approve"].

(** [config["ingress"][key]] as a value. *)
Definition ingress_value (cfg : json) (key : string) : exn + json :=
  match subscript cfg "ingress" with
  | inl e => inl e
  | inr ingress => subscript ingress key
  end.

(** The namespace as the reap step needs it: a string. *)
Definition namespace_of (cfg : json) : exn + string :=
  match ingress_value cfg "namespace" with
  | inl e => inl e
  | inr (JStr ns) => inr ns
  | inr _ => inl TypeError
  end.

(** An exit in the middle of a run: an error of the configuration. *)
Definition is_lookup_error (e : exn) : bool :=
  match e with
  | KeyError _ | TypeError => true
  | _ => false
  end.



(** One iteration of the loop of [build_images]. *)
Definition build_one (self : manager) (service : string) : W unit :=
  Logger_info ("Building: " +:+ service +:+ "...") ;;
  run_cmd self (build_cmd service) false true None false ;;
  ret tt.

(** What a build that succeeds records. *)
Definition build_events (self : manager) (w : world) (service : string) : list event :=
  Log Info ("Building: " +:+ service +:+ "...") ::
  run_events self w (build_cmd service) false None.

(** The answer to build number [i] (from 0) of a build step started in
    [w], when that build is of [service]. *)
Definition build_answer (self : manager) (w : world) (i : nat) (service : string)
  : proc_result :=
  oracle w (launched w + i) (build_cmd service) (deref (env self) w).

(** A manager with two services and the example configuration. *)
Definition example_manager : manager :=
  Manager (Cell 0) example_config ["backend"; "ui"] None.

(** No tool is installed: nothing can be started. *)
Definition toolless_world : world :=
  blank_world (fun _ _ _ => SpawnError "[Errno 2] No such file or directory").

(** Every command succeeds but the build of the second service. *)
Definition second_build_fails : world :=
  blank_world (fun _ cmd _ =>
                 match cmd with
                 | CmdList ("docker" :: "build" :: "-t" :: "ui-service:latest" :: _) =>
                     Completed 1 "" "no space left on device"
                 | _ => Completed 0 "" ""
                 end).


(** What the deploy step may record: launches with the pipeline's map in
    the Terraform directory, log lines, and nothing printed. *)
Definition deploy_event_ok (w : world) (e : event) : Prop :=
  match e with
  | Exec _ _ own _ cwd => own = true /\ cwd = Some (TERRAFORM_DIR w)
  | Print _ => False
  | _ => True
  end.

(** The seconds a run has slept, and the progress lines of the health
    poll. *)
Fixpoint slept (evs : list event) : nat :=
  match evs with
  | [] => 0
  | Sleep secs :: evs' => secs + slept evs'
  | _ :: evs' => slept evs'
  end.

Definition is_progress_line (e : event) : bool :=
  match e with
  | Log Debug msg => String.eqb msg "Waiting for pods..."
  | _ => false
  end.

(** The status command fails at the third poll. *)
Definition third_poll_fails : world :=
  blank_world (fun n _ _ =>
                 if (n <? 2)%nat then Completed 0 "backend-7d4 0/1 ContainerCreating" ""
                 else Completed 1 "" "connection refused").

(** A line of the export as PowerShell prints it: the variable, an equals
    sign between two spaces, the value in double quotes. *)
Definition export_line (key value : string) : string :=
  "$Env:" +:+ key +:+ " = " +:+ quoted value.

Definition is_dquote (c : ascii) : bool :=
  existsb (Ascii.eqb c) (PyStr.chars PyStr.dquote).

(** The text neither starts nor ends with a double quote. *)
Definition unquoted (v : string) : bool :=
  match PyStr.chars v with
  | [] => true
  | c :: _ => negb (is_dquote c)
  end &&
  match rev (PyStr.chars v) with
  | [] => true
  | c :: _ => negb (is_dquote c)
  end.

(** The first character of a list, if there is one, fails the test. *)
Definition starts_clear (p : ascii -> bool) (l : list ascii) : Prop :=
  match l with
  | [] => True
  | c :: _ => p c = false
  end.

(** What a launched child finds at [key] in its environment. *)
Definition child_sees (key value : string) (e : event) : Prop :=
  match e with
  | Exec _ _ _ child_env _ => child_env !! key = Some value
  | _ => True
  end.

(** A launch by [run_cmd] with the map [d]. *)
Definition launched_with (d : gmap string string) (e : event) : Prop :=
  match e with
  | Exec _ _ own child_env _ => own = true /\ child_env = d
  | _ => True
  end.

(** ** How the process ends itself *)

Definition is_log (e : event) : bool :=
  match e with
  | Log _ _ => true
  | _ => false
  end.

(** An exit is announced: its code is 1 and the last line logged before it
    is an error line. *)
Definition exit_ok {A} (o : outcome A) (w' : world) : Prop :=
  match o with
  | Exit code =>
      code = 1%Z /\ exists msg, last (List.filter is_log (trace w')) = Some (Log Error msg)
  | _ => True
  end.

(** [m] never exits without announcing it. *)
Definition loud {A} (m : W A) : Prop := forall w, exit_ok (m w).1 (m w).2.

(** The configuration file is missing. *)
Definition unconfigured_world : world := blank_world (fun _ _ _ => Completed 0 "" "").

(** ** What a run can cost *)

(** Whatever the world, [m] sleeps at most [secs] seconds and launches at
    most [launches] commands. *)
Definition within (secs launches : nat) {A} (m : W A) : Prop :=
  forall w, exists evs,
    trace (m w).2 = trace w ++ evs /\
    slept evs <= secs /\
    length (launched_cmds evs) <= launches.

(** ** The runner and the end of the process *)


(** ** The steps, one after the other *)

(** The method of a step.  It hands on the object, which only the
    bootstrap step changes. *)
Definition step_method (s : step) (self : manager) : W manager :=
  match s with
  | Unlock => force_unlock_terraform self ;; ret self
  | Reap => cleanup_resources self ;; ret self
  | Bootstrap => check_minikube self
  | BridgeEnvironment => set_docker_env self ;; ret self
  | Build => build_images self ;; ret self
  | Deploy => deploy_k8s self ;; ret self
  | HealthPoll => wait_for_pods self ;; ret self
  | Tunnel => open_tunnel self ;; ret self
  end.

(** The steps of [l] run one after the other, each one once the one
    before it has returned. *)
Fixpoint run_steps (l : list step) (self : manager) : W manager :=
  match l with
  | [] => ret self
  | s :: l' => self' ← step_method s self; run_steps l' self'
  end.

(** The steps of [l] that are called in such a run from [w]: the first
    one, and every further one whose predecessor has returned. *)
Fixpoint steps_called (l : list step) (self : manager) (w : world) : list step :=
  match l with
  | [] => []
  | s :: l' =>
      s :: match step_method s self w with
           | (Return self', w') => steps_called l' self' w'
           | _ => []
           end
  end.

(** A step that is called leaves its marker in the trace; the tunnel
    step does so only if it can read its four settings, which it does
    before anything else. *)
Definition shows_marker (cfg : json) (s : step) : bool :=
  match s with
  | Tunnel => has_all_fields cfg
  | _ => true
  end.

(** Whatever its outcome, [m] begins the step [s] and no other. *)
Definition announces (s : step) {A} (m : W A) : Prop :=
  forall w,
    project_root (m w).2 = project_root w /\
    exists evs,
      trace (m w).2 = trace w ++ evs /\ steps_begun (project_root w) evs = [s].

(** The machine of the end-to-end example once the constructor has run. *)
Definition ready_machine : world := (__init__ (working_machine example_config)).2.

(** ** Unfolding computations *)

Lemma bind_eq {A B} (m : W A) (k : A -> W B) (w : world) :
  (m ≫= k) w =
  match m w with
  | (Return a, w') => k a w'
  | (Exit c, w') => (Exit c, w')
  | (Raise e, w') => (Raise e, w')
  end.
Proof. reflexivity. Qed.

Lemma bind_return {A B} (m : W A) (k : A -> W B) (w w' : world) (a : A) :
  m w = (Return a, w') -> (m ≫= k) w = k a w'.
Proof. intros H. rewrite bind_eq, H. reflexivity. Qed.

Lemma bind_exit {A B} (m : W A) (k : A -> W B) (w w' : world) (c : Z) :
  m w = (Exit c, w') -> (m ≫= k) w = (Exit c, w').
Proof. intros H. rewrite bind_eq, H. reflexivity. Qed.

Lemma bind_raise {A B} (m : W A) (k : A -> W B) (w w' : world) (e : exn) :
  m w = (Raise e, w') -> (m ≫= k) w = (Raise e, w').
Proof. intros H. rewrite bind_eq, H. reflexivity. Qed.

Lemma seq_after_return {B} (m : W unit) (k : W B) (w : world) :
  (m w).1 = Return tt -> (m ;; k) w = k (m w).2.
Proof.
  intros H. rewrite bind_eq. destruct (m w) as [o w']. cbn in H. subst o. reflexivity.
Qed.

Lemma new_events_app (w w' : world) (evs : list event) :
  trace w' = trace w ++ evs -> new_events w w' = evs.
Proof. intros H. unfold new_events. rewrite H. apply drop_app_length. Qed.

Lemma deref_set_trace r t w : deref r (set_trace t w) = deref r w.
Proof. destruct r; reflexivity. Qed.

Lemma deref_set_launched r n w : deref r (set_launched n w) = deref r w.
Proof. destruct r; reflexivity. Qed.

Lemma deref_set_fs r f w : deref r (set_fs f w) = deref r w.
Proof. destruct r; reflexivity. Qed.


(** Unfolds the monadic plumbing and the library calls down to functions
    on worlds. *)
Ltac unfold_W :=
  unfold mbind, W_bind, bind, mret, W_ret, ret, gets, raise, sys_exit, lift,
    try_except, try_except_all, subprocess_check_output, subprocess_run,
    launch, Logger_header, Logger_info, Logger_warning, Logger_error,
    Logger_success, Logger_debug, print, time_sleep, emit in *.

Ltac step_W :=
  repeat (progress (unfold_W; cbn;
                    rewrite ?deref_set_trace, ?deref_set_launched, ?deref_set_fs)).

(** Nested world updates commute and absorb each other: the updates of
    the trace are brought outermost, then those of the launch counter. *)
Lemma set_trace_set_trace t t' w : set_trace t (set_trace t' w) = set_trace t w.
Proof. reflexivity. Qed.

Lemma set_launched_set_trace n t w :
  set_launched n (set_trace t w) = set_trace t (set_launched n w).
Proof. reflexivity. Qed.

Lemma set_launched_set_launched n m w :
  set_launched n (set_launched m w) = set_launched n w.
Proof. reflexivity. Qed.

Lemma set_fs_set_trace f t w : set_fs f (set_trace t w) = set_trace t (set_fs f w).
Proof. reflexivity. Qed.

Lemma set_fs_set_launched f n w :
  set_fs f (set_launched n w) = set_launched n (set_fs f w).
Proof. reflexivity. Qed.

Lemma set_heap_set_trace h t w : set_heap h (set_trace t w) = set_trace t (set_heap h w).
Proof. reflexivity. Qed.

Lemma set_heap_set_launched h n w :
  set_heap h (set_launched n w) = set_launched n (set_heap h w).
Proof. reflexivity. Qed.

(** Brings nested world updates to one update per field and lists to
    right-nested form. *)
Ltac norm_world :=
  unfold PROJECT_ROOT; cbn;
  repeat (progress rewrite ?set_trace_set_trace, ?set_launched_set_trace,
            ?set_launched_set_launched, ?set_fs_set_trace, ?set_fs_set_launched,
            ?set_heap_set_trace, ?set_heap_set_launched);
  rewrite <- ?app_assoc; cbn.

(** ** CommandRunner: [run_cmd] *)

Lemma run_cmd_completed self cmd shell capture cwd_override ignore_errors w rc out err :
  oracle w (launched w) cmd (deref (env self) w) = Completed rc out err ->
  run_cmd self cmd shell capture cwd_override ignore_errors w =
  let w1 := set_trace
              (trace w ++ [Log Debug ("Exec: " +:+ cmd_str cmd);
                           Exec cmd shell true (deref (env self) w)
                                (Some (cwd_or cwd_override (PROJECT_ROOT w)))])
              (set_launched (S (launched w)) w) in
  if (rc =? 0)%N then (Return (if capture then PyStr.strip out else ""), w1)
  else if ignore_errors then (Return "", w1)
  else (Exit 1,
        set_trace (trace w1 ++
                   Log Error ("Command failed: " +:+ cmd_str cmd) ::
                   (if capture && negb (String.eqb err "") then [Print err] else []))
                  w1).
Proof.
  intros Ho. unfold run_cmd. step_W. rewrite Ho. cbn.
  destruct (rc =? 0)%N, ignore_errors, capture; cbn;
    try destruct (String.eqb err ""); cbn; norm_world; reflexivity.
Qed.

(** ** Runs as sequences of moves *)

Lemma action_mono (P Q : event -> Prop) r w w' :
  (forall e, P e -> Q e) -> action P r w w' -> action Q r w w'.
Proof. intros HPQ H. destruct H; constructor; auto. Qed.

Lemma sound_mono (P Q : event -> Prop) r {A} (m : W A) :
  (forall e, P e -> Q e) -> sound P r m -> sound Q r m.
Proof.
  intros HPQ H w. specialize (H w).
  induction H as [| x y z Hxy _ IH]; [constructor |].
  econstructor; [eapply action_mono; eauto | exact IH].
Qed.

Lemma sound_ret P r {A} (a : A) : sound P r (mret a : W A).
Proof. intros w. constructor. Qed.

Lemma sound_raise P r {A} e : sound P r (raise e : W A).
Proof. intros w. constructor. Qed.

Lemma sound_sys_exit P r {A} c : sound P r (sys_exit c : W A).
Proof. intros w. constructor. Qed.

Lemma sound_gets P r {A} (f : world -> A) : sound P r (gets f).
Proof. intros w. constructor. Qed.

Lemma sound_lift P r {A} (x : exn + A) : sound P r (lift x).
Proof. destruct x; intros w; constructor. Qed.

Lemma sound_bind P r {A B} (m : W A) (k : A -> W B) :
  sound P r m -> (forall a, sound P r (k a)) -> sound P r (m ≫= k).
Proof.
  intros Hm Hk w. rewrite bind_eq. specialize (Hm w).
  destruct (m w) as [[a | c | e] w1]; cbn in *; [| exact Hm | exact Hm].
  etrans; [exact Hm | apply Hk].
Qed.

Lemma sound_try_except P r {A} (m : W A) catches h :
  sound P r m -> (forall e, sound P r (h e)) -> sound P r (try_except m catches h).
Proof.
  intros Hm Hh w. unfold try_except. specialize (Hm w).
  destruct (m w) as [[a | c | e] w1]; cbn in *; try exact Hm.
  destruct (catches e); [| exact Hm].
  etrans; [exact Hm | apply Hh].
Qed.

Lemma sound_try_except_all P r {A} (m h : W A) :
  sound P r m -> sound P r h -> sound P r (try_except_all m h).
Proof.
  intros Hm Hh w. unfold try_except_all. specialize (Hm w).
  destruct (m w) as [[a | c | e] w1]; cbn in *; try exact Hm;
    (etrans; [exact Hm | apply Hh]).
Qed.

Lemma sound_emit (P : event -> Prop) r e : P e -> sound P r (emit e).
Proof. intros He w. apply rtc_once. cbn. constructor. exact He. Qed.

Lemma sound_launch P r cmd shell env cwd :
  env = None \/ env = Some r -> sound P r (launch cmd shell env cwd).
Proof. intros He w. apply rtc_once. constructor. exact He. Qed.

Lemma sound_remove_file P r path : sound P r (remove_file path).
Proof. intros w. apply rtc_once. constructor. Qed.

Lemma sound_dict_setitem P r k v : In k bridged -> sound P r (dict_setitem r k v).
Proof. intros Hk w. apply rtc_once. constructor. exact Hk. Qed.

Lemma sound_dict_copy P r r0 : sound P r (dict_copy r0).
Proof. intros w. apply rtc_once. cbn. constructor. Qed.

Lemma sound_dict_get P r r0 k : sound P r (dict_get r0 k).
Proof. apply sound_gets. Qed.

Lemma sound_for_each P r {A} (l : list A) (body : A -> W unit) :
  (forall x, sound P r (body x)) -> sound P r (for_each l body).
Proof.
  intros Hb. induction l as [| x l IH]; cbn.
  - apply sound_ret.
  - apply sound_bind; [apply Hb | intros _; exact IH].
Qed.

(** Decomposes a computation along its syntax; what is left are the side
    conditions on emitted events and assigned keys. *)
Ltac sound_step :=
  first
    [ apply sound_ret | apply sound_raise | apply sound_sys_exit
    | apply sound_gets | apply sound_lift | apply sound_dict_get
    | apply sound_dict_copy | apply sound_remove_file
    | apply sound_launch; (left; reflexivity) || (right; reflexivity)
    | apply sound_emit; cbn; try tauto; try reflexivity
    | apply sound_dict_setitem; cbn; tauto
    | apply sound_bind; [| intros ?]
    | apply sound_try_except; [| intros ?]
    | apply sound_try_except_all
    | apply sound_for_each; intros ?
    | match goal with
      | |- sound _ _ (if ?b then _ else _) => destruct b
      | |- sound _ _ (match ?x with _ => _ end) => destruct x
      end ].

Ltac sound_auto :=
  unfold subprocess_check_output, subprocess_run, os_remove, os_path_exists,
    os_path_isdir, os_path_isfile, Logger_header, Logger_info, Logger_warning,
    Logger_error, Logger_success, Logger_debug, print, time_sleep,
    ingress_setting, as_argument, assigned_value, json_load_config;
  repeat sound_step.

Lemma sound_run_cmd (P : event -> Prop) self cmd shell capture cwd ignore :
  (forall e, quiet_note e -> P e) ->
  sound P (env self) (run_cmd self cmd shell capture cwd ignore).
Proof.
  intros HP. apply (sound_mono quiet_note); [exact HP |].
  unfold run_cmd. sound_auto.
Qed.

(** ** Which steps begin, and in which order *)

Lemma steps_begun_app root evs1 evs2 :
  steps_begun root (evs1 ++ evs2) = steps_begun root evs1 ++ steps_begun root evs2.
Proof. unfold steps_begun. apply omap_app. Qed.

Lemma action_quiet_trace r w w' :
  action quiet_note r w w' ->
  project_root w' = project_root w /\
  exists evs, trace w' = trace w ++ evs /\ forall root, steps_begun root evs = [].
Proof.
  intros H. destruct H as [e w He | cmd shell env cwd w _ | path w | k v w _ | d w].
  - split; [reflexivity |]. exists [e]. split; [reflexivity |].
    intros root. destruct e as [[] ?| | | | |]; cbn in *; tauto.
  - split; [reflexivity |]. eexists [_]. split; [reflexivity |]. reflexivity.
  - split.
    + unfold remove_file. destruct (remove_error w !! path); [reflexivity |].
      destruct (fs w !! path) as [[] |]; reflexivity.
    + exists []. rewrite app_nil_r. split; [| reflexivity].
      unfold remove_file. destruct (remove_error w !! path); [reflexivity |].
      destruct (fs w !! path) as [[] |]; reflexivity.
  - split; [destruct r; reflexivity |]. exists []. rewrite app_nil_r.
    split; [destruct r; reflexivity | reflexivity].
  - split; [reflexivity |]. exists []. rewrite app_nil_r. split; reflexivity.
Qed.

Lemma rtc_quiet_trace r w w' :
  rtc (action quiet_note r) w w' ->
  project_root w' = project_root w /\
  exists evs, trace w' = trace w ++ evs /\ forall root, steps_begun root evs = [].
Proof.
  induction 1 as [w | w w1 w2 H1 _ IH].
  - split; [reflexivity |]. exists []. rewrite app_nil_r. split; reflexivity.
  - destruct (action_quiet_trace _ _ _ H1) as (Hr1 & evs1 & Ht1 & Hs1).
    destruct IH as (Hr2 & evs2 & Ht2 & Hs2).
    split; [congruence |]. exists (evs1 ++ evs2). split.
    + rewrite Ht2, Ht1, app_assoc. reflexivity.
    + intros root. rewrite steps_begun_app, Hs1, Hs2. reflexivity.
Qed.

Lemma runs_steps_quiet r {A} (m : W A) : sound quiet_note r m -> runs_steps [] m.
Proof.
  intros Hm w. destruct (rtc_quiet_trace _ _ _ (Hm w)) as (Hr & evs & Ht & Hs).
  split; [exact Hr |]. exists evs. rewrite Hs. repeat split; auto.
Qed.

Lemma runs_steps_bind l1 l2 {A B} (m : W A) (k : A -> W B) :
  runs_steps l1 m -> (forall a, runs_steps l2 (k a)) -> runs_steps (l1 ++ l2) (m ≫= k).
Proof.
  intros Hm Hk w. rewrite bind_eq. specialize (Hm w).
  destruct (m w) as [[a | c | e] w1]; cbn in *.
  - destruct Hm as (Hr1 & evs1 & Ht1 & _ & Hs1). specialize (Hs1 eq_refl).
    destruct (Hk a w1) as (Hr2 & evs2 & Ht2 & Hp2 & Hs2).
    split; [congruence |]. exists (evs1 ++ evs2). split.
    + rewrite Ht2, Ht1, app_assoc. reflexivity.
    + rewrite steps_begun_app, Hs1. rewrite Hr1 in *. split.
      * destruct Hp2 as [rest ->]. exists rest. rewrite app_assoc. reflexivity.
      * intros Hret. rewrite (Hs2 Hret). reflexivity.
  - destruct Hm as (Hr1 & evs1 & Ht1 & [rest ->] & _).
    split; [exact Hr1 |]. exists evs1. split; [exact Ht1 |]. split; [| discriminate].
    exists (rest ++ l2). rewrite app_assoc. reflexivity.
  - destruct Hm as (Hr1 & evs1 & Ht1 & [rest ->] & _).
    split; [exact Hr1 |]. exists evs1. split; [exact Ht1 |]. split; [| discriminate].
    exists (rest ++ l2). rewrite app_assoc. reflexivity.
Qed.

(** A step that announces itself first and is quiet afterwards. *)
Lemma runs_steps_announced r s e {A} (body : W A) :
  (forall root, step_of_event root e = Some s) ->
  sound quiet_note r body ->
  runs_steps [s] (emit e ;; body).
Proof.
  intros He Hb w. rewrite bind_eq. cbn.
  destruct (rtc_quiet_trace _ _ _ (Hb (set_trace (trace w ++ [e]) w)))
    as (Hr & evs & Ht & Hs).
  cbn in Hr, Ht.
  assert (Hgoal : project_root (body (set_trace (trace w ++ [e]) w)).2 = project_root w /\
          exists evs0, trace (body (set_trace (trace w ++ [e]) w)).2 = trace w ++ evs0 /\
                       steps_begun (project_root w) evs0 = [s]).
  { split; [exact Hr |]. exists (e :: evs). split.
    - rewrite Ht, <- app_assoc. reflexivity.
    - unfold steps_begun in *. cbn. rewrite He. cbn. f_equal. apply Hs. }
  destruct Hgoal as (Hr' & evs0 & Ht0 & Hs0).
  split; [exact Hr' |]. exists evs0. rewrite Hs0. repeat split; auto.
Qed.

(** ** LockGuard: [force_unlock_terraform] *)

Lemma force_unlock_terraform_eq self w :
  force_unlock_terraform self w =
  let lf := lock_file_of (project_root w) in
  let attempt := trace w ++ [Probe lf; Log Warning ("Found Terraform Lock File: " +:+ lf);
                             Remove lf] in
  match fs w !! lf with
  | None => (Return tt, set_trace (trace w ++ [Probe lf]) w)
  | Some nd =>
      match remove_error w !! lf with
      | Some msg =>
          (Return tt,
           set_trace (attempt ++ [Log Error ("Could not remove lock file: " +:+ msg)]) w)
      | None =>
          match nd with
          | RegularFile =>
              (Return tt,
               set_trace
                 (attempt ++ [Log Success "Removed Lock File. Terraform is now unlocked."])
                 (set_fs (delete lf (fs w)) w))
          | Directory =>
              (Return tt,
               set_trace
                 (attempt ++
                  [Log Error ("Could not remove lock file: " +:+
                              ("[Errno 21] Is a directory: " +:+ PyRepr.repr_str lf))])
                 w)
          end
      end
  end.
Proof.
  unfold force_unlock_terraform, os_path_exists, os_remove, remove_file. step_W.
  change (path_join (TERRAFORM_DIR w) ".terraform.tfstate.lock.info")
    with (lock_file_of (project_root w)).
  destruct (fs w !! lock_file_of (project_root w)) as [nd |] eqn:Hfs; cbn.
  - rewrite ?Hfs. destruct (remove_error w !! lock_file_of (project_root w)) as [msg |]; cbn.
    + norm_world. reflexivity.
    + destruct nd; cbn; norm_world; reflexivity.
  - norm_world. reflexivity.
Qed.

Lemma force_unlock_terraform_returns self w :
  (force_unlock_terraform self w).1 = Return tt.
Proof.
  rewrite force_unlock_terraform_eq. cbn zeta.
  destruct (fs w !! lock_file_of (project_root w)) as [[] |];
    destruct (remove_error w !! lock_file_of (project_root w)); reflexivity.
Qed.

(** C8 (LockGuard), as stated, fails where it says that a failed removal is
    logged as a warning: the line that reports it is an error line. *)
Lemma force_unlock_failure_is_not_a_warning :
  let w := held_lock_world in
  let lf := lock_file_of (project_root w) in
  let evs := new_events w (force_unlock_terraform plain_manager w).2 in
  is_Some (fs w !! lf) /\
  (remove_file lf w).1 = Raise (OSError "[Errno 13] Permission denied") /\
  after_removal lf evs =
    [Log Error "Could not remove lock file: [Errno 13] Permission denied"] /\
  ~ removal_reported_as Warning lf evs.
Proof.
  assert (Hevs : after_removal (lock_file_of (project_root held_lock_world))
                   (new_events held_lock_world
                      (force_unlock_terraform plain_manager held_lock_world).2) =
                 [Log Error "Could not remove lock file: [Errno 13] Permission denied"])
    by (vm_compute; reflexivity).
  cbn zeta. split; [vm_compute; eauto |]. split; [vm_compute; reflexivity |].
  split; [exact Hevs |].
  intros [msg Hin]. rewrite Hevs in Hin. destruct Hin as [Heq | []]. discriminate.
Qed.

(** C8 (LockGuard), amended.  When the lock file exists, a removal is
    attempted.  If [os.remove] succeeds the path is gone afterwards and the
    success is logged; if it raises, the file system is untouched and the
    failure is logged as an error line carrying the exception text.  In both
    cases the method returns, so that [main] goes on with
    [cleanup_resources]. *)
Theorem force_unlock_terraform_clears_or_reports self w :
  let lf := lock_file_of (project_root w) in
  is_Some (fs w !! lf) ->
  let r := force_unlock_terraform self w in
  let evs := new_events w r.2 in
  r.1 = Return tt /\
  In (Remove lf) evs /\
  match (remove_file lf w).1 with
  | Return _ =>
      fs r.2 !! lf = None /\
      after_removal lf evs = [Log Success "Removed Lock File. Terraform is now unlocked."]
  | Raise e =>
      fs r.2 = fs w /\
      after_removal lf evs = [Log Error ("Could not remove lock file: " +:+ exn_str e)]
  | Exit _ => False
  end /\
  (force_unlock_terraform self ;; cleanup_resources self) w = cleanup_resources self r.2.
Proof.
  intros lf [nd Hnd] r evs.
  split; [apply force_unlock_terraform_returns |].
  split; [| split; [| apply seq_after_return, force_unlock_terraform_returns]].
  all: subst evs r; rewrite force_unlock_terraform_eq; cbn zeta; fold lf.
  all: unfold remove_file; rewrite Hnd.
  all: destruct (remove_error w !! lf) as [msg |]; [| destruct nd].
  all: erewrite new_events_app by (cbn; rewrite <- app_assoc; reflexivity).
  all: cbn; rewrite ?String.eqb_refl; repeat split; auto; try tauto.
  apply lookup_delete_eq.
Qed.

Lemma force_unlock_terraform_clears_or_reports_witness :
  is_Some (fs stale_lock_world !! lock_file_of (project_root stale_lock_world)) /\
  fs (force_unlock_terraform plain_manager stale_lock_world).2
    !! lock_file_of (project_root stale_lock_world) = None.
Proof.
  assert (H : is_Some (fs stale_lock_world
                         !! lock_file_of (project_root stale_lock_world)))
    by (vm_compute; eauto).
  split; [exact H |].
  pose proof (force_unlock_terraform_clears_or_reports plain_manager stale_lock_world H)
    as (_ & _ & Hcase & _).
  change ((remove_file (lock_file_of (project_root stale_lock_world)) stale_lock_world).1)
    with (@Return unit tt) in Hcase.
  exact (proj1 Hcase).
Defined.

(** ** The steps of [main] *)

Lemma quiet_note_any e : quiet_note e -> any_note e.
Proof. destruct e; cbn; try tauto; reflexivity. Qed.

Ltac sound_method :=
  unfold subprocess_check_output, subprocess_run, os_remove, os_path_exists,
    os_path_isdir, os_path_isfile, Logger_header, Logger_info, Logger_warning,
    Logger_error, Logger_success, Logger_debug, print, time_sleep,
    ingress_setting, as_argument, assigned_value, json_load_config;
  repeat first
    [ apply sound_run_cmd; solve [auto using quiet_note_any]
    | sound_step ].

Lemma wait_loop_S self fuel retries :
  wait_loop self (S fuel) retries =
  if (retries <? 40)%nat then
    output ← run_cmd self (CmdList ["kubectl"; "get"; "pods"]) false true None false;
    if healthy (output : string) then
      Logger_success "All Pods are RUNNING!" ;; ret true
    else
      time_sleep 3 ;;
      (if (S retries mod 5 =? 0)%nat then Logger_debug "Waiting for pods..."
       else ret tt) ;;
      wait_loop self fuel (S retries)
  else ret false.
Proof. reflexivity. Qed.

Lemma sound_wait_loop (P : event -> Prop) self fuel retries :
  (forall e, quiet_note e -> P e) ->
  sound P (env self) (wait_loop self fuel retries).
Proof.
  intros HP. apply (sound_mono quiet_note); [exact HP |].
  revert retries. induction fuel as [| fuel IH]; intros retries.
  - apply sound_ret.
  - rewrite wait_loop_S. destruct (retries <? 40)%nat; [| apply sound_ret].
    apply sound_bind; [apply sound_run_cmd; auto | intros output].
    destruct (healthy output); [sound_method |].
    apply sound_bind; [sound_method | intros _].
    apply sound_bind; [sound_method | intros _]. apply IH.
Qed.

Lemma cleanup_resources_steps self : runs_steps [Reap] (cleanup_resources self).
Proof.
  unfold cleanup_resources, Logger_header.
  apply (runs_steps_announced (env self)); [reflexivity |]. sound_method.
Qed.

Lemma check_minikube_steps self : runs_steps [Bootstrap] (check_minikube self).
Proof.
  unfold check_minikube, Logger_header.
  apply (runs_steps_announced (env self)); [reflexivity |]. sound_method.
Qed.

Lemma set_docker_env_line_sound (P : event -> Prop) self line :
  sound P (env self) (set_docker_env_line self line).
Proof. unfold set_docker_env_line. sound_method. Qed.

Lemma set_docker_env_steps self : runs_steps [BridgeEnvironment] (set_docker_env self).
Proof.
  unfold set_docker_env, Logger_header.
  apply (runs_steps_announced (env self)); [reflexivity |].
  apply sound_try_except_all; [| sound_method].
  apply sound_bind; [sound_method | intros output].
  apply sound_bind; [| intros _; sound_method].
  apply sound_for_each. intros line. apply set_docker_env_line_sound.
Qed.

Lemma build_images_steps self : runs_steps [Build] (build_images self).
Proof.
  unfold build_images, Logger_header.
  apply (runs_steps_announced (env self)); [reflexivity |]. sound_method.
Qed.

Lemma deploy_k8s_steps self : runs_steps [Deploy] (deploy_k8s self).
Proof.
  unfold deploy_k8s, Logger_header.
  apply (runs_steps_announced (env self)); [reflexivity |]. sound_method.
Qed.

Lemma wait_for_pods_steps self : runs_steps [HealthPoll] (wait_for_pods self).
Proof.
  unfold wait_for_pods, Logger_header.
  apply (runs_steps_announced (env self)); [reflexivity |].
  apply sound_bind; [apply sound_wait_loop; auto | intros returned].
  sound_method.
Qed.

Lemma open_tunnel_steps self : runs_steps [Tunnel] (open_tunnel self).
Proof.
  unfold open_tunnel.
  change [Tunnel] with ([] ++ [] ++ [] ++ [] ++ [Tunnel]).
  do 4 (apply runs_steps_bind;
        [apply (runs_steps_quiet (env self)); sound_method | intros ?]).
  unfold Logger_header.
  apply (runs_steps_announced (env self)); [reflexivity |]. sound_method.
Qed.

Lemma force_unlock_terraform_steps self :
  runs_steps [Unlock] (force_unlock_terraform self).
Proof.
  intros w. rewrite force_unlock_terraform_eq. cbn zeta.
  assert (Hprobe : step_of_event (project_root w) (Probe (lock_file_of (project_root w)))
                   = Some Unlock).
  { cbn. rewrite String.eqb_refl. reflexivity. }
  destruct (fs w !! lock_file_of (project_root w)) as [nd |];
    [destruct (remove_error w !! lock_file_of (project_root w)) as [msg |];
     [| destruct nd] |].
  all: split; [reflexivity |].
  all: eexists; split; [cbn; rewrite <- ?app_assoc; reflexivity |].
  all: unfold steps_begun; cbn [omap list_omap app]; rewrite Hprobe; cbn.
  all: split; [reflexivity | reflexivity].
Qed.

Lemma main_steps self : runs_steps pipeline (main self).
Proof.
  unfold main.
  change pipeline with ([Unlock] ++ [Reap] ++ [Bootstrap] ++ [BridgeEnvironment]
                        ++ [Build] ++ [Deploy] ++ [HealthPoll] ++ [Tunnel]).
  apply runs_steps_bind; [apply force_unlock_terraform_steps | intros _].
  apply runs_steps_bind; [apply cleanup_resources_steps | intros _].
  apply runs_steps_bind; [apply check_minikube_steps | intros self'].
  apply runs_steps_bind; [apply set_docker_env_steps | intros _].
  apply runs_steps_bind; [apply build_images_steps | intros _].
  apply runs_steps_bind; [apply deploy_k8s_steps | intros _].
  apply runs_steps_bind; [apply wait_for_pods_steps | intros _].
  apply open_tunnel_steps.
Qed.

Lemma main_before_tunnel self w :
  main self w = (before_tunnel self ≫= open_tunnel) w.
Proof.
  unfold main, before_tunnel. rewrite !bind_eq.
  destruct (force_unlock_terraform self w) as [[[] | c | e] w1]; try reflexivity.
  rewrite !bind_eq.
  destruct (cleanup_resources self w1) as [[[] | c | e] w2]; try reflexivity.
  rewrite !bind_eq.
  destruct (check_minikube self w2) as [[self' | c | e] w3]; try reflexivity.
  rewrite !bind_eq.
  destruct (set_docker_env self' w3) as [[[] | c | e] w4]; try reflexivity.
  rewrite !bind_eq.
  destruct (build_images self' w4) as [[[] | c | e] w5]; try reflexivity.
  rewrite !bind_eq.
  destruct (deploy_k8s self' w5) as [[[] | c | e] w6]; try reflexivity.
  rewrite !bind_eq.
  destruct (wait_for_pods self' w6) as [[[] | c | e] w7]; reflexivity.
Qed.

Lemma before_tunnel_steps self :
  runs_steps [Unlock; Reap; Bootstrap; BridgeEnvironment; Build; Deploy; HealthPoll]
             (before_tunnel self).
Proof.
  unfold before_tunnel.
  change [Unlock; Reap; Bootstrap; BridgeEnvironment; Build; Deploy; HealthPoll]
    with ([Unlock] ++ [Reap] ++ [Bootstrap] ++ [BridgeEnvironment]
          ++ [Build] ++ [Deploy] ++ [HealthPoll] ++ []).
  apply runs_steps_bind; [apply force_unlock_terraform_steps | intros _].
  apply runs_steps_bind; [apply cleanup_resources_steps | intros _].
  apply runs_steps_bind; [apply check_minikube_steps | intros self'].
  apply runs_steps_bind; [apply set_docker_env_steps | intros _].
  apply runs_steps_bind; [apply build_images_steps | intros _].
  apply runs_steps_bind; [apply deploy_k8s_steps | intros _].
  apply runs_steps_bind; [apply wait_for_pods_steps | intros _].
  apply (runs_steps_quiet (env self')). apply sound_ret.
Qed.

(** The object keeps its environment, configuration and services. *)
Lemma check_minikube_keeps self w self' :
  (check_minikube self w).1 = Return self' ->
  env self' = env self /\ config self' = config self /\ services self' = services self.
Proof.
  unfold check_minikube. rewrite !bind_eq.
  destruct (Logger_header "Step 1: Checking Infrastructure" w) as [[[] | c | e] w1];
    try discriminate.
  rewrite !bind_eq.
  match goal with |- context [try_except ?m ?c ?h w1] =>
    destruct (try_except m c h w1) as [[[] | c' | e'] w2] end; try discriminate.
  unfold try_except_all.
  match goal with |- context [(?m ≫= ?k) w2] =>
    destruct ((m ≫= k) w2) as [[s | c' | e'] w3] eqn:Hip end; cbn.
  - rewrite bind_eq in Hip.
    destruct (subprocess_check_output ["minikube"; "ip"] w2) as [[ip | c' | e'] w4];
      try discriminate.
    rewrite bind_eq in Hip.
    destruct (Logger_info ("Minikube IP: " +:+ PyStr.strip ip) w4) as [[[] | c' | e'] w5];
      try discriminate.
    cbn in Hip. injection Hip as <- _. intros [= <-]. auto.
  - intros [= <-]. auto.
  - intros [= <-]. auto.
Qed.

Lemma before_tunnel_keeps self w self' :
  (before_tunnel self w).1 = Return self' ->
  env self' = env self /\ config self' = config self /\ services self' = services self.
Proof.
  unfold before_tunnel. rewrite !bind_eq.
  destruct (force_unlock_terraform self w) as [[[] | c | e] w1]; try discriminate.
  rewrite !bind_eq.
  destruct (cleanup_resources self w1) as [[[] | c | e] w2]; try discriminate.
  rewrite !bind_eq.
  destruct (check_minikube self w2) as [[self1 | c | e] w3] eqn:Hcm; try discriminate.
  pose proof (check_minikube_keeps self w2 self1) as Hk. rewrite Hcm in Hk.
  specialize (Hk eq_refl).
  rewrite !bind_eq.
  destruct (set_docker_env self1 w3) as [[[] | c | e] w4]; try discriminate.
  rewrite !bind_eq.
  destruct (build_images self1 w4) as [[[] | c | e] w5]; try discriminate.
  rewrite !bind_eq.
  destruct (deploy_k8s self1 w5) as [[[] | c | e] w6]; try discriminate.
  rewrite !bind_eq.
  destruct (wait_for_pods self1 w6) as [[[] | c | e] w7]; try discriminate.
  cbn. intros [= <-]. exact Hk.
Qed.

Lemma open_tunnel_example self w :
  config self = example_config ->
  exists evs,
    trace (open_tunnel self w).2 = trace w ++ evs /\
    List.filter is_exec evs = [Exec example_port_forward false false (os_environ w) None].
Proof.
  intros Hcfg. unfold open_tunnel, ingress_setting, as_argument. rewrite Hcfg.
  step_W.
  match goal with |- context [oracle w (launched w) ?c ?e] =>
    destruct (oracle w (launched w) c e) as [rc out err | msg |] end; cbn.
  1: destruct (rc =? 0)%N; cbn.
  all: eexists; split; [norm_world; reflexivity | vm_compute; reflexivity].
Qed.

(** ** The environment map along a run *)

Lemma sound_bind_post (P : event -> Prop) r {A B} (Q : A -> Prop) (m : W A) (k : A -> W B) :
  sound P r m ->
  (forall w a, (m w).1 = Return a -> Q a) ->
  (forall a, Q a -> sound P r (k a)) ->
  sound P r (m ≫= k).
Proof.
  intros Hm HQ Hk w. rewrite bind_eq. specialize (Hm w). specialize (HQ w).
  destruct (m w) as [[a | c | e] w1]; cbn in *; [| exact Hm | exact Hm].
  etrans; [exact Hm | apply Hk, HQ; reflexivity].
Qed.

Ltac sound_any :=
  unfold subprocess_check_output, subprocess_run, os_remove, os_path_exists,
    os_path_isdir, os_path_isfile, Logger_header, Logger_info, Logger_warning,
    Logger_error, Logger_success, Logger_debug, print, time_sleep,
    ingress_setting, as_argument, assigned_value, json_load_config;
  repeat first
    [ apply sound_run_cmd; solve [auto using quiet_note_any]
    | apply sound_wait_loop; solve [auto using quiet_note_any]
    | apply set_docker_env_line_sound
    | sound_step ].

Lemma sound_load_config r : sound any_note r load_config.
Proof. unfold load_config. sound_any. Qed.

Lemma sound_discover_loop r names acc : sound any_note r (discover_loop names acc).
Proof.
  revert acc. induction names as [| name names IH]; intros acc; cbn.
  - apply sound_ret.
  - apply sound_bind; [sound_any | intros path].
    apply sound_bind; [sound_any | intros is_dir].
    apply sound_bind; [sound_any | intros has_manifest]. apply IH.
Qed.

Lemma sound_discover_services r : sound any_note r discover_services.
Proof.
  unfold discover_services. apply sound_bind; [sound_any | intros names].
  apply sound_discover_loop.
Qed.

Lemma sound_force_unlock_terraform self :
  sound any_note (env self) (force_unlock_terraform self).
Proof. unfold force_unlock_terraform. sound_any. Qed.

Lemma sound_cleanup_resources self : sound any_note (env self) (cleanup_resources self).
Proof. unfold cleanup_resources. sound_any. Qed.

Lemma sound_check_minikube self : sound any_note (env self) (check_minikube self).
Proof. unfold check_minikube. sound_any. Qed.

Lemma sound_set_docker_env self : sound any_note (env self) (set_docker_env self).
Proof. unfold set_docker_env. sound_any. Qed.

Lemma sound_build_images self : sound any_note (env self) (build_images self).
Proof. unfold build_images. sound_any. Qed.

Lemma sound_deploy_k8s self : sound any_note (env self) (deploy_k8s self).
Proof. unfold deploy_k8s. sound_any. Qed.

Lemma sound_wait_for_pods self : sound any_note (env self) (wait_for_pods self).
Proof. unfold wait_for_pods. sound_any. Qed.

Lemma sound_open_tunnel self : sound any_note (env self) (open_tunnel self).
Proof. unfold open_tunnel. sound_any. Qed.

Lemma sound_main self : sound any_note (env self) (main self).
Proof.
  unfold main.
  apply sound_bind; [apply sound_force_unlock_terraform | intros _].
  apply sound_bind; [apply sound_cleanup_resources | intros _].
  apply (sound_bind_post _ _ (fun self' => env self' = env self));
    [apply sound_check_minikube | |].
  - intros w self' H. apply (check_minikube_keeps self w self' H).
  - intros self' <-.
    apply sound_bind; [apply sound_set_docker_env | intros _].
    apply sound_bind; [apply sound_build_images | intros _].
    apply sound_bind; [apply sound_deploy_k8s | intros _].
    apply sound_bind; [apply sound_wait_for_pods | intros _].
    apply sound_open_tunnel.
Qed.

Lemma keeps_seed_refl E : keeps_seed E E.
Proof. split; [reflexivity | set_solver]. Qed.

Lemma keeps_seed_insert E d k v :
  In k bridged -> keeps_seed E d -> keeps_seed E (<[k := v]> d).
Proof.
  intros Hk [Hval Hdom]. split.
  - intros k' Hk'. rewrite lookup_insert_ne; [apply Hval, Hk' |].
    intros ->. contradiction.
  - rewrite dom_insert_L. etrans; [exact Hdom | apply union_subseteq_r].
Qed.

Lemma env_inv_action E n t0 w w' :
  action any_note (Cell n) w w' -> env_inv E n t0 w -> env_inv E n t0 w'.
Proof.
  intros Hact (Henv & (d & Hd & Hseed) & Hlen & Hall).
  destruct Hact as [e w He | cmd shell env cwd w Henvarg | path w | k v w Hk | d0 w].
  - split; [exact Henv |]. split; [eauto |]. cbn. rewrite length_app. split; [lia |].
    rewrite drop_app_le by exact Hlen. apply Forall_app. split; [exact Hall |].
    constructor; [| constructor]. destruct e; cbn; auto. discriminate He.
  - split; [exact Henv |]. split; [eauto |]. cbn. rewrite length_app. split; [lia |].
    rewrite drop_app_le by exact Hlen. apply Forall_app. split; [exact Hall |].
    constructor; [| constructor].
    destruct Henvarg as [-> | ->]; cbn.
    + exact Henv.
    + rewrite Hd. exact Hseed.
  - unfold remove_file. destruct (remove_error w !! path).
    + repeat split; eauto.
    + destruct (fs w !! path) as [[] |]; repeat split; eauto.
  - split; [exact Henv |]. split; [| split; [exact Hlen | exact Hall]].
    exists (<[k := v]> d). split.
    + cbn. rewrite list_lookup_alter_eq, Hd. reflexivity.
    + apply keeps_seed_insert; assumption.
  - split; [exact Henv |]. split; [| split; [exact Hlen | exact Hall]].
    exists d. split; [| exact Hseed]. cbn. apply lookup_app_l_Some. exact Hd.
Qed.

Lemma env_inv_rtc E n t0 w w' :
  rtc (action any_note (Cell n)) w w' -> env_inv E n t0 w -> env_inv E n t0 w'.
Proof. induction 1; eauto using env_inv_action. Qed.

(** [InfrastructureManager()] followed by [main()]: the copy of
    [os.environ] is the first thing allocated. *)
Lemma program_eq w :
  program w =
  (config ← load_config;
   services ← discover_services;
   main (Manager (Cell (length (heap w))) config services None))
    (set_heap (heap w ++ [os_environ w]) w).
Proof.
  unfold program, __init__, dict_copy. rewrite !bind_eq. cbn [deref].
  generalize (set_heap (heap w ++ [os_environ w]) w). intros w1.
  generalize (length (heap w)). intros n.
  destruct (load_config w1) as [[cfg | c | e] w2]; try reflexivity.
  rewrite !bind_eq.
  destruct (discover_services w2) as [[svcs | c | e] w3]; reflexivity.
Qed.

Lemma program_env_inv w :
  env_inv (os_environ w) (length (heap w)) (length (trace w)) (program w).2.
Proof.
  rewrite program_eq.
  eapply env_inv_rtc.
  - assert (Hrest : sound any_note (Cell (length (heap w)))
              (config ← load_config;
               services ← discover_services;
               main (Manager (Cell (length (heap w))) config services None))).
    { apply sound_bind; [apply sound_load_config | intros cfg].
      apply sound_bind; [apply sound_discover_services | intros svcs].
      apply (sound_main (Manager (Cell (length (heap w))) cfg svcs None)). }
    apply Hrest.
  - split; [reflexivity |]. split; [| split; [cbn; lia |]].
    + exists (os_environ w). split; [| apply keeps_seed_refl].
      cbn. apply list_lookup_middle. reflexivity.
    + cbn. rewrite drop_all. constructor.
Qed.

Lemma discover_loop_pure names acc w :
  exists l, discover_loop names acc w = (Return l, w).
Proof.
  revert acc. induction names as [| name names IH]; intros acc.
  - exists acc. reflexivity.
  - cbn [discover_loop]. unfold os_path_isdir, os_path_isfile. step_W.
    destruct (fs w !! path_join (PROJECT_ROOT w) name) as [[] |]; cbn; apply IH.
Qed.

Lemma load_config_heap w :
  heap (load_config w).2 = heap w /\ os_environ (load_config w).2 = os_environ w.
Proof.
  unfold load_config, os_path_exists, json_load_config. step_W.
  destruct (bool_decide (is_Some (fs w !! CONFIG_FILE w))); cbn; [| auto].
  destruct (config_load w) as [e | j]; cbn; [| auto].
  destruct (is_Exception e); cbn; auto.
Qed.

(** The map [self.env] of a constructed manager is a dictionary of its own,
    allocated by the constructor, with the items of [os.environ]. *)
Lemma init_copies_environ w self :
  (__init__ w).1 = Return self ->
  env self = Cell (length (heap w)) /\
  deref (env self) (__init__ w).2 = os_environ w.
Proof.
  unfold __init__, dict_copy. rewrite !bind_eq. cbn [deref].
  pose proof (load_config_heap (set_heap (heap w ++ [os_environ w]) w)) as [Hh _].
  destruct (load_config (set_heap (heap w ++ [os_environ w]) w)) as [[cfg | c | e] w2];
    try discriminate.
  rewrite !bind_eq. unfold discover_services. rewrite !bind_eq. cbn [gets].
  destruct (discover_loop_pure (listing w2) [] w2) as [l Hl]. rewrite Hl.
  cbn. intros [= <-]. split; [reflexivity |].
  cbn in *. rewrite Hh. rewrite list_lookup_middle by reflexivity. reflexivity.
Qed.

(** C6 (ProcessEnvironment).  In every run of the program the pipeline's
    map is the dictionary allocated first; at the end it holds, for every
    name other than the three bridged variables, exactly what the host
    environment held at startup (nothing added, changed or removed there),
    and no name of the host environment is missing from it.  The same is
    true of the map as each command launched with [env=self.env] saw it. *)
Theorem pipeline_env_only_merges_bridged_keys w :
  let r := program w in
  (exists d,
     heap r.2 !! length (heap w) = Some d /\
     (forall k, ~ In k bridged -> d !! k = os_environ w !! k) /\
     dom (os_environ w) ⊆ dom d) /\
  Forall (fun e =>
            match e with
            | Exec _ _ true child_env _ =>
                (forall k, ~ In k bridged -> child_env !! k = os_environ w !! k) /\
                dom (os_environ w) ⊆ dom child_env
            | _ => True
            end)
         (new_events w r.2).
Proof.
  intros r. subst r.
  destruct (program_env_inv w) as (_ & (d & Hd & Hval & Hdom) & _ & Hall).
  split; [exists d; auto |].
  unfold new_events. eapply Forall_impl; [exact Hall |].
  intros [| | | | | cmd shell [] ce cwd]; cbn; auto.
Qed.

(** C9 (frame).  The pipeline works on a copy: a constructed manager's map
    is a fresh dictionary holding the items of [os.environ]; at the end of
    every run [os.environ] is what it was at startup; and every child that
    is launched without [env=self.env] gets exactly that host environment,
    whatever has been written to the pipeline's map in the meantime. *)
Theorem host_environment_is_left_alone w :
  let r := program w in
  (forall self, (__init__ w).1 = Return self ->
     env self = Cell (length (heap w)) /\
     deref (env self) (__init__ w).2 = os_environ w) /\
  os_environ r.2 = os_environ w /\
  Forall (fun e =>
            match e with
            | Exec _ _ false child_env _ => child_env = os_environ w
            | _ => True
            end)
         (new_events w r.2).
Proof.
  intros r. subst r. split; [apply init_copies_environ |].
  destruct (program_env_inv w) as (Henv & _ & _ & Hall).
  split; [exact Henv |].
  unfold new_events. eapply Forall_impl; [exact Hall |].
  intros [| | | | | cmd shell [] ce cwd]; cbn; auto.
Qed.

(** ** ClusterBootstrapper: [check_minikube] *)

(** Settles the facts about one case of the bootstrap step: splits the
    statement, takes the hypotheses apart and closes each piece by
    congruence, or by naming the answer of the status query. *)
Ltac bootstrap_facts :=
  unfold minikube_start, minikube_ip_query, minikube_status in *;
  repeat first
    [ progress intros
    | match goal with
      | |- _ /\ _ => split
      | |- _ <-> _ => split
      | H : _ \/ _ |- _ => destruct H
      | H : False |- _ => destruct H
      | H : exists _, _ |- _ => destruct H
      | H : _ /\ _ |- _ => destruct H
      end ];
  try discriminate; try congruence; try tauto;
  try (do 3 eexists; split;
       [reflexivity | first [left; discriminate | right; assumption]]).

Lemma check_minikube_eq self w :
  check_minikube self w =
  let E := os_environ w in
  let ex c := Exec c false false E None in
  let hdr := Log Header "Step 1: Checking Infrastructure" in
  let stop (o : outcome manager) (n : nat) (evs : list event) :=
    (o, set_trace (trace w ++ evs) (set_launched n w)) in
  let finish (n : nat) (evs : list event) :=
    match oracle w n minikube_ip_query E with
    | Completed 0%N out _ =>
        stop (Return (set_minikube_ip (Some (PyStr.strip out)) self)) (S n)
             (evs ++ [ex minikube_ip_query;
                      Log Info ("Minikube IP: " +:+ PyStr.strip out)])
    | _ =>
        stop (Return (set_minikube_ip (Some "<minikube-ip>") self)) (S n)
             (evs ++ [ex minikube_ip_query])
    end in
  let failed (e : exn) := Log Error ("Minikube check failed: " +:+ exn_str e) in
  match oracle w (launched w) minikube_status E with
  | SpawnError msg =>
      stop (Exit 1) (S (launched w)) [hdr; ex minikube_status; failed (OSError msg)]
  | Interrupted =>
      stop (Raise KeyboardInterrupt) (S (launched w)) [hdr; ex minikube_status]
  | Completed rc out err =>
      if (rc =? 0)%N && PyStr.contains "Running" out
      then finish (S (launched w))
                  [hdr; ex minikube_status; Log Success "Minikube is running."]
      else
        let evs := [hdr; ex minikube_status; Log Warning "Starting Minikube...";
                    ex minikube_start] in
        match oracle w (S (launched w)) minikube_start E with
        | Completed rc' _ _ =>
            if (rc' =? 0)%N then finish (S (S (launched w))) evs
            else stop (Exit 1) (S (S (launched w)))
                      (evs ++ [failed (CalledProcessError minikube_start rc' None)])
        | SpawnError msg =>
            stop (Exit 1) (S (S (launched w))) (evs ++ [failed (OSError msg)])
        | Interrupted => stop (Raise KeyboardInterrupt) (S (S (launched w))) evs
        end
  end.
Proof.
  cbn zeta. unfold check_minikube, minikube_status, minikube_start, minikube_ip_query.
  step_W.
  destruct (oracle w (launched w) (CmdList ["minikube"; "status"]) (os_environ w))
    as [rc out err | msg |]; cbn; [| norm_world; reflexivity | norm_world; reflexivity].
  destruct ((rc =? 0)%N && PyStr.contains "Running" out); cbn.
  - destruct (oracle w (S (launched w)) (CmdList ["minikube"; "ip"]) (os_environ w))
      as [rc2 out2 err2 | msg2 |]; cbn; [| norm_world; reflexivity | norm_world; reflexivity].
    destruct rc2; cbn; norm_world; reflexivity.
  - destruct (oracle w (S (launched w)) (CmdList ["minikube"; "start"]) (os_environ w))
      as [rc1 out1 err1 | msg1 |]; cbn; [| norm_world; reflexivity | norm_world; reflexivity].
    destruct rc1; cbn; [| norm_world; reflexivity].
    destruct (oracle w (S (S (launched w))) (CmdList ["minikube"; "ip"]) (os_environ w))
      as [rc2 out2 err2 | msg2 |]; cbn; [| norm_world; reflexivity | norm_world; reflexivity].
    destruct rc2; cbn; norm_world; reflexivity.
Qed.


(** ** HealthPoller: [wait_for_pods] *)

Lemma startswith_cons b s a p :
  PyStr.startswith (String b s) (String a p) = Ascii.eqb a b && PyStr.startswith s p.
Proof. reflexivity. Qed.

Lemma contains_cons needle c hay :
  PyStr.contains needle (String c hay) =
  PyStr.startswith (String c hay) needle || PyStr.contains needle hay.
Proof. reflexivity. Qed.

Lemma contains_nil needle :
  PyStr.contains needle "" = PyStr.startswith "" needle || false.
Proof. reflexivity. Qed.

Lemma startswith_app s p q :
  PyStr.startswith s (p +:+ q) = true -> PyStr.startswith s p = true.
Proof.
  revert s. induction p as [| a p IH]; intros s H; [destruct s; reflexivity |].
  destruct s as [| b s]; [discriminate H |].
  change (String a p +:+ q) with (String a (p +:+ q)) in H.
  rewrite startswith_cons in *.
  apply andb_true_iff in H as [Hab Hrest].
  rewrite Hab. cbn. apply IH, Hrest.
Qed.

Lemma contains_app p q s :
  PyStr.contains (p +:+ q) s = true -> PyStr.contains p s = true.
Proof.
  induction s as [| c s IH]; intros H.
  - rewrite contains_nil in *. apply orb_true_iff in H as [H | H]; [| discriminate].
    apply startswith_app in H. rewrite H. reflexivity.
  - rewrite contains_cons in *. apply orb_true_iff in H as [H | H].
    + apply startswith_app in H. rewrite H. reflexivity.
    + rewrite (IH H). apply orb_true_r.
Qed.

Lemma crash_loop_is_unhealthy output :
  PyStr.contains "CrashLoopBackOff" output = true -> healthy output = false.
Proof.
  intros H. apply (contains_app "CrashLoop" "BackOff") in H.
  unfold healthy. rewrite H. cbn. rewrite !andb_false_r. reflexivity.
Qed.

Lemma wait_loop_round self fuel retries wc out err :
  (retries <? 40)%nat = true ->
  poll_answer self wc 0 = Completed 0 out err ->
  healthy (PyStr.strip out) = false ->
  wait_loop self (S fuel) retries wc =
  wait_loop self fuel (S retries)
    (set_trace (trace wc ++ round_events self wc retries)
               (set_launched (S (launched wc)) wc)).
Proof.
  intros Hlt Ho Hh. unfold poll_answer in Ho. rewrite Nat.add_0_r in Ho.
  rewrite wait_loop_S, Hlt, bind_eq.
  rewrite (run_cmd_completed _ _ _ _ _ _ _ _ _ _ Ho). cbn zeta.
  cbn [N.eqb]. cbv iota. rewrite Hh. unfold round_events, poll_events, get_pods.
  destruct (S retries mod 5 =? 0)%nat; step_W; f_equal; norm_world; reflexivity.
Qed.

Lemma round_events_later self t n wc i :
  round_events self (set_trace t (set_launched n wc)) i = round_events self wc i.
Proof.
  unfold round_events, poll_events. rewrite deref_set_trace, deref_set_launched.
  reflexivity.
Qed.

Lemma poll_answer_later self t wc i :
  poll_answer self (set_trace t (set_launched (S (launched wc)) wc)) i =
  poll_answer self wc (S i).
Proof.
  unfold poll_answer. rewrite deref_set_trace, deref_set_launched. cbn.
  rewrite Nat.add_succ_r. reflexivity.
Qed.

(** [k] unhealthy polls in a row take the loop through [k] rounds. *)
Lemma wait_loop_rounds self k :
  forall fuel retries wc,
    retries + k <= 40 ->
    (forall i, i < k -> unhealthy_poll self wc i) ->
    wait_loop self (k + fuel) retries wc =
    wait_loop self fuel (retries + k)
      (set_trace (trace wc ++ concat (map (round_events self wc) (seq retries k)))
                 (set_launched (launched wc + k) wc)).
Proof.
  induction k as [| k IH]; intros fuel retries wc Hle Hpolls.
  - cbn. rewrite !Nat.add_0_r, app_nil_r. destruct wc; reflexivity.
  - destruct (Hpolls 0) as (out & err & Ho & Hh); [lia |].
    change (S k + fuel) with (S (k + fuel)).
    rewrite (wait_loop_round self (k + fuel) retries wc out err);
      [| apply Nat.ltb_lt; lia | exact Ho | exact Hh].
    rewrite IH; [| lia |].
    + replace (S retries + k) with (retries + S k) by lia. f_equal.
      cbn [seq map concat].
      rewrite (map_ext (round_events self _) (round_events self wc))
        by (intros i; apply round_events_later).
      norm_world. rewrite Nat.add_succ_r. reflexivity.
    + intros i Hi. unfold unhealthy_poll. rewrite poll_answer_later.
      apply Hpolls. lia.
Qed.

Lemma wait_for_pods_eq self w k :
  k <= 40 ->
  (forall i, i < k -> unhealthy_poll self w i) ->
  (k < 40 -> healthy_poll self w k) ->
  wait_for_pods self w =
  (Return tt,
   set_trace
     (trace w ++
      Log Header "Step 6: Health Check" ::
      concat (map (round_events self w) (seq 0 k)) ++
      (if (k <? 40)%nat
       then poll_events self w ++ [Log Success "All Pods are RUNNING!"]
       else [Log Warning "Timed out waiting for pods."]))
     (set_launched (launched w + (if (k <? 40)%nat then S k else 40)) w)).
Proof.
  intros Hk Hun Hhe. unfold wait_for_pods. rewrite bind_eq.
  change (Logger_header "Step 6: Health Check" w)
    with (Return tt, set_trace (trace w ++ [Log Header "Step 6: Health Check"]) w).
  cbv iota. set (wh := set_trace (trace w ++ [Log Header "Step 6: Health Check"]) w).
  assert (Hwh : forall i, poll_answer self wh i = poll_answer self w i).
  { intros i. unfold poll_answer, wh. rewrite deref_set_trace. reflexivity. }
  assert (Hround : forall i, round_events self wh i = round_events self w i).
  { intros i. unfold round_events, poll_events, wh. rewrite deref_set_trace. reflexivity. }
  rewrite bind_eq.
  replace 41 with (k + (41 - k)) by lia.
  rewrite (wait_loop_rounds self k (41 - k) 0 wh); [| lia |].
  2: { intros i Hi. unfold unhealthy_poll. rewrite Hwh. apply Hun, Hi. }
  rewrite (map_ext _ _ Hround). cbn [Nat.add].
  destruct (Nat.ltb_spec k 40) as [Hlt | Hge].
  - destruct (Hhe Hlt) as (out & err & Ho & Hh).
    replace (41 - k) with (S (40 - k)) by lia.
    rewrite wait_loop_S. rewrite (proj2 (Nat.ltb_lt k 40) Hlt). rewrite bind_eq.
    erewrite run_cmd_completed; cycle 1.
    { rewrite !deref_set_trace, !deref_set_launched. unfold wh.
      rewrite deref_set_trace. cbn [launched set_trace set_launched].
      exact Ho. }
    cbn zeta. cbn [N.eqb]. cbv iota. rewrite Hh. step_W.
    unfold poll_events, get_pods, wh. f_equal. norm_world.
    rewrite ?deref_set_trace, Nat.add_succ_r. reflexivity.
  - assert (k = 40) as -> by lia. cbn [Nat.sub]. rewrite wait_loop_S.
    change (40 <? 40)%nat with false. cbv iota. step_W. unfold wh. f_equal.
    norm_world. reflexivity.
Qed.

(** C3 (HealthPoller).  Let the first [k] polls each show an unhealthy
    snapshot, and, if [k] is below 40, let poll [k] show a healthy one
    (Running, backend and ui present; Error, CrashLoop and
    ContainerCreating absent).  Then [wait_for_pods] returns: right after
    poll [k], without a further pause, when that poll is healthy, and after
    exactly 40 polls and a warning otherwise.  A snapshot that contains
    CrashLoopBackOff is never healthy.  Since the method returns, [main]
    goes on with [open_tunnel]. *)
Theorem wait_for_pods_stops_at_first_healthy_or_after_40 self w k :
  k <= 40 ->
  (forall i, i < k -> unhealthy_poll self w i) ->
  (k < 40 -> healthy_poll self w k) ->
  let r := wait_for_pods self w in
  r.1 = Return tt /\
  launched r.2 = launched w + (if (k <? 40)%nat then S k else 40) /\
  new_events w r.2 =
    Log Header "Step 6: Health Check" ::
    concat (map (round_events self w) (seq 0 k)) ++
    (if (k <? 40)%nat
     then poll_events self w ++ [Log Success "All Pods are RUNNING!"]
     else [Log Warning "Timed out waiting for pods."]) /\
  (forall output,
     healthy output = true <->
     PyStr.contains "Running" output = true /\
     PyStr.contains "backend" output = true /\
     PyStr.contains "ui" output = true /\
     PyStr.contains "Error" output = false /\
     PyStr.contains "CrashLoop" output = false /\
     PyStr.contains "ContainerCreating" output = false) /\
  (forall output,
     PyStr.contains "CrashLoopBackOff" output = true -> healthy output = false) /\
  (wait_for_pods self ;; open_tunnel self) w = open_tunnel self r.2.
Proof.
  intros Hk Hun Hhe r. subst r.
  pose proof (wait_for_pods_eq self w k Hk Hun Hhe) as Heq.
  split; [rewrite Heq; reflexivity |].
  split; [rewrite Heq; reflexivity |].
  split; [rewrite Heq; apply new_events_app; reflexivity |].
  split.
  { intros output. unfold healthy.
    destruct (PyStr.contains "Running" output), (PyStr.contains "backend" output),
      (PyStr.contains "ui" output), (PyStr.contains "Error" output),
      (PyStr.contains "CrashLoop" output), (PyStr.contains "ContainerCreating" output);
      cbn; intuition discriminate. }
  split; [exact crash_loop_is_unhealthy |].
  apply seq_after_return. rewrite Heq. reflexivity.
Qed.

Lemma wait_for_pods_stops_at_first_healthy_or_after_40_witness :
  (forall i, i < 40 -> unhealthy_poll plain_manager pending_world i) /\
  (wait_for_pods plain_manager pending_world).1 = Return tt /\
  launched (wait_for_pods plain_manager pending_world).2 = 40.
Proof.
  assert (Hun : forall i, i < 40 -> unhealthy_poll plain_manager pending_world i).
  { intros i _. exists "backend-7d4 0/1 ContainerCreating", "".
    split; [reflexivity | vm_compute; reflexivity]. }
  split; [exact Hun |].
  pose proof (wait_for_pods_stops_at_first_healthy_or_after_40
                plain_manager pending_world 40 (le_n 40) Hun
                (fun H : 40 < 40 => False_ind _ (Nat.lt_irrefl 40 H)))
    as (Hret & Hl & _).
  split; [exact Hret | exact Hl].
Defined.

(** ** EnvironmentBridge: [set_docker_env] *)

(** The loop body, read as: find the variable, find the value, assign. *)
Lemma set_docker_env_line_eq self line w :
  set_docker_env_line self line w =
  match assigned_key line with
  | None => (Return tt, w)
  | Some k =>
      match line_value line with
      | None => (Raise IndexError, w)
      | Some v => dict_setitem (env self) k v w
      end
  end.
Proof.
  unfold set_docker_env_line, assigned_key, assigns, assigned_value, line_value.
  change ("$Env:" +:+ "DOCKER_HOST") with "$Env:DOCKER_HOST".
  change ("$Env:" +:+ "DOCKER_TLS_VERIFY") with "$Env:DOCKER_TLS_VERIFY".
  change ("$Env:" +:+ "DOCKER_CERT_PATH") with "$Env:DOCKER_CERT_PATH".
  destruct (PyStr.startswith (PyStr.strip line) "$Env:DOCKER_HOST");
    [| destruct (PyStr.startswith (PyStr.strip line) "$Env:DOCKER_TLS_VERIFY");
       [| destruct (PyStr.startswith (PyStr.strip line) "$Env:DOCKER_CERT_PATH")]].
  all: try reflexivity.
  all: destruct (PyStr.split_once "=" line) as [[a v] |]; reflexivity.
Qed.

Lemma assigned_key_assigns line k :
  assigned_key line = Some k -> In k bridged /\ assigns k line = true.
Proof.
  unfold assigned_key.
  destruct (assigns "DOCKER_HOST" line) eqn:H1;
    [| destruct (assigns "DOCKER_TLS_VERIFY" line) eqn:H2;
       [| destruct (assigns "DOCKER_CERT_PATH" line) eqn:H3]];
    intros [= <-]; cbn; auto.
Qed.

Lemma deref_setitem_ne r k v k' w :
  k <> k' -> deref r (dict_setitem r k v w).2 !! k' = deref r w !! k'.
Proof.
  intros Hne. destruct r as [| n]; cbn.
  - apply lookup_insert_ne, Hne.
  - rewrite list_lookup_alter_eq. destruct (heap w !! n) as [d |]; cbn; [| reflexivity].
    apply lookup_insert_ne, Hne.
Qed.

Lemma deref_setitem_eq r k v w :
  valid_ref r w -> deref r (dict_setitem r k v w).2 !! k = Some v.
Proof.
  intros Hv. destruct r as [| n]; cbn in *.
  - apply lookup_insert_eq.
  - rewrite list_lookup_alter_eq.
    destruct (lookup_lt_is_Some_2 (heap w) n Hv) as [d ->]. cbn.
    apply lookup_insert_eq.
Qed.

Lemma valid_ref_setitem r k v w : valid_ref r w -> valid_ref r (dict_setitem r k v w).2.
Proof. destruct r; cbn; [auto |]. rewrite length_alter. auto. Qed.

(** A line that does not assign [key] leaves [key] alone, whatever else it
    does. *)
Lemma set_docker_env_line_other self line key w :
  assigns key line = false ->
  deref (env self) (set_docker_env_line self line w).2 !! key =
  deref (env self) w !! key.
Proof.
  intros Hno. rewrite set_docker_env_line_eq.
  destruct (assigned_key line) as [k |] eqn:Hk; [| reflexivity].
  destruct (line_value line) as [v |]; [| reflexivity].
  apply deref_setitem_ne. intros ->.
  apply assigned_key_assigns in Hk as [_ Hk]. congruence.
Qed.


Lemma set_docker_env_line_valid self line w :
  valid_ref (env self) w -> valid_ref (env self) (set_docker_env_line self line w).2.
Proof.
  intros Hv. rewrite set_docker_env_line_eq.
  destruct (assigned_key line) as [k |]; [| exact Hv].
  destruct (line_value line) as [v |]; [| exact Hv].
  apply valid_ref_setitem, Hv.
Qed.

Lemma set_docker_env_line_returns self line w :
  malformed line = false -> (set_docker_env_line self line w).1 = Return tt.
Proof.
  unfold malformed. rewrite set_docker_env_line_eq.
  destruct (assigned_key line) as [k |]; [| reflexivity].
  destruct (line_value line) as [v |]; [reflexivity | discriminate].
Qed.


(** The loop touches nothing but the dictionaries. *)
Lemma set_docker_env_line_rest self line w :
  let w' := (set_docker_env_line self line w).2 in
  trace w' = trace w /\ launched w' = launched w /\ length (heap w') = length (heap w).
Proof.
  cbn zeta. rewrite set_docker_env_line_eq.
  destruct (assigned_key line) as [k |]; [| auto].
  destruct (line_value line) as [v |]; [| auto].
  destruct (env self); cbn; rewrite ?length_alter; auto.
Qed.

Lemma for_each_cons {A} (x : A) l (body : A -> W unit) w :
  for_each (x :: l) body w =
  match body x w with
  | (Return _, w') => for_each l body w'
  | (Exit c, w') => (Exit c, w')
  | (Raise e, w') => (Raise e, w')
  end.
Proof. reflexivity. Qed.

Lemma bridge_loop_other self key lines w :
  Forall (fun line => assigns key line = false) lines ->
  deref (env self) (for_each lines (set_docker_env_line self) w).2 !! key =
  deref (env self) w !! key.
Proof.
  intros Hall. revert w. induction Hall as [| line lines Hline _ IH]; intros w.
  - reflexivity.
  - rewrite for_each_cons.
    pose proof (set_docker_env_line_other self line key w Hline) as Hstep.
    destruct (set_docker_env_line self line w) as [[[] | c | e] w']; cbn in *.
    + rewrite IH. exact Hstep.
    + exact Hstep.
    + exact Hstep.
Qed.


Lemma bridge_loop_rest self lines w :
  let w' := (for_each lines (set_docker_env_line self) w).2 in
  trace w' = trace w /\ launched w' = launched w /\ length (heap w') = length (heap w).
Proof.
  cbn zeta. revert w. induction lines as [| line lines IH]; intros w.
  - auto.
  - rewrite for_each_cons.
    pose proof (set_docker_env_line_rest self line w) as Hstep. cbn zeta in Hstep.
    destruct (set_docker_env_line self line w) as [[[] | c | e] w']; cbn in *.
    + destruct (IH w') as (H1 & H2 & H3), Hstep as (H4 & H5 & H6).
      repeat split; congruence.
    + exact Hstep.
    + exact Hstep.
Qed.

Lemma bridge_loop_returns self lines w :
  Forall (fun line => malformed line = false) lines ->
  (for_each lines (set_docker_env_line self) w).1 = Return tt.
Proof.
  intros Hall. revert w. induction Hall as [| line lines Hline _ IH]; intros w.
  - reflexivity.
  - rewrite for_each_cons.
    pose proof (set_docker_env_line_returns self line w Hline) as Hstep.
    destruct (set_docker_env_line self line w) as [[[] | c | e] w']; cbn in *;
      try discriminate. apply IH.
Qed.


Lemma bridge_loop_app self pre rest w :
  Forall (fun line => malformed line = false) pre ->
  for_each (pre ++ rest) (set_docker_env_line self) w =
  for_each rest (set_docker_env_line self)
           (for_each pre (set_docker_env_line self) w).2.
Proof.
  intros Hall. revert w. induction Hall as [| line pre Hline _ IH]; intros w.
  - reflexivity.
  - cbn [app]. rewrite !for_each_cons.
    pose proof (set_docker_env_line_returns self line w Hline) as Hstep.
    destruct (set_docker_env_line self line w) as [[[] | c | e] w']; cbn in *;
      try discriminate. apply IH.
Qed.

Lemma bridge_loop_valid self lines w :
  valid_ref (env self) w ->
  valid_ref (env self) (for_each lines (set_docker_env_line self) w).2.
Proof.
  intros Hv. destruct (bridge_loop_rest self lines w) as (_ & _ & Hlen).
  destruct (env self); cbn in *; [auto | lia].
Qed.

(** The whole method in terms of the loop. *)
Lemma set_docker_env_eq self w :
  set_docker_env self w =
  let w1 := set_trace
              (trace w ++ [Log Header "Step 2: Configuring Docker Environment";
                           Exec docker_env_cmd false false (os_environ w) None])
              (set_launched (S (launched w)) w) in
  let loop := for_each (exported_lines w) (set_docker_env_line self) w1 in
  match exported_output w, loop.1 with
  | Some _, Return _ =>
      (Return tt,
       set_trace
         (trace loop.2 ++
          [Log Info ("Docker pointed to Minikube: " +:+
                     default "None" (deref (env self) loop.2 !! "DOCKER_HOST"))])
         loop.2)
  | _, _ =>
      (Return tt, set_trace (trace loop.2 ++ [Log Error "Failed to configure Docker env"])
                            loop.2)
  end.
Proof.
  cbn zeta. unfold set_docker_env, exported_lines, exported_output, docker_env_cmd,
    dict_get.
  step_W.
  destruct (oracle w (launched w)
              (CmdList ["minikube"; "-p"; "minikube"; "docker-env"; "--shell"; "powershell"])
              (os_environ w)) as [[| p] out err | msg |]; cbn.
  2-4: norm_world; reflexivity.
  match goal with |- context [for_each ?l ?f ?w1] =>
    replace w1 with
      (set_trace
         (trace w ++ [Log Header "Step 2: Configuring Docker Environment";
                      Exec (CmdList ["minikube"; "-p"; "minikube"; "docker-env";
                                     "--shell"; "powershell"])
                           false false (os_environ w) None])
         (set_launched (S (launched w)) w)) by (norm_world; reflexivity);
    destruct (for_each l f
                (set_trace
                   (trace w ++ [Log Header "Step 2: Configuring Docker Environment";
                                Exec (CmdList ["minikube"; "-p"; "minikube";
                                               "docker-env"; "--shell"; "powershell"])
                                     false false (os_environ w) None])
                   (set_launched (S (launched w)) w)))
      as [[[] | c | e] w2] end; cbn; reflexivity.
Qed.

Lemma set_docker_env_returns self w : (set_docker_env self w).1 = Return tt.
Proof.
  rewrite set_docker_env_eq. cbn zeta.
  destruct (exported_output w);
    try match goal with
        | |- context [(for_each ?l ?f ?w1).1] => destruct (for_each l f w1).1
        end; reflexivity.
Qed.

(** The map after the method is the map after the loop. *)
Lemma set_docker_env_deref self w :
  deref (env self) (set_docker_env self w).2 =
  deref (env self)
    (for_each (exported_lines w) (set_docker_env_line self)
       (set_trace
          (trace w ++ [Log Header "Step 2: Configuring Docker Environment";
                       Exec docker_env_cmd false false (os_environ w) None])
          (set_launched (S (launched w)) w))).2.
Proof.
  rewrite set_docker_env_eq. cbn zeta.
  destruct (exported_output w);
    try match goal with
        | |- context [(for_each ?l ?f ?w1).1] => destruct (for_each l f w1).1
        end; cbn; rewrite deref_set_trace; reflexivity.
Qed.

(** C4 (EnvironmentBridge), as stated, fails on its own example: the line
    [DOCKER_HOST = "tcp://1.2.3.4:2376"] does not start with the prefix the
    loop looks for, so it is ignored and the variable stays unset. *)
Lemma bare_export_line_is_ignored :
  let w := export_world (bare_host_line +:+ newline) in
  exported_lines w = [bare_host_line] /\
  deref (env plain_manager) w !! "DOCKER_HOST" = None /\
  (set_docker_env plain_manager w).1 = Return tt /\
  deref (env plain_manager) (set_docker_env plain_manager w).2 !! "DOCKER_HOST" = None.
Proof. vm_compute. repeat split; reflexivity. Qed.

(** C4 (EnvironmentBridge), amended.  [set_docker_env] always returns.  If
    the export holds the line [$Env:DOCKER_HOST = "tcp://1.2.3.4:2376"],
    no line before it is malformed and no line after it assigns
    DOCKER_HOST, then the map's DOCKER_HOST is tcp://1.2.3.4:2376, without
    the quotes.  A bridged variable that no line of the export assigns
    keeps its prior binding, unset included. *)
Theorem set_docker_env_merges_exported_assignments self w :
  valid_ref (env self) w ->
  let r := set_docker_env self w in
  r.1 = Return tt /\
  (forall pre post,
     exported_lines w = pre ++ host_line :: post ->
     Forall (fun line => malformed line = false) pre ->
     Forall (fun line => assigns "DOCKER_HOST" line = false) post ->
     deref (env self) r.2 !! "DOCKER_HOST" = Some "tcp://1.2.3.4:2376") /\
  (forall key,
     In key bridged ->
     Forall (fun line => assigns key line = false) (exported_lines w) ->
     deref (env self) r.2 !! key = deref (env self) w !! key).
Proof.
  intros Hvalid r. subst r. split; [apply set_docker_env_returns |].
  rewrite set_docker_env_deref.
  set (w1 := set_trace _ _).
  assert (Hv1 : valid_ref (env self) w1) by (destruct (env self); exact Hvalid).
  assert (Hd1 : deref (env self) w1 = deref (env self) w).
  { unfold w1. rewrite deref_set_trace, deref_set_launched. reflexivity. }
  split.
  - intros pre post Hlines Hpre Hpost. rewrite Hlines.
    rewrite (bridge_loop_app self pre (host_line :: post) w1 Hpre).
    set (w2 := (for_each pre (set_docker_env_line self) w1).2).
    assert (Hv2 : valid_ref (env self) w2) by (apply bridge_loop_valid, Hv1).
    rewrite for_each_cons, set_docker_env_line_eq.
    change (assigned_key host_line) with (Some "DOCKER_HOST").
    replace (line_value host_line) with (Some "tcp://1.2.3.4:2376")
      by (vm_compute; reflexivity).
    pose proof (deref_setitem_eq (env self) "DOCKER_HOST" "tcp://1.2.3.4:2376" w2 Hv2)
      as Hset.
    destruct (dict_setitem (env self) "DOCKER_HOST" "tcp://1.2.3.4:2376" w2)
      as [[[] | c | e] w3] eqn:Hw3; cbn in Hset |- *; try discriminate.
    rewrite (bridge_loop_other self "DOCKER_HOST" post w3 Hpost). exact Hset.
  - intros key _ Hnone.
    rewrite (bridge_loop_other self key (exported_lines w) w1 Hnone), Hd1.
    reflexivity.
Qed.

Lemma set_docker_env_merges_exported_assignments_witness :
  valid_ref (env plain_manager) (export_world typical_export) /\
  exported_lines (export_world typical_export) =
    [tls_line] ++ host_line :: [cert_line; active_line] /\
  deref (env plain_manager)
        (set_docker_env plain_manager (export_world typical_export)).2
    !! "DOCKER_HOST" = Some "tcp://1.2.3.4:2376".
Proof.
  assert (Hv : valid_ref (env plain_manager) (export_world typical_export))
    by (cbn; lia).
  assert (Hl : exported_lines (export_world typical_export) =
               [tls_line] ++ host_line :: [cert_line; active_line])
    by (vm_compute; reflexivity).
  split; [exact Hv |]. split; [exact Hl |].
  pose proof (set_docker_env_merges_exported_assignments
                plain_manager (export_world typical_export) Hv) as (_ & Hhost & _).
  apply (Hhost [tls_line] [cert_line; active_line] Hl).
  - repeat constructor.
  - repeat constructor.
Defined.



(** ** The configuration gate: [load_config] *)

(** C1, as stated, fails for a configuration that lacks a field: the file
    parses, so the run starts; without the local port it goes through
    seven steps and ends in a [KeyError] when [open_tunnel] reads the
    setting. *)
Lemma missing_field_is_found_late :
  let w := working_machine config_without_local_port in
  config_load w = inr config_without_local_port /\
  has_all_fields config_without_local_port = false /\
  (program w).1 = Raise (KeyError "local_port") /\
  steps_begun (project_root w) (new_events w (program w).2) =
    [Unlock; Reap; Bootstrap; BridgeEnvironment; Build; Deploy; HealthPoll] /\
  ~ aborts_before_step_one w.
Proof.
  cbn zeta.
  assert (Hrun : (program (working_machine config_without_local_port)).1 =
                 Raise (KeyError "local_port")) by (vm_compute; reflexivity).
  split; [reflexivity |]. split; [reflexivity |]. split; [exact Hrun |].
  split; [vm_compute; reflexivity |].
  intros (code & _ & Hexit & _). rewrite Hrun in Hexit. discriminate.
Qed.

Lemma load_config_eq w :
  load_config w =
  let cf := CONFIG_FILE w in
  let w1 := set_trace (trace w ++ [Probe cf]) w in
  match fs w !! cf with
  | None =>
      (Exit 1, set_trace (trace w1 ++ [Log Error ("Config file not found at: " +:+ cf)]) w1)
  | Some _ =>
      match config_load w with
      | inr j => (Return j, w1)
      | inl e =>
          if is_Exception e
          then (Exit 1,
                set_trace (trace w1 ++
                           [Log Error ("Failed to parse config.json: " +:+ exn_str e)]) w1)
          else (Raise e, w1)
      end
  end.
Proof.
  cbn zeta. unfold load_config, os_path_exists, json_load_config. step_W.
  destruct (fs w !! CONFIG_FILE w) as [nd |]; cbn; [| reflexivity].
  destruct (config_load w) as [e | j]; cbn; [| reflexivity].
  destruct (is_Exception e); reflexivity.
Qed.

Lemma action_trace_ext (P : event -> Prop) r w w' :
  action P r w w' -> exists evs, trace w' = trace w ++ evs.
Proof.
  intros H. destruct H as [e w _ | cmd shell env cwd w _ | path w | k v w _ | d w].
  - exists [e]. reflexivity.
  - eexists [_]. reflexivity.
  - exists []. rewrite app_nil_r. unfold remove_file.
    destruct (remove_error w !! path); [reflexivity |].
    destruct (fs w !! path) as [[] |]; reflexivity.
  - exists []. rewrite app_nil_r. destruct r; reflexivity.
  - exists []. rewrite app_nil_r. reflexivity.
Qed.

Lemma rtc_trace_ext (P : event -> Prop) r w w' :
  rtc (action P r) w w' -> exists evs, trace w' = trace w ++ evs.
Proof.
  induction 1 as [w | w w1 w2 H1 _ IH].
  - exists []. rewrite app_nil_r. reflexivity.
  - destruct (action_trace_ext _ _ _ _ H1) as [evs1 H1'], IH as [evs2 H2'].
    exists (evs1 ++ evs2). rewrite H2', H1', app_assoc. reflexivity.
Qed.

(** The first thing [main] does is to look for the lock file. *)
Lemma main_first_event self w :
  exists evs,
    trace (main self w).2 = trace w ++ Probe (lock_file_of (project_root w)) :: evs.
Proof.
  unfold main.
  rewrite seq_after_return by apply force_unlock_terraform_returns.
  assert (Htail : sound any_note (env self)
            (cleanup_resources self ;;
             self' ← check_minikube self;
             set_docker_env self' ;; build_images self' ;; deploy_k8s self' ;;
             wait_for_pods self' ;; open_tunnel self')).
  { apply sound_bind; [apply sound_cleanup_resources | intros _].
    apply (sound_bind_post _ _ (fun self' => env self' = env self));
      [apply sound_check_minikube | |].
    - intros w0 self' H. apply (check_minikube_keeps self w0 self' H).
    - intros self' <-.
      apply sound_bind; [apply sound_set_docker_env | intros _].
      apply sound_bind; [apply sound_build_images | intros _].
      apply sound_bind; [apply sound_deploy_k8s | intros _].
      apply sound_bind; [apply sound_wait_for_pods | intros _].
      apply sound_open_tunnel. }
  destruct (rtc_trace_ext _ _ _ _ (Htail (force_unlock_terraform self w).2))
    as [evs Hevs].
  rewrite Hevs. rewrite force_unlock_terraform_eq. cbn zeta.
  destruct (fs w !! lock_file_of (project_root w)) as [nd |];
    [destruct (remove_error w !! lock_file_of (project_root w)) as [msg |];
     [| destruct nd] |];
    cbn; rewrite <- ?app_assoc; cbn; eexists; reflexivity.
Qed.

(** C1, amended.  If the configuration file is missing, or cannot be read
    and parsed, the run ends in [sys.exit(1)] and has recorded nothing but
    the look for the file and one error line: no step has begun.  If the
    file parses, whatever fields the value has, the manager is constructed
    with that value and the run is [main] on it, whose first act is the
    first step's look for the lock file. *)
Theorem config_file_gates_the_run w :
  let r := program w in
  let cf := CONFIG_FILE w in
  (fs w !! cf = None ->
   r.1 = Exit 1 /\
   new_events w r.2 = [Probe cf; Log Error ("Config file not found at: " +:+ cf)]) /\
  (forall e,
     is_Some (fs w !! cf) -> config_load w = inl e -> is_Exception e = true ->
     r.1 = Exit 1 /\
     new_events w r.2 =
       [Probe cf; Log Error ("Failed to parse config.json: " +:+ exn_str e)]) /\
  (forall j,
     is_Some (fs w !! cf) -> config_load w = inr j ->
     exists services evs,
       (__init__ w).1 = Return (Manager (Cell (length (heap w))) j services None) /\
       r = main (Manager (Cell (length (heap w))) j services None) (__init__ w).2 /\
       new_events w r.2 = Probe cf :: Probe (lock_file_of (project_root w)) :: evs).
Proof.
  cbn zeta.
  set (w0 := set_heap (heap w ++ [os_environ w]) w).
  assert (Hinit : forall k : manager -> W unit,
            (__init__ ≫= k) w =
            match load_config w0 with
            | (Return j, w1) =>
                match discover_services w1 with
                | (Return l, w2) => k (Manager (Cell (length (heap w))) j l None) w2
                | (Exit c, w2) => (Exit c, w2)
                | (Raise e, w2) => (Raise e, w2)
                end
            | (Exit c, w1) => (Exit c, w1)
            | (Raise e, w1) => (Raise e, w1)
            end).
  { intros k. unfold __init__, dict_copy. rewrite !bind_eq. cbn [deref]. fold w0.
    destruct (load_config w0) as [[j | c | e] w1]; try reflexivity.
    rewrite !bind_eq.
    destruct (discover_services w1) as [[l | c | e] w2]; reflexivity. }
  assert (Hinit' : __init__ w =
            match load_config w0 with
            | (Return j, w1) =>
                match discover_services w1 with
                | (Return l, w2) =>
                    (Return (Manager (Cell (length (heap w))) j l None), w2)
                | (Exit c, w2) => (Exit c, w2)
                | (Raise e, w2) => (Raise e, w2)
                end
            | (Exit c, w1) => (Exit c, w1)
            | (Raise e, w1) => (Raise e, w1)
            end).
  { unfold __init__, dict_copy. rewrite !bind_eq. cbn [deref]. fold w0.
    destruct (load_config w0) as [[j | c | e] w1]; try reflexivity.
    all: rewrite !bind_eq.
    all: destruct (discover_services w1) as [[l | c | e] w2]; reflexivity. }
  unfold program. rewrite Hinit, Hinit'. rewrite load_config_eq. cbn zeta.
  change (fs w0) with (fs w). change (CONFIG_FILE w0) with (CONFIG_FILE w).
  change (config_load w0) with (config_load w). change (trace w0) with (trace w).
  split; [| split].
  - intros Hnone. rewrite Hnone. split; [reflexivity |].
    apply new_events_app. cbn. rewrite <- app_assoc. reflexivity.
  - intros e [nd Hnd] He Hexc. rewrite Hnd, He, Hexc. split; [reflexivity |].
    apply new_events_app. cbn. rewrite <- app_assoc. reflexivity.
  - intros j [nd Hnd] Hj. rewrite Hnd, Hj.
    set (w1 := set_trace (trace w ++ [Probe (CONFIG_FILE w)]) w0).
    unfold discover_services. rewrite !bind_eq. cbn [gets].
    destruct (discover_loop_pure (listing w1) [] w1) as [l Hl]. rewrite Hl.
    exists l.
    destruct (main_first_event (Manager (Cell (length (heap w))) j l None) w1)
      as [evs Hevs].
    exists evs. split; [reflexivity |]. split; [reflexivity |].
    apply new_events_app. rewrite Hevs. cbn. rewrite <- app_assoc. reflexivity.
Qed.

(** ** A complete run *)

(** On a machine where every tool works, with the example configuration:
    the program returns (the tunnel is ended by an interrupt), all eight
    steps begin in order, the services found are backend and ui, the image
    builds see the bridged engine address while the host environment does
    not have it, and the last launch is the port-forward of the example. *)
Example end_to_end_run :
  let w := working_machine example_config in
  let r := program w in
  let evs := new_events w r.2 in
  r.1 = Return tt /\
  steps_begun (project_root w) evs = pipeline /\
  launched_cmds evs =
    [CmdList ["kubectl"; "delete"; "deployments,services,ingress,configmaps"; "--all"];
     CmdList ["kubectl"; "delete"; "namespace"; "app"];
     minikube_status; minikube_ip_query; docker_env_cmd;
     CmdList ["docker"; "build"; "-t"; "backend-service:latest"; "./backend"];
     CmdList ["docker"; "build"; "-t"; "ui-service:latest"; "./ui"];
     CmdList ["terraform"; "init"];
     CmdList ["terraform"; "apply"; "-auto-approve"];
     get_pods; example_port_forward] /\
  Forall (fun e =>
            match e with
            | Exec (CmdList ("docker" :: _)) _ _ child_env _ =>
                child_env !! "DOCKER_HOST" = Some "tcp://1.2.3.4:2376"
            | _ => True
            end) evs /\
  os_environ r.2 !! "DOCKER_HOST" = None /\
  last evs = Some (Log Info (newline +:+ "Goodbye!")).
Proof. vm_compute. repeat split; try reflexivity. repeat constructor. Qed.

(** Were [self.env] the dictionary [os.environ] itself instead of a copy,
    the bridge would write into the host environment. *)
Example without_the_copy_the_host_environment_changes :
  let w := export_world typical_export in
  os_environ w !! "DOCKER_HOST" = None /\
  os_environ (set_docker_env (Manager Environ JNull [] None) w).2 !! "DOCKER_HOST" =
    Some "tcp://1.2.3.4:2376".
Proof. vm_compute. split; reflexivity. Qed.

(** ** The remaining methods *)

(** *** CommandRunner: every way a command can end *)

Lemma run_cmd_eq self cmd shell capture cwd_override ignore_errors w :
  run_cmd self cmd shell capture cwd_override ignore_errors w =
  let w1 := set_trace (trace w ++ run_events self w cmd shell cwd_override)
                      (set_launched (S (launched w)) w) in
  match oracle w (launched w) cmd (deref (env self) w) with
  | Completed rc out err =>
      if (rc =? 0)%N then (Return (if capture then PyStr.strip out else ""), w1)
      else if ignore_errors then (Return "", w1)
      else (Exit 1,
            set_trace (trace w1 ++
                       Log Error ("Command failed: " +:+ cmd_str cmd) ::
                       (if capture && negb (String.eqb err "") then [Print err] else []))
                      w1)
  | SpawnError msg => (Raise (OSError msg), w1)
  | Interrupted => (Raise KeyboardInterrupt, w1)
  end.
Proof.
  destruct (oracle w (launched w) cmd (deref (env self) w)) as [rc out err | msg |] eqn:Ho.
  - rewrite (run_cmd_completed _ _ _ _ _ _ _ _ _ _ Ho). reflexivity.
  - unfold run_cmd, run_events. step_W. rewrite Ho. cbn. norm_world. reflexivity.
  - unfold run_cmd, run_events. step_W. rewrite Ho. cbn. norm_world. reflexivity.
Qed.

Lemma launched_cmds_app evs1 evs2 :
  launched_cmds (evs1 ++ evs2) = launched_cmds evs1 ++ launched_cmds evs2.
Proof. unfold launched_cmds. apply omap_app. Qed.

Lemma launched_cmds_quiet evs :
  Forall (fun e => is_exec e = false) evs -> launched_cmds evs = [].
Proof.
  induction 1 as [| e evs He _ IH]; [reflexivity |].
  destruct e; cbn in *; try discriminate; exact IH.
Qed.

(** What [run_cmd] does to the world, whatever the command does. *)
Lemma run_cmd_effects self cmd shell capture cwd_override ignore_errors w :
  let r := run_cmd self cmd shell capture cwd_override ignore_errors w in
  exists rest,
    trace r.2 = trace w ++ run_events self w cmd shell cwd_override ++ rest /\
    Forall (fun e => is_exec e = false) rest /\
    launched r.2 = S (launched w) /\
    heap r.2 = heap w /\ os_environ r.2 = os_environ w /\ fs r.2 = fs w /\
    project_root r.2 = project_root w /\ oracle r.2 = oracle w.
Proof.
  cbn zeta. rewrite run_cmd_eq. cbn zeta.
  destruct (oracle w (launched w) cmd (deref (env self) w)) as [rc out err | msg |].
  - destruct (rc =? 0)%N; [| destruct ignore_errors].
    + exists []. rewrite app_nil_r. cbn. auto 10.
    + exists []. rewrite app_nil_r. cbn. auto 10.
    + eexists. cbn. rewrite <- app_assoc. split; [reflexivity |].
      split; [| auto 10].
      destruct (capture && negb (String.eqb err "")); repeat constructor.
  - exists []. rewrite app_nil_r. cbn. auto 10.
  - exists []. rewrite app_nil_r. cbn. auto 10.
Qed.

(** X2 (CommandRunner).  Whatever the command does, a call of [run_cmd]
    launches exactly one child: the given command, with the pipeline's map
    as its environment, in the override directory or, without one (or with
    an empty one), in the project root.  The launch is announced by a debug
    line; nothing is launched after it; the dictionaries and the file
    system are left as they were. *)
Theorem run_cmd_launches_one_child self cmd shell capture cwd_override ignore_errors w :
  let r := run_cmd self cmd shell capture cwd_override ignore_errors w in
  launched r.2 = S (launched w) /\
  launched_cmds (new_events w r.2) = [cmd] /\
  (exists rest,
     new_events w r.2 =
       Log Debug ("Exec: " +:+ cmd_str cmd) ::
       Exec cmd shell true (deref (env self) w)
            (Some match cwd_override with
                  | Some d => if String.eqb d "" then PROJECT_ROOT w else d
                  | None => PROJECT_ROOT w
                  end) :: rest) /\
  heap r.2 = heap w /\ os_environ r.2 = os_environ w /\ fs r.2 = fs w.
Proof.
  cbn zeta.
  destruct (run_cmd_effects self cmd shell capture cwd_override ignore_errors w)
    as (rest & Ht & Hrest & Hl & Hh & He & Hf & _).
  rewrite (new_events_app _ _ _ Ht).
  split; [exact Hl |]. split; [| split; [exists rest; reflexivity | auto]].
  rewrite launched_cmds_app, (launched_cmds_quiet rest Hrest). reflexivity.
Qed.

(** X3 (CommandRunner).  [ignore_errors] covers a non-zero exit status and
    nothing else: when the command cannot be started, the [OSError] of the
    launch leaves [run_cmd] whatever the flag says, without an error line
    and without [sys.exit]. *)
Theorem run_cmd_spawn_failure_is_never_ignored
    self cmd shell capture cwd_override ignore_errors w msg :
  oracle w (launched w) cmd (deref (env self) w) = SpawnError msg ->
  let r := run_cmd self cmd shell capture cwd_override ignore_errors w in
  r.1 = Raise (OSError msg) /\
  new_events w r.2 = run_events self w cmd shell cwd_override /\
  List.filter is_error_line (new_events w r.2) = [].
Proof.
  intros Ho r. subst r. rewrite run_cmd_eq, Ho. cbn zeta.
  split; [reflexivity |].
  erewrite new_events_app by (cbn; reflexivity).
  split; reflexivity.
Qed.

Lemma run_cmd_spawn_failure_is_never_ignored_witness :
  oracle toolless_world 0 delete_all (deref (env plain_manager) toolless_world) =
    SpawnError "[Errno 2] No such file or directory" /\
  (run_cmd plain_manager delete_all false true None true toolless_world).1 =
    Raise (OSError "[Errno 2] No such file or directory").
Proof.
  split; [reflexivity |].
  apply (run_cmd_spawn_failure_is_never_ignored plain_manager delete_all false true None
           true toolless_world "[Errno 2] No such file or directory").
  reflexivity.
Defined.

(** *** ServiceDiscovery: [discover_services] *)

Lemma discover_loop_filter names : forall acc w,
  discover_loop names acc w = (Return (acc ++ List.filter (is_service w) names), w).
Proof.
  induction names as [| name names IH]; intros acc w.
  - cbn. rewrite app_nil_r. reflexivity.
  - cbn [discover_loop List.filter]. unfold os_path_isdir, os_path_isfile, is_service.
    step_W.
    destruct (fs w !! path_join (PROJECT_ROOT w) name) as [[] |]; cbn;
      [apply IH | | apply IH].
    destruct (fs w !! path_join (path_join (PROJECT_ROOT w) name) "Dockerfile")
      as [[] |]; cbn; rewrite IH, <- ?app_assoc; reflexivity.
Qed.

(** X1 (ServiceList).  [discover_services] returns the entries of the
    project root that are directories holding a regular file named
    Dockerfile, in the order of the listing, and changes nothing: a name is
    in the result exactly when it is such an entry, and as often as the
    listing has it, hence once when the listing has no duplicates. *)
Theorem discover_services_lists_service_directories w :
  let r := discover_services w in
  r = (Return (List.filter (is_service w) (listing w)), w) /\
  (forall name services,
     r.1 = Return services ->
     (In name services <-> In name (listing w) /\ is_service w name = true)) /\
  (forall services,
     r.1 = Return services -> List.NoDup (listing w) -> List.NoDup services).
Proof.
  cbn zeta. unfold discover_services. rewrite bind_eq. cbn [gets].
  rewrite discover_loop_filter. cbn [app].
  split; [reflexivity |]. split.
  - intros name services [= <-]. rewrite filter_In. reflexivity.
  - intros services [= <-] Hnd. apply List.NoDup_filter, Hnd.
Qed.

(** *** Sequencing, once more *)

Lemma emit_then {B} (e : event) (k : W B) (w : world) :
  (emit e ;; k) w = k (set_trace (trace w ++ [e]) w).
Proof. reflexivity. Qed.

Lemma gets_then {A B} (f : world -> A) (k : A -> W B) (w : world) :
  (gets f ≫= k) w = k (f w) w.
Proof. reflexivity. Qed.

Lemma lift_then {A B} (x : exn + A) (k : A -> W B) (w : world) :
  (lift x ≫= k) w =
  match x with
  | inl e => (Raise e, w)
  | inr a => k a w
  end.
Proof. destruct x; reflexivity. Qed.

(** Runs the log lines and the reads of the world at the head of a
    computation. *)
Ltac run_head :=
  unfold Logger_header, Logger_info, Logger_warning, Logger_error, Logger_success,
    Logger_debug, print, time_sleep;
  rewrite ?emit_then, ?gets_then.

Lemma for_each_app_returns {A} (pre rest : list A) (body : A -> W unit) : forall w,
  (for_each pre body w).1 = Return tt ->
  for_each (pre ++ rest) body w = for_each rest body (for_each pre body w).2.
Proof.
  induction pre as [| x pre IH]; intros w Hret.
  - reflexivity.
  - cbn [app]. rewrite !for_each_cons. rewrite for_each_cons in Hret.
    destruct (body x w) as [[[] | c | e] w']; cbn in *; try discriminate.
    apply IH, Hret.
Qed.

Lemma run_events_later self t n w cmd shell cwd :
  run_events self (set_trace t (set_launched n w)) cmd shell cwd =
  run_events self w cmd shell cwd.
Proof. unfold run_events. rewrite deref_set_trace, deref_set_launched. reflexivity. Qed.

Lemma run_events_noted self t w cmd shell cwd :
  run_events self (set_trace t w) cmd shell cwd = run_events self w cmd shell cwd.
Proof. unfold run_events. rewrite deref_set_trace. reflexivity. Qed.

(** Reads the oracle, the counter and the map through the updates of the
    trace and of the counter. *)
Ltac settle :=
  repeat (progress (cbn [oracle launched trace project_root set_trace set_launched];
                    rewrite ?run_events_later, ?run_events_noted,
                      ?deref_set_trace, ?deref_set_launched)).

(** *** DeploymentApplier: [deploy_k8s] *)

Lemma append_nonempty (a b : string) : String.eqb b "" = false -> String.eqb (a +:+ b) "" = false.
Proof. intros Hb. destruct a; [exact Hb | reflexivity]. Qed.

Lemma terraform_dir_nonempty w : String.eqb (TERRAFORM_DIR w) "" = false.
Proof.
  unfold TERRAFORM_DIR. generalize (path_join (PROJECT_ROOT w) "terraform"). intros a.
  unfold path_join. change (PyStr.startswith "local" "/") with false. cbv iota.
  destruct (_ || _); repeat apply append_nonempty; reflexivity.
Qed.

Lemma deploy_k8s_eq self w :
  deploy_k8s self w =
  let E := deref (env self) w in
  let hdr := Log Header "Step 5: Deploying via Terraform" in
  let init_events := run_events self w terraform_init false (Some (TERRAFORM_DIR w)) in
  let apply_events := run_events self w terraform_apply false (Some (TERRAFORM_DIR w)) in
  let stop (o : outcome unit) (n : nat) (evs : list event) :=
    (o, set_trace (trace w ++ hdr :: evs) (set_launched n w)) in
  match oracle w (launched w) terraform_init E with
  | Completed rc _ _ =>
      if (rc =? 0)%N then
        match oracle w (S (launched w)) terraform_apply E with
        | Completed rc' _ _ =>
            if (rc' =? 0)%N
            then stop (Return tt) (S (S (launched w)))
                      (init_events ++ apply_events ++
                       [Log Success "Terraform apply completed."])
            else stop (Exit 1) (S (S (launched w)))
                      (init_events ++ apply_events ++
                       [Log Error ("Command failed: " +:+ cmd_str terraform_apply)])
        | SpawnError msg =>
            stop (Raise (OSError msg)) (S (S (launched w))) (init_events ++ apply_events)
        | Interrupted =>
            stop (Raise KeyboardInterrupt) (S (S (launched w)))
                 (init_events ++ apply_events)
        end
      else stop (Exit 1) (S (launched w))
                (init_events ++ [Log Error ("Command failed: " +:+ cmd_str terraform_init)])
  | SpawnError msg => stop (Raise (OSError msg)) (S (launched w)) init_events
  | Interrupted => stop (Raise KeyboardInterrupt) (S (launched w)) init_events
  end.
Proof.
  cbn zeta. unfold deploy_k8s. run_head. rewrite bind_eq, run_cmd_eq. cbn zeta.
  settle. change (TERRAFORM_DIR (set_trace _ w)) with (TERRAFORM_DIR w).
  fold terraform_init terraform_apply.
  destruct (oracle w (launched w) terraform_init (deref (env self) w))
    as [rc out err | msg |]; [| norm_world; reflexivity | norm_world; reflexivity].
  destruct (rc =? 0)%N; [| norm_world; reflexivity].
  rewrite bind_eq, run_cmd_eq. cbn zeta. settle.
  destruct (oracle w (S (launched w)) terraform_apply (deref (env self) w))
    as [rc' out' err' | msg' |]; [| norm_world; reflexivity | norm_world; reflexivity].
  destruct (rc' =? 0)%N; run_head; unfold emit, run_events; norm_world; reflexivity.
Qed.

(** Splits a statement about the answers of the commands into its cases
    and closes those that are settled by the shape of the answers. *)
Ltac answer_facts :=
  repeat first
    [ progress intros
    | match goal with
      | |- _ /\ _ => split
      | |- _ <-> _ => split
      | H : _ \/ _ |- _ => destruct H
      | H : False |- _ => destruct H
      | H : exists _, _ |- _ => destruct H
      | H : _ /\ _ |- _ => destruct H
      end ];
  try discriminate; try congruence; try tauto;
  try (do 2 eexists; reflexivity);
  try (eexists; reflexivity);
  try (repeat constructor; fail).

(** X7 (DeploymentApplier).  The deploy step launches [terraform init]
    and then, only if that exited with status 0, [terraform apply
    -auto-approve]; it returns exactly when both exited with status 0, and
    a non-zero status of either ends the process with code 1.  Both
    commands run in the Terraform directory with the pipeline's map, and
    their output is not captured: nothing is printed by the step itself. *)
Theorem deploy_k8s_applies_only_after_init self w :
  let r := deploy_k8s self w in
  let E := deref (env self) w in
  let cmds := launched_cmds (new_events w r.2) in
  let init := oracle w (launched w) terraform_init E in
  let apply := oracle w (S (launched w)) terraform_apply E in
  cmds `prefix_of` [terraform_init; terraform_apply] /\
  In terraform_init cmds /\
  (In terraform_apply cmds <-> exists out err, init = Completed 0 out err) /\
  (r.1 = Return tt <->
   (exists out err, init = Completed 0 out err) /\
   (exists out err, apply = Completed 0 out err)) /\
  (forall rc out err, init = Completed rc out err -> rc <> 0%N -> r.1 = Exit 1) /\
  (forall rc out err,
     In terraform_apply cmds -> apply = Completed rc out err -> rc <> 0%N ->
     r.1 = Exit 1) /\
  Forall (deploy_event_ok w) (new_events w r.2).
Proof.
  cbn zeta. rewrite deploy_k8s_eq. cbn zeta.
  unfold run_events, cwd_or. rewrite terraform_dir_nonempty.
  destruct (oracle w (launched w) terraform_init (deref (env self) w))
    as [[| p] out err | msg |] eqn:Hinit; cbn [N.eqb].
  1: destruct (oracle w (S (launched w)) terraform_apply (deref (env self) w))
       as [[| p'] out' err' | msg' |] eqn:Happly; cbn [N.eqb].
  all: (erewrite new_events_app by (cbn; reflexivity)); cbn.
  all: unfold terraform_init, terraform_apply in *.
  all: answer_facts.
Qed.

(** *** ResourceReaper: [cleanup_resources] *)

Lemma ingress_setting_eq self key w :
  ingress_setting self key w = lift (ingress_value (config self) key) w.
Proof.
  unfold ingress_setting, ingress_value.
  destruct (subscript (config self) "ingress"); reflexivity.
Qed.

Lemma subscript_error j k e : subscript j k = inl e -> is_lookup_error e = true.
Proof.
  unfold subscript. destruct j; try (intros [= <-]; reflexivity).
  destruct (assoc k kv); intros [= <-]. reflexivity.
Qed.

Lemma ingress_value_error cfg key e :
  ingress_value cfg key = inl e -> is_lookup_error e = true.
Proof.
  unfold ingress_value. destruct (subscript cfg "ingress") as [e' | ing] eqn:Hing.
  - intros [= <-]. apply (subscript_error _ _ _ Hing).
  - apply subscript_error.
Qed.

Lemma namespace_of_error cfg e : namespace_of cfg = inl e -> is_lookup_error e = true.
Proof.
  unfold namespace_of. destruct (ingress_value cfg "namespace") as [e' | v] eqn:Hv.
  - intros [= <-]. apply (ingress_value_error _ _ _ Hv).
  - destruct v; intros [= <-]; reflexivity.
Qed.

(** The setting and its conversion to an argument, in one step. *)
Lemma namespace_argument self {B} (k : string -> W B) w :
  (namespace ← ingress_setting self "namespace";
   namespace ← as_argument namespace;
   k namespace) w =
  match namespace_of (config self) with
  | inl e => (Raise e, w)
  | inr ns => k ns w
  end.
Proof.
  rewrite bind_eq, ingress_setting_eq. unfold namespace_of.
  destruct (ingress_value (config self) "namespace") as [e | v]; [reflexivity |].
  destruct v; reflexivity.
Qed.

(** With [ignore_errors], a command that ran to its end never stops the
    caller. *)
Lemma run_cmd_ignoring self cmd shell capture cwd_override w rc out err :
  oracle w (launched w) cmd (deref (env self) w) = Completed rc out err ->
  exists s,
    run_cmd self cmd shell capture cwd_override true w =
    (Return s, set_trace (trace w ++ run_events self w cmd shell cwd_override)
                         (set_launched (S (launched w)) w)).
Proof.
  intros Ho. rewrite run_cmd_eq, Ho. cbn zeta.
  destruct (rc =? 0)%N; eexists; reflexivity.
Qed.

(** X4 (ResourceReaper).  The reap step is best effort with respect to
    the exit status of its two deletions: when both commands run to their
    end, whatever their exit status, the step returns, having launched
    the deletion of all objects and then the deletion of the configured
    namespace, paused for 5 seconds, and logged no error. *)
Theorem cleanup_resources_is_best_effort self w ns rc1 out1 err1 rc2 out2 err2 :
  namespace_of (config self) = inr ns ->
  oracle w (launched w) delete_all (deref (env self) w) = Completed rc1 out1 err1 ->
  oracle w (S (launched w)) (delete_namespace ns) (deref (env self) w) =
    Completed rc2 out2 err2 ->
  let r := cleanup_resources self w in
  r.1 = Return tt /\
  launched r.2 = S (S (launched w)) /\
  new_events w r.2 =
    [Log Header "Step 0: Cleaning Up Old Resources";
     Log Info "Force deleting all deployments, services, and ingress..."]
    ++ run_events self w delete_all false None
    ++ run_events self w (delete_namespace ns) false None
    ++ [Log Info "Waiting 5 seconds for resources to terminate...";
        Sleep 5;
        Log Success "Cleanup complete."] /\
  List.filter is_error_line (new_events w r.2) = [].
Proof.
  intros Hns Ho1 Ho2 r. subst r. unfold cleanup_resources. run_head.
  fold delete_all.
  set (w0 := set_trace _ (set_trace _ w)).
  assert (Ho1' : oracle w0 (launched w0) delete_all (deref (env self) w0) =
                 Completed rc1 out1 err1).
  { unfold w0. settle. exact Ho1. }
  destruct (run_cmd_ignoring self delete_all false true None w0 _ _ _ Ho1') as [s1 H1].
  rewrite bind_eq, H1. cbv iota beta.
  rewrite namespace_argument, Hns. fold (delete_namespace ns).
  set (w1 := set_trace _ (set_launched _ w0)).
  assert (Ho2' : oracle w1 (launched w1) (delete_namespace ns) (deref (env self) w1) =
                 Completed rc2 out2 err2).
  { unfold w1, w0. settle. exact Ho2. }
  destruct (run_cmd_ignoring self (delete_namespace ns) false true None w1 _ _ _ Ho2')
    as [s2 H2].
  rewrite bind_eq, H2. cbv iota beta. run_head. unfold emit, w1, w0. settle.
  cbn [fst snd].
  split; [reflexivity |]. split; [reflexivity |].
  erewrite new_events_app by (cbn; rewrite <- ?app_assoc; reflexivity).
  split; reflexivity.
Qed.

Lemma cleanup_resources_is_best_effort_witness :
  namespace_of (config example_manager) = inr "app" /\
  (cleanup_resources example_manager failing_world).1 = Return tt.
Proof.
  split; [reflexivity |].
  apply (cleanup_resources_is_best_effort example_manager failing_world "app"
           2%N "" "boom" 2%N "" "boom"); reflexivity.
Defined.

(** X5 (ResourceReaper).  The namespace is read from the configuration
    between the two deletions: when the setting is missing, or is not a
    string, the first deletion has been launched by the time the lookup
    fails; the exception is not covered by [ignore_errors], so it leaves
    the step, and neither the second deletion nor the pause happens. *)
Theorem cleanup_resources_reads_namespace_late self w e rc out err :
  namespace_of (config self) = inl e ->
  oracle w (launched w) delete_all (deref (env self) w) = Completed rc out err ->
  let r := cleanup_resources self w in
  r.1 = Raise e /\
  is_lookup_error e = true /\
  launched_cmds (new_events w r.2) = [delete_all] /\
  ~ In (Sleep 5) (new_events w r.2).
Proof.
  intros Hns Ho r. subst r. unfold cleanup_resources. run_head.
  fold delete_all.
  set (w0 := set_trace _ (set_trace _ w)).
  assert (Ho' : oracle w0 (launched w0) delete_all (deref (env self) w0) =
                Completed rc out err).
  { unfold w0. settle. exact Ho. }
  destruct (run_cmd_ignoring self delete_all false true None w0 _ _ _ Ho') as [s1 H1].
  rewrite bind_eq, H1. cbv iota beta.
  rewrite namespace_argument, Hns. cbn [fst snd].
  split; [reflexivity |]. split; [exact (namespace_of_error _ _ Hns) |].
  erewrite new_events_app by (unfold w0; cbn; rewrite <- ?app_assoc; reflexivity).
  split; [reflexivity |].
  cbn. intros H. repeat destruct H as [H | H]; try discriminate H. exact H.
Qed.

Lemma cleanup_resources_reads_namespace_late_witness :
  namespace_of (config plain_manager) = inl TypeError /\
  (cleanup_resources plain_manager failing_world).1 = Raise TypeError.
Proof.
  split; [reflexivity |].
  apply (cleanup_resources_reads_namespace_late plain_manager failing_world TypeError
           2%N "" "boom"); reflexivity.
Defined.

(** *** ImageBuilder: [build_images] *)

Lemma build_images_unfold self :
  build_images self =
  (Logger_header "Step 4: Building Service Images" ;;
   for_each (services self) (build_one self) ;;
   Logger_success "Images built.").
Proof. reflexivity. Qed.

Lemma build_one_eq self service w :
  build_one self service w =
  let w1 := set_trace (trace w ++ build_events self w service)
                      (set_launched (S (launched w)) w) in
  match build_answer self w 0 service with
  | Completed rc _ err =>
      if (rc =? 0)%N then (Return tt, w1)
      else (Exit 1,
            set_trace (trace w1 ++
                       Log Error ("Command failed: " +:+ cmd_str (build_cmd service)) ::
                       (if negb (String.eqb err "") then [Print err] else []))
                      w1)
  | SpawnError msg => (Raise (OSError msg), w1)
  | Interrupted => (Raise KeyboardInterrupt, w1)
  end.
Proof.
  cbn zeta. unfold build_one, build_answer, build_events. run_head.
  rewrite Nat.add_0_r, bind_eq, run_cmd_eq. cbn zeta. settle.
  destruct (oracle w (launched w) (build_cmd service) (deref (env self) w))
    as [rc out err | msg |]; [| norm_world; reflexivity | norm_world; reflexivity].
  destruct (rc =? 0)%N; [norm_world; reflexivity |].
  cbn [andb]. norm_world. reflexivity.
Qed.

Lemma build_events_later self t n w service :
  build_events self (set_trace t (set_launched n w)) service = build_events self w service.
Proof. unfold build_events. rewrite run_events_later. reflexivity. Qed.

Lemma build_answer_later self t w i service :
  build_answer self (set_trace t (set_launched (S (launched w)) w)) i service =
  build_answer self w (S i) service.
Proof.
  unfold build_answer. settle. rewrite Nat.add_succ_r. reflexivity.
Qed.

(** Builds that all succeed: one after the other, in the order of the
    list. *)
Lemma build_loop_succeeds self l : forall w,
  (forall i s, l !! i = Some s ->
     exists out err, build_answer self w i s = Completed 0 out err) ->
  for_each l (build_one self) w =
  (Return tt,
   set_trace (trace w ++ concat (map (build_events self w) l))
             (set_launched (launched w + length l) w)).
Proof.
  induction l as [| s l IH]; intros w Hall.
  - cbn. rewrite Nat.add_0_r, app_nil_r. destruct w; reflexivity.
  - rewrite for_each_cons, build_one_eq. cbn zeta.
    destruct (Hall 0 s eq_refl) as (out & err & ->). cbn [N.eqb]. cbv iota.
    rewrite IH.
    + cbn [map concat length].
      rewrite (map_ext (build_events self _) (build_events self w))
        by (intros x; apply build_events_later).
      f_equal. norm_world. rewrite Nat.add_succ_r. reflexivity.
    + intros i s' Hi. rewrite build_answer_later. apply (Hall (S i) s' Hi).
Qed.

Lemma launched_cmds_builds self w l :
  launched_cmds (concat (map (build_events self w) l)) = map build_cmd l.
Proof.
  induction l as [| s l IH]; [reflexivity |].
  cbn [map concat]. rewrite launched_cmds_app, IH. reflexivity.
Qed.

(** X6 (ImageBuilder).  The build step builds the services one after
    the other in the order of the service list, each with the tag
    [<service>-service:latest] and the context [./<service>], and stops at
    the first build that exits non-zero: if the builds of the first [k]
    services succeed and the next one fails, the process exits with code 1
    and the services after it are never built; if all succeed, the step
    returns after one build per service. *)
Theorem build_images_stops_at_first_failure self w k :
  k <= length (services self) ->
  (forall i s, i < k -> services self !! i = Some s ->
     exists out err, build_answer self w i s = Completed 0 out err) ->
  (forall s, services self !! k = Some s ->
     exists rc out err, build_answer self w k s = Completed rc out err /\ rc <> 0%N) ->
  let r := build_images self w in
  r.1 = (if (k <? length (services self))%nat then Exit 1 else Return tt) /\
  launched_cmds (new_events w r.2) = map build_cmd (take (S k) (services self)) /\
  launched r.2 = launched w + length (take (S k) (services self)).
Proof.
  intros Hk Hok Hfail r.
  assert (Hrun : exists evs,
            build_images self w =
            (if (k <? length (services self))%nat then Exit 1 else Return tt,
             set_trace (trace w ++ evs)
                       (set_launched (launched w + length (take (S k) (services self))) w)) /\
            launched_cmds evs = map build_cmd (take (S k) (services self))).
  { rewrite build_images_unfold. run_head.
    set (wh := set_trace _ w).
    assert (Hans : forall i s, build_answer self wh i s = build_answer self w i s).
    { intros i s. unfold build_answer, wh. settle. reflexivity. }
    assert (Hev : forall s, build_events self wh s = build_events self w s).
    { intros s. unfold build_events, wh. settle. reflexivity. }
    assert (Hpre : for_each (take k (services self)) (build_one self) wh =
                   (Return tt,
                    set_trace (trace wh ++ concat (map (build_events self w)
                                                       (take k (services self))))
                              (set_launched (launched wh + k) wh))).
    { rewrite build_loop_succeeds.
      - rewrite (map_ext _ _ Hev). rewrite length_take, Nat.min_l by exact Hk.
        reflexivity.
      - intros i s Hi. rewrite Hans.
        apply lookup_take_Some in Hi as [Hi Hlt]. apply (Hok i s Hlt Hi). }
    destruct (Nat.ltb_spec k (length (services self))) as [Hlt | Hge].
    - destruct (lookup_lt_is_Some_2 _ _ Hlt) as [s Hs].
      destruct (Hfail s Hs) as (rc & out & err & Ho & Hrc).
      pose proof (take_drop k (services self)) as Hsplit.
      rewrite (drop_S _ _ _ Hs) in Hsplit.
      rewrite (take_S_r _ _ _ Hs), length_app, length_take, Nat.min_l by exact Hk.
      set (pre := take k (services self)) in *.
      rewrite <- Hsplit, bind_eq.
      rewrite for_each_app_returns by (rewrite Hpre; reflexivity).
      rewrite Hpre. cbn [snd]. rewrite for_each_cons, build_one_eq. cbn zeta.
      rewrite build_events_later, Hev.
      replace (build_answer self _ 0 s) with (build_answer self w k s); cycle 1.
      { unfold build_answer, wh. settle. rewrite Nat.add_0_r. reflexivity. }
      rewrite Ho. destruct (N.eqb_spec rc 0) as [-> | _]; [congruence |].
      eexists. split.
      + unfold wh. f_equal. norm_world. rewrite <- ?app_assoc. cbn.
        rewrite Nat.add_1_r, Nat.add_succ_r. reflexivity.
      + change (?a :: ?l ++ ?m) with ([a] ++ l ++ m).
        rewrite !launched_cmds_app, launched_cmds_builds, map_app.
        destruct (negb (String.eqb err "")); reflexivity.
    - rewrite !firstn_all2 by lia. rewrite firstn_all2 in Hpre by lia.
      rewrite bind_eq, Hpre. cbv iota beta. run_head. unfold emit.
      eexists. split.
      + unfold wh. f_equal. norm_world. rewrite <- ?app_assoc. cbn.
        replace k with (length (services self)) by lia. reflexivity.
      + change (?a :: ?l ++ ?m) with ([a] ++ l ++ m).
        rewrite !launched_cmds_app, launched_cmds_builds. cbn. rewrite app_nil_r.
        reflexivity. }
  destruct Hrun as (evs & Hrun & Hcmds). subst r. rewrite Hrun. cbn [fst snd].
  split; [reflexivity |]. split; [| reflexivity].
  erewrite new_events_app by reflexivity. exact Hcmds.
Qed.

Lemma build_images_stops_at_first_failure_witness :
  (build_images example_manager second_build_fails).1 = Exit 1 /\
  launched_cmds (new_events second_build_fails
                   (build_images example_manager second_build_fails).2) =
    [build_cmd "backend"; build_cmd "ui"].
Proof.
  assert (Hk : 1 <= length (services example_manager)) by (cbn; lia).
  assert (Hok : forall i s, i < 1 -> services example_manager !! i = Some s ->
            exists out err,
              build_answer example_manager second_build_fails i s = Completed 0 out err).
  { intros i s Hi. destruct i; [| lia]. intros [= <-]. exists "", "". reflexivity. }
  assert (Hfail : forall s, services example_manager !! 1 = Some s ->
            exists rc out err,
              build_answer example_manager second_build_fails 1 s = Completed rc out err /\
              rc <> 0%N).
  { intros s [= <-]. exists 1%N, "", "no space left on device".
    split; [reflexivity | discriminate]. }
  destruct (build_images_stops_at_first_failure example_manager second_build_fails 1
              Hk Hok Hfail) as (Hr & Hc & _).
  split; [exact Hr | exact Hc].
Defined.

(** *** TunnelOpener: [open_tunnel] *)




Lemma has_field_value cfg key :
  has_field cfg key = match ingress_value cfg key with inr _ => true | inl _ => false end.
Proof.
  unfold has_field, ingress_value. destruct (subscript cfg "ingress"); reflexivity.
Qed.



(** *** HealthPoller: a status command that fails, and the pauses *)

(** The health check after [k] unhealthy polls: the loop is at its round
    [k]. *)
Lemma wait_for_pods_rounds self w k :
  k <= 40 ->
  (forall i, i < k -> unhealthy_poll self w i) ->
  wait_for_pods self w =
  (returned ← wait_loop self (41 - k) k;
   if (returned : bool) then ret tt
   else Logger_warning "Timed out waiting for pods.")
    (set_trace (trace w ++ Log Header "Step 6: Health Check" ::
                concat (map (round_events self w) (seq 0 k)))
               (set_launched (launched w + k) w)).
Proof.
  intros Hk Hun. unfold wait_for_pods. unfold Logger_header at 1. rewrite emit_then.
  set (wh := set_trace (trace w ++ [Log Header "Step 6: Health Check"]) w).
  assert (Hwh : forall i, poll_answer self wh i = poll_answer self w i).
  { intros i. unfold poll_answer, wh. rewrite deref_set_trace. reflexivity. }
  assert (Hround : forall i, round_events self wh i = round_events self w i).
  { intros i. unfold round_events, poll_events, wh. rewrite deref_set_trace. reflexivity. }
  rewrite !bind_eq.
  replace 41 with (k + (41 - k)) at 1 by lia.
  rewrite (wait_loop_rounds self k (41 - k) 0 wh); [| lia |].
  2: { intros i Hi. unfold unhealthy_poll. rewrite Hwh. apply Hun, Hi. }
  rewrite (map_ext _ _ Hround). cbn [Nat.add].
  replace (set_trace (trace wh ++ concat (map (round_events self w) (seq 0 k)))
                     (set_launched (launched wh + k) wh))
    with (set_trace (trace w ++ Log Header "Step 6: Health Check" ::
                     concat (map (round_events self w) (seq 0 k)))
                    (set_launched (launched w + k) w)).
  - reflexivity.
  - unfold wh. norm_world. reflexivity.
Qed.

(** X10 (HealthPoller).  A timeout of the health check is not fatal, a
    failing status command is: if the first [k] polls are unhealthy and
    the status command of the next poll exits non-zero, the process exits
    with code 1 after [k + 1] polls, with the error line of [run_cmd] and
    without the time-out warning. *)
Theorem wait_for_pods_failed_query_is_fatal self w k rc out err :
  k < 40 ->
  (forall i, i < k -> unhealthy_poll self w i) ->
  poll_answer self w k = Completed rc out err ->
  rc <> 0%N ->
  let r := wait_for_pods self w in
  r.1 = Exit 1 /\
  launched r.2 = launched w + S k /\
  In (Log Error ("Command failed: " +:+ cmd_str get_pods)) (new_events w r.2) /\
  ~ In (Log Warning "Timed out waiting for pods.") (new_events w r.2).
Proof.
  intros Hk Hun Ho Hrc r. subst r.
  rewrite (wait_for_pods_rounds self w k) by (lia || exact Hun).
  replace (41 - k) with (S (40 - k)) by lia.
  rewrite bind_eq, wait_loop_S, (proj2 (Nat.ltb_lt k 40) Hk), bind_eq, run_cmd_eq.
  cbn zeta. settle. fold get_pods. unfold poll_answer in Ho. rewrite Ho.
  destruct (N.eqb_spec rc 0) as [-> | _]; [congruence |].
  cbn [fst snd launched set_trace set_launched].
  split; [reflexivity |]. split; [lia |].
  erewrite new_events_app by (cbn; rewrite <- ?app_assoc; cbn; reflexivity).
  split.
  - apply in_cons, in_or_app. right. right. right. left. reflexivity.
  - intros [H | H]; [discriminate H |].
    apply in_app_or in H as [H | H].
    + apply in_concat in H as (evs & Hevs & Hin).
      apply in_map_iff in Hevs as (i & <- & _).
      unfold round_events, poll_events in Hin.
      destruct (S i mod 5 =? 0)%nat; cbn [app In] in Hin;
        repeat destruct Hin as [Hin | Hin]; try discriminate Hin; exact Hin.
    + unfold run_events in H. cbn in H.
      destruct (negb (String.eqb err "")); cbn in H;
        repeat destruct H as [H | H]; try discriminate H; exact H.
Qed.

Lemma wait_for_pods_failed_query_is_fatal_witness :
  (forall i, i < 2 -> unhealthy_poll plain_manager third_poll_fails i) /\
  poll_answer plain_manager third_poll_fails 2 = Completed 1 "" "connection refused" /\
  (wait_for_pods plain_manager third_poll_fails).1 = Exit 1 /\
  launched (wait_for_pods plain_manager third_poll_fails).2 = 3.
Proof.
  assert (Hun : forall i, i < 2 -> unhealthy_poll plain_manager third_poll_fails i).
  { intros i Hi. exists "backend-7d4 0/1 ContainerCreating", "".
    destruct i as [| [| i]]; [| | lia]; (split; [reflexivity | vm_compute; reflexivity]). }
  split; [exact Hun |]. split; [reflexivity |].
  assert (Hlt : 2 < 40) by lia.
  assert (Hrc : 1%N <> 0%N) by discriminate.
  destruct (wait_for_pods_failed_query_is_fatal plain_manager third_poll_fails 2
              1%N "" "connection refused" Hlt Hun eq_refl Hrc) as (Hr & Hl & _).
  split; [exact Hr | exact Hl].
Defined.

Lemma slept_app evs1 evs2 : slept (evs1 ++ evs2) = slept evs1 + slept evs2.
Proof.
  induction evs1 as [| e evs1 IH]; [reflexivity |].
  destruct e; cbn; rewrite ?IH; lia.
Qed.

Lemma slept_rounds self w k : forall a,
  slept (concat (map (round_events self w) (seq a k))) = 3 * k.
Proof.
  induction k as [| k IH]; intros a; [reflexivity |].
  cbn [seq map concat]. rewrite slept_app, IH.
  unfold round_events, poll_events.
  destruct (S a mod 5 =? 0)%nat; cbn [app slept]; lia.
Qed.

(** Every fifth number: the quotient by 5 grows exactly there. *)
Lemma div5_succ n :
  S n / 5 = n / 5 + (if (S n mod 5 =? 0)%nat then 1 else 0).
Proof.
  pose proof (Nat.div_mod_eq n 5) as Hn.
  pose proof (Nat.mod_upper_bound n 5 ltac:(lia)) as Hr.
  pose proof (Nat.div_mod_eq (S n) 5) as Hs.
  pose proof (Nat.mod_upper_bound (S n) 5 ltac:(lia)) as Hrs.
  destruct (Nat.eqb_spec (S n mod 5) 0) as [H0 | H0]; lia.
Qed.

Lemma poll_events_no_progress self w :
  List.filter is_progress_line (poll_events self w) = [].
Proof. reflexivity. Qed.

Lemma progress_lines_rounds self w k : forall a,
  length (List.filter is_progress_line (concat (map (round_events self w) (seq a k)))) =
  (a + k) / 5 - a / 5.
Proof.
  induction k as [| k IH]; intros a.
  - cbn. rewrite Nat.add_0_r. lia.
  - cbn [seq map concat]. rewrite List.filter_app, length_app, IH.
    replace (a + S k) with (S a + k) by lia.
    pose proof (div5_succ a) as Ha.
    assert (Hmono : S a / 5 <= (S a + k) / 5)
      by (apply Nat.Div0.div_le_mono; lia).
    unfold round_events. rewrite List.filter_app, poll_events_no_progress.
    revert Ha.
    destruct (S a mod 5 =? 0)%nat; cbn [app List.filter is_progress_line length];
      rewrite ?String.eqb_refl; cbn [length]; lia.
Qed.

(** X11 (HealthPoller).  The check pauses 3 seconds after every unhealthy
    poll and at no other time, and logs a progress line after every fifth:
    after [k] unhealthy polls (followed by a healthy one, or [k] = 40) it
    has slept [3 * k] seconds and logged [k / 5] progress lines, which is
    120 seconds and 8 lines when it times out. *)
Theorem wait_for_pods_sleeps_three_seconds_per_round self w k :
  k <= 40 ->
  (forall i, i < k -> unhealthy_poll self w i) ->
  (k < 40 -> healthy_poll self w k) ->
  let evs := new_events w (wait_for_pods self w).2 in
  slept evs = 3 * k /\
  length (List.filter is_progress_line evs) = k / 5 /\
  (k = 40 -> slept evs = 120 /\ length (List.filter is_progress_line evs) = 8).
Proof.
  intros Hk Hun Hhe evs. subst evs.
  rewrite (wait_for_pods_eq self w k Hk Hun Hhe).
  erewrite new_events_app by reflexivity.
  assert (Hs : slept (Log Header "Step 6: Health Check" ::
                      concat (map (round_events self w) (seq 0 k)) ++
                      (if (k <? 40)%nat
                       then poll_events self w ++ [Log Success "All Pods are RUNNING!"]
                       else [Log Warning "Timed out waiting for pods."])) = 3 * k).
  { cbn [slept]. rewrite slept_app, slept_rounds.
    destruct (k <? 40)%nat; cbn; lia. }
  assert (Hp : length (List.filter is_progress_line
                 (Log Header "Step 6: Health Check" ::
                  concat (map (round_events self w) (seq 0 k)) ++
                  (if (k <? 40)%nat
                   then poll_events self w ++ [Log Success "All Pods are RUNNING!"]
                   else [Log Warning "Timed out waiting for pods."]))) = k / 5).
  { cbn [List.filter is_progress_line]. rewrite List.filter_app, length_app.
    rewrite progress_lines_rounds. cbn [Nat.add].
    destruct (k <? 40)%nat; cbn; lia. }
  split; [exact Hs |]. split; [exact Hp |].
  intros ->. rewrite Hs, Hp. split; reflexivity.
Qed.

Lemma wait_for_pods_sleeps_three_seconds_per_round_witness :
  (forall i, i < 40 -> unhealthy_poll plain_manager pending_world i) /\
  slept (new_events pending_world (wait_for_pods plain_manager pending_world).2) = 120.
Proof.
  assert (Hun : forall i, i < 40 -> unhealthy_poll plain_manager pending_world i).
  { intros i _. exists "backend-7d4 0/1 ContainerCreating", "".
    split; [reflexivity | vm_compute; reflexivity]. }
  split; [exact Hun |].
  destruct (wait_for_pods_sleeps_three_seconds_per_round plain_manager pending_world 40
              (le_n 40) Hun (fun H : 40 < 40 => False_ind _ (Nat.lt_irrefl 40 H)))
    as (_ & _ & Hto).
  exact (proj1 (Hto eq_refl)).
Defined.

(** *** ClusterBootstrapper: an interrupt during the bootstrap *)

(** X12 (ClusterBootstrapper).  The two handlers of the bootstrap step
    treat an interrupt differently.  [except Exception] does not cover
    [KeyboardInterrupt]: an interrupt during the status query, or during
    the start command, leaves the step as that exception, with no error
    line and no [sys.exit].  The bare [except] around the address query
    covers it: an interrupt there is swallowed and the step returns with
    the placeholder address. *)
Theorem check_minikube_interrupt_stops_only_the_first_part self w :
  let r := check_minikube self w in
  let evs := new_events w r.2 in
  let cmds := launched_cmds evs in
  let status := oracle w (launched w) minikube_status (os_environ w) in
  let start := oracle w (S (launched w)) minikube_start (os_environ w) in
  let address := oracle w (pred (launched r.2)) minikube_ip_query (os_environ w) in
  (status = Interrupted ->
   r.1 = Raise KeyboardInterrupt /\ cmds = [minikube_status] /\
   List.filter is_error_line evs = []) /\
  (In minikube_start cmds -> start = Interrupted ->
   r.1 = Raise KeyboardInterrupt /\ cmds = [minikube_status; minikube_start] /\
   List.filter is_error_line evs = []) /\
  (In minikube_ip_query cmds -> address = Interrupted ->
   r.1 = Return (set_minikube_ip (Some "<minikube-ip>") self) /\
   List.filter is_error_line evs = []).
Proof.
  cbn zeta. rewrite check_minikube_eq. cbn zeta.
  destruct (oracle w (launched w) minikube_status (os_environ w))
    as [rc out err | msg |] eqn:Hstatus.
  - destruct ((rc =? 0)%N && PyStr.contains "Running" out).
    + destruct (oracle w (S (launched w)) minikube_ip_query (os_environ w))
        as [[| p2] out2 err2 | msg2 |] eqn:Hip;
        (erewrite new_events_app by (cbn; reflexivity));
        cbn; rewrite ?Hip; bootstrap_facts.
    + destruct (oracle w (S (launched w)) minikube_start (os_environ w))
        as [[| p1] out1 err1 | msg1 |] eqn:Hstart; cbn [N.eqb].
      1: destruct (oracle w (S (S (launched w))) minikube_ip_query (os_environ w))
           as [[| p2] out2 err2 | msg2 |] eqn:Hip.
      all: (erewrite new_events_app by (cbn; reflexivity));
        cbn; rewrite ?Hip; bootstrap_facts.
  - erewrite new_events_app by (cbn; reflexivity). cbn. bootstrap_facts.
  - erewrite new_events_app by (cbn; reflexivity). cbn. bootstrap_facts.
Qed.

(** *** LockGuard: what the unlock step leaves alone *)

(** X13 (LockGuard).  The unlock step returns in every world and touches
    the file system at the lock file only: every other path holds
    afterwards what it held before.  Without a lock file the step does
    nothing but look: the probe is its only event.  It launches no command
    and writes to no dictionary. *)
Theorem force_unlock_terraform_touches_only_the_lock_file self w :
  let lf := lock_file_of (project_root w) in
  let r := force_unlock_terraform self w in
  r.1 = Return tt /\
  (forall path, path <> lf -> fs r.2 !! path = fs w !! path) /\
  (fs w !! lf = None -> r.2 = set_trace (trace w ++ [Probe lf]) w) /\
  launched r.2 = launched w /\
  launched_cmds (new_events w r.2) = [] /\
  heap r.2 = heap w /\ os_environ r.2 = os_environ w.
Proof.
  cbn zeta. rewrite force_unlock_terraform_eq. cbn zeta.
  destruct (fs w !! lock_file_of (project_root w)) as [nd |] eqn:Hfs;
    [destruct (remove_error w !! lock_file_of (project_root w)) as [msg |];
     [| destruct nd] |].
  all: (erewrite new_events_app by (cbn; rewrite <- ?app_assoc; reflexivity)).
  all: cbn; repeat split; try reflexivity; try discriminate.
  intros path Hne. apply lookup_delete_ne. congruence.
Qed.

(** *** EnvironmentBridge: reading back a line of the export *)

Lemma chars_app a b : PyStr.chars (a +:+ b) = PyStr.chars a ++ PyStr.chars b.
Proof.
  induction a as [| c a IH]; [reflexivity |].
  change (c :: PyStr.chars (a +:+ b) = c :: (PyStr.chars a ++ PyStr.chars b)).
  f_equal. exact IH.
Qed.

Lemma of_chars_chars s : PyStr.of_chars (PyStr.chars s) = s.
Proof. apply string_of_list_ascii_of_string. Qed.

Lemma drop_while_clear p l : starts_clear p l -> PyStr.drop_while p l = l.
Proof. destruct l as [| c l]; [reflexivity |]. cbn. intros ->. reflexivity. Qed.

(** Trimming leaves a text alone whose two ends are not to be trimmed. *)
Lemma strip_with_clear p s :
  starts_clear p (PyStr.chars s) -> starts_clear p (rev (PyStr.chars s)) ->
  PyStr.strip_with p s = s.
Proof.
  intros H1 H2. unfold PyStr.strip_with.
  rewrite (drop_while_clear p _ H1), (drop_while_clear p _ H2), rev_involutive.
  apply of_chars_chars.
Qed.

Lemma strip_with_lead p c s :
  p c = true -> PyStr.strip_with p (String c s) = PyStr.strip_with p s.
Proof. intros Hc. unfold PyStr.strip_with. cbn. rewrite Hc. reflexivity. Qed.

Lemma chars_quoted v :
  PyStr.chars (quoted v) = ascii_of_nat 34 :: PyStr.chars v ++ [ascii_of_nat 34].
Proof. unfold quoted. rewrite !chars_app. reflexivity. Qed.

Lemma rev_chars_quoted v :
  rev (PyStr.chars (quoted v)) = ascii_of_nat 34 :: rev (PyStr.chars v) ++ [ascii_of_nat 34].
Proof. rewrite chars_quoted. cbn [rev]. rewrite rev_app_distr. reflexivity. Qed.

(** White space around a quoted text goes, the quotes stay. *)
Lemma strip_quoted v : PyStr.strip (quoted v) = quoted v.
Proof.
  apply strip_with_clear.
  - rewrite chars_quoted. reflexivity.
  - rewrite rev_chars_quoted. reflexivity.
Qed.

(** The quotes around a text go; the text stays if it has none at its
    ends. *)
Lemma strip_chars_quoted v :
  unquoted v = true -> PyStr.strip_chars PyStr.dquote (quoted v) = v.
Proof.
  unfold unquoted. intros Hv. apply andb_true_iff in Hv as [Hhead Hlast].
  unfold PyStr.strip_chars. fold is_dquote. unfold PyStr.strip_with.
  rewrite chars_quoted.
  change (PyStr.drop_while is_dquote (ascii_of_nat 34 :: PyStr.chars v ++ [ascii_of_nat 34]))
    with (PyStr.drop_while is_dquote (PyStr.chars v ++ [ascii_of_nat 34])).
  destruct (PyStr.chars v) as [| c l] eqn:Hchars.
  - cbn. rewrite <- (of_chars_chars v), Hchars. reflexivity.
  - cbn [app PyStr.drop_while].
    destruct (is_dquote c); [discriminate Hhead |]. clear Hhead.
    change (c :: l ++ [ascii_of_nat 34]) with ((c :: l) ++ [ascii_of_nat 34]).
    rewrite rev_app_distr.
    change (rev [ascii_of_nat 34] ++ rev (c :: l)) with (ascii_of_nat 34 :: rev (c :: l)).
    change (PyStr.drop_while is_dquote (ascii_of_nat 34 :: rev (c :: l)))
      with (PyStr.drop_while is_dquote (rev (c :: l))).
    rewrite drop_while_clear.
    + rewrite rev_involutive, <- Hchars. apply of_chars_chars.
    + destruct (rev (c :: l)) as [| z m]; [exact I |].
      cbn [starts_clear]. destruct (is_dquote z); [discriminate Hlast | reflexivity].
Qed.

Lemma strip_export_line key v : PyStr.strip (export_line key v) = export_line key v.
Proof.
  apply strip_with_clear.
  - reflexivity.
  - unfold export_line. rewrite !chars_app, !rev_app_distr, rev_chars_quoted.
    reflexivity.
Qed.

(** The loop takes such a line for an assignment to its variable, of its
    value. *)
Lemma export_line_parses key v :
  In key bridged -> unquoted v = true ->
  assigned_key (export_line key v) = Some key /\
  line_value (export_line key v) = Some v.
Proof.
  intros Hkey Hv. unfold assigned_key, assigns, line_value.
  rewrite strip_export_line.
  assert (Hval : PyStr.strip_chars PyStr.dquote (PyStr.strip (" " +:+ quoted v)) = v).
  { change (" " +:+ quoted v) with (String " " (quoted v)).
    unfold PyStr.strip. rewrite strip_with_lead by reflexivity.
    fold (PyStr.strip (quoted v)). rewrite strip_quoted.
    apply strip_chars_quoted, Hv. }
  destruct Hkey as [<- | [<- | [<- | []]]].
  - split; [reflexivity |].
    change (Some (PyStr.strip_chars PyStr.dquote (PyStr.strip (" " +:+ quoted v)))
            = Some v).
    rewrite Hval. reflexivity.
  - split; [reflexivity |].
    change (Some (PyStr.strip_chars PyStr.dquote (PyStr.strip (" " +:+ quoted v)))
            = Some v).
    rewrite Hval. reflexivity.
  - split; [reflexivity |].
    change (Some (PyStr.strip_chars PyStr.dquote (PyStr.strip (" " +:+ quoted v)))
            = Some v).
    rewrite Hval. reflexivity.
Qed.

(** The map after the bridge step, at a variable the export assigns. *)
Lemma set_docker_env_assigns self w key v pre post :
  valid_ref (env self) w ->
  In key bridged -> unquoted v = true ->
  exported_lines w = pre ++ export_line key v :: post ->
  Forall (fun line => malformed line = false) pre ->
  Forall (fun line => assigns key line = false) post ->
  deref (env self) (set_docker_env self w).2 !! key = Some v.
Proof.
  intros Hvalid Hkey Hv Hlines Hpre Hpost.
  destruct (export_line_parses key v Hkey Hv) as [Hk Hval].
  rewrite set_docker_env_deref. set (w1 := set_trace _ _).
  assert (Hv1 : valid_ref (env self) w1) by (destruct (env self); exact Hvalid).
  rewrite Hlines, (bridge_loop_app self pre (export_line key v :: post) w1 Hpre).
  set (w2 := (for_each pre (set_docker_env_line self) w1).2).
  assert (Hv2 : valid_ref (env self) w2) by (apply bridge_loop_valid, Hv1).
  rewrite for_each_cons, set_docker_env_line_eq, Hk, Hval.
  pose proof (deref_setitem_eq (env self) key v w2 Hv2) as Hset.
  destruct (dict_setitem (env self) key v w2) as [[[] | c | e] w3] eqn:Hw3;
    cbn in Hset |- *; try discriminate.
  rewrite (bridge_loop_other self key post w3 Hpost). exact Hset.
Qed.

(** X14 (EnvironmentBridge).  What the export writes, the bridge reads
    back, for each of the three variables: a line [$Env:KEY = "value"],
    whose value has no double quote at either end, is taken as the
    assignment of exactly that value to exactly that variable.  When such a
    line is in the export, no line before it is malformed and no line after
    it assigns the same variable, the pipeline's map holds the value at the
    variable after the step: the last assignment wins. *)
Theorem set_docker_env_reads_back_the_export self w key v :
  valid_ref (env self) w ->
  In key bridged ->
  unquoted v = true ->
  set_docker_env_line self (export_line key v) w = dict_setitem (env self) key v w /\
  (forall pre post,
     exported_lines w = pre ++ export_line key v :: post ->
     Forall (fun line => malformed line = false) pre ->
     Forall (fun line => assigns key line = false) post ->
     deref (env self) (set_docker_env self w).2 !! key = Some v).
Proof.
  intros Hvalid Hkey Hv. split.
  - destruct (export_line_parses key v Hkey Hv) as [Hk Hval].
    rewrite set_docker_env_line_eq, Hk, Hval. reflexivity.
  - intros pre post. apply set_docker_env_assigns; assumption.
Qed.

Lemma set_docker_env_reads_back_the_export_witness :
  valid_ref (env plain_manager) (export_world typical_export) /\
  In "DOCKER_CERT_PATH" bridged /\
  unquoted "C:\Users\dev\.minikube\certs" = true /\
  deref (env plain_manager)
        (set_docker_env plain_manager (export_world typical_export)).2
    !! "DOCKER_CERT_PATH" = Some "C:\Users\dev\.minikube\certs".
Proof.
  assert (Hvalid : valid_ref (env plain_manager) (export_world typical_export))
    by (cbn; lia).
  assert (Hkey : In "DOCKER_CERT_PATH" bridged) by (cbn; auto).
  assert (Hv : unquoted "C:\Users\dev\.minikube\certs" = true) by reflexivity.
  split; [exact Hvalid |]. split; [exact Hkey |]. split; [exact Hv |].
  destruct (set_docker_env_reads_back_the_export plain_manager
              (export_world typical_export) "DOCKER_CERT_PATH"
              "C:\Users\dev\.minikube\certs" Hvalid Hkey Hv) as [_ Hmap].
  apply (Hmap [tls_line; host_line] [active_line]).
  - vm_compute. reflexivity.
  - repeat constructor.
  - repeat constructor.
Defined.

(** *** From the bridge to the builds *)

Lemma build_one_env self service w :
  let r := build_one self service w in
  exists evs,
    trace r.2 = trace w ++ evs /\
    Forall (launched_with (deref (env self) w)) evs /\
    deref (env self) r.2 = deref (env self) w.
Proof.
  cbn zeta. rewrite build_one_eq. cbn zeta. unfold build_events, run_events.
  destruct (build_answer self w 0 service) as [rc out err | msg |].
  1: destruct (rc =? 0)%N; [| destruct (negb (String.eqb err ""))].
  all: eexists; cbn [fst snd trace set_trace]; rewrite <- ?app_assoc.
  all: split; [reflexivity |]; split; [| settle; reflexivity].
  all: repeat constructor.
Qed.

Lemma build_loop_env self l : forall w,
  let r := for_each l (build_one self) w in
  exists evs,
    trace r.2 = trace w ++ evs /\
    Forall (launched_with (deref (env self) w)) evs /\
    deref (env self) r.2 = deref (env self) w.
Proof.
  cbn zeta. induction l as [| s l IH]; intros w.
  - exists []. rewrite app_nil_r. repeat split. constructor.
  - rewrite for_each_cons.
    destruct (build_one_env self s w) as (evs1 & Ht1 & Hf1 & Hd1).
    destruct (build_one self s w) as [[[] | c | e] w1]; cbn [fst snd] in *.
    + destruct (IH w1) as (evs2 & Ht2 & Hf2 & Hd2).
      exists (evs1 ++ evs2). rewrite Ht2, Ht1, app_assoc.
      split; [reflexivity |]. split; [| congruence].
      apply Forall_app. split; [exact Hf1 |]. rewrite <- Hd1. exact Hf2.
    + exists evs1. auto.
    + exists evs1. auto.
Qed.

(** Every launch of the build step hands the child the pipeline's map as
    it is when the step begins. *)
Lemma build_images_env self w :
  Forall (launched_with (deref (env self) w)) (new_events w (build_images self w).2).
Proof.
  rewrite build_images_unfold. run_head. rewrite bind_eq.
  set (wh := set_trace _ w).
  destruct (build_loop_env self (services self) wh) as (evs & Ht & Hf & _).
  assert (Hd : deref (env self) wh = deref (env self) w)
    by (unfold wh; apply deref_set_trace).
  rewrite Hd in Hf.
  destruct (for_each (services self) (build_one self) wh) as [[[] | c | e] w1];
    cbn [fst snd] in *.
  - run_head. unfold emit. cbn [fst snd].
    erewrite new_events_app
      by (cbn [trace set_trace]; rewrite Ht; unfold wh; cbn [trace set_trace];
          rewrite <- !app_assoc; reflexivity).
    constructor; [exact I |]. apply Forall_app. split; [exact Hf |].
    repeat constructor.
  - erewrite new_events_app
      by (rewrite Ht; unfold wh; cbn [trace set_trace];
          rewrite <- !app_assoc; reflexivity).
    constructor; [exact I | exact Hf].
  - erewrite new_events_app
      by (rewrite Ht; unfold wh; cbn [trace set_trace];
          rewrite <- !app_assoc; reflexivity).
    constructor; [exact I | exact Hf].
Qed.

(** X15 (EnvironmentBridge, ImageBuilder).  The builds target the engine
    the bridge found: when the export assigns a value to one of the three
    variables (by a line [$Env:KEY = "value"], as in X14), every command
    the build step launches after the bridge step is launched with the
    pipeline's map and finds that value at that variable in its
    environment. *)
Theorem builds_see_the_bridged_variables self w key v pre post :
  valid_ref (env self) w ->
  In key bridged ->
  unquoted v = true ->
  exported_lines w = pre ++ export_line key v :: post ->
  Forall (fun line => malformed line = false) pre ->
  Forall (fun line => assigns key line = false) post ->
  let w1 := (set_docker_env self w).2 in
  let r := build_images self w1 in
  (set_docker_env self ;; build_images self) w = r /\
  Forall (child_sees key v) (new_events w1 r.2) /\
  Forall (fun e => match e with Exec _ _ own _ _ => own = true | _ => True end)
         (new_events w1 r.2).
Proof.
  intros Hvalid Hkey Hv Hlines Hpre Hpost w1 r. subst r w1.
  split; [apply seq_after_return, set_docker_env_returns |].
  pose proof (set_docker_env_assigns self w key v pre post
                Hvalid Hkey Hv Hlines Hpre Hpost) as Hmap.
  pose proof (build_images_env self (set_docker_env self w).2) as Hall.
  split.
  - eapply Forall_impl; [exact Hall |].
    intros [] He; cbn in *; try exact I. destruct He as [_ ->]. exact Hmap.
  - eapply Forall_impl; [exact Hall |].
    intros [] He; cbn in *; try exact I. exact (proj1 He).
Qed.

Lemma builds_see_the_bridged_variables_witness :
  valid_ref (env example_manager) (export_world typical_export) /\
  exported_lines (export_world typical_export) =
    [tls_line] ++ export_line "DOCKER_HOST" "tcp://1.2.3.4:2376"
    :: [cert_line; active_line] /\
  Forall (child_sees "DOCKER_HOST" "tcp://1.2.3.4:2376")
    (new_events (set_docker_env example_manager (export_world typical_export)).2
       (build_images example_manager
          (set_docker_env example_manager (export_world typical_export)).2).2).
Proof.
  assert (Hvalid : valid_ref (env example_manager) (export_world typical_export))
    by (cbn; lia).
  assert (Hkey : In "DOCKER_HOST" bridged) by (cbn; auto).
  assert (Hv : unquoted "tcp://1.2.3.4:2376" = true) by reflexivity.
  assert (Hlines : exported_lines (export_world typical_export) =
                   [tls_line] ++ export_line "DOCKER_HOST" "tcp://1.2.3.4:2376"
                   :: [cert_line; active_line])
    by (vm_compute; reflexivity).
  assert (Hpre : Forall (fun line => malformed line = false) [tls_line])
    by (repeat constructor).
  assert (Hpost : Forall (fun line => assigns "DOCKER_HOST" line = false)
                         [cert_line; active_line])
    by (repeat constructor).
  split; [exact Hvalid |]. split; [exact Hlines |].
  destruct (builds_see_the_bridged_variables example_manager
              (export_world typical_export) "DOCKER_HOST" "tcp://1.2.3.4:2376"
              [tls_line] [cert_line; active_line]
              Hvalid Hkey Hv Hlines Hpre Hpost) as (_ & Hsee & _).
  exact Hsee.
Defined.

(** *** How the process ends itself *)

Lemma loud_ret {A} (a : A) : loud (mret a : W A).
Proof. intros w. exact I. Qed.

Lemma loud_raise {A} e : loud (raise e : W A).
Proof. intros w. exact I. Qed.

Lemma loud_gets {A} (f : world -> A) : loud (gets f).
Proof. intros w. exact I. Qed.

Lemma loud_lift {A} (x : exn + A) : loud (lift x).
Proof. destruct x; intros w; exact I. Qed.

Lemma loud_emit e : loud (emit e).
Proof. intros w. exact I. Qed.

Lemma loud_launch cmd shell env cwd : loud (launch cmd shell env cwd).
Proof. intros w. exact I. Qed.

Lemma loud_remove_file path : loud (remove_file path).
Proof.
  intros w. unfold remove_file. destruct (remove_error w !! path); [exact I |].
  destruct (fs w !! path) as [[] |]; exact I.
Qed.

Lemma loud_dict_setitem r k v : loud (dict_setitem r k v).
Proof. intros w. exact I. Qed.

Lemma loud_dict_copy r : loud (dict_copy r).
Proof. intros w. exact I. Qed.

Lemma loud_bind {A B} (m : W A) (k : A -> W B) :
  loud m -> (forall a, loud (k a)) -> loud (m ≫= k).
Proof.
  intros Hm Hk w. rewrite bind_eq. specialize (Hm w).
  destruct (m w) as [[a | c | e] w1]; cbn in *; [apply Hk | exact Hm | exact I].
Qed.

Lemma loud_try_except {A} (m : W A) catches h :
  loud m -> (forall e, loud (h e)) -> loud (try_except m catches h).
Proof.
  intros Hm Hh w. unfold try_except. specialize (Hm w).
  destruct (m w) as [[a | c | e] w1]; cbn in *; [exact I | exact Hm |].
  destruct (catches e); [apply Hh | exact I].
Qed.

(** A bare [except] also catches the exit of its body: what leaves the
    statement is what the handler does. *)
Lemma loud_try_except_all {A} (m h : W A) : loud h -> loud (try_except_all m h).
Proof.
  intros Hh w. unfold try_except_all.
  destruct (m w) as [[a | c | e] w1]; cbn; [exact I | apply Hh | apply Hh].
Qed.

Lemma loud_for_each {A} (l : list A) (body : A -> W unit) :
  (forall x, loud (body x)) -> loud (for_each l body).
Proof.
  intros Hb. induction l as [| x l IH]; cbn.
  - apply loud_ret.
  - apply loud_bind; [apply Hb | intros _; exact IH].
Qed.

Lemma last_log_error t msg rest :
  List.filter is_log rest = [] ->
  last (List.filter is_log (t ++ Log Error msg :: rest)) = Some (Log Error msg).
Proof.
  intros Hrest. rewrite List.filter_app. cbn [List.filter is_log]. rewrite Hrest.
  apply last_snoc.
Qed.

(** [Logger.error(msg); sys.exit(1)] *)
Lemma loud_error_exit {A} msg : loud (Logger_error msg ;; sys_exit 1 : W A).
Proof.
  intros w. cbn. split; [reflexivity |]. exists msg. apply last_log_error. reflexivity.
Qed.

Lemma loud_run_cmd self cmd shell capture cwd_override ignore_errors :
  loud (run_cmd self cmd shell capture cwd_override ignore_errors).
Proof.
  intros w. rewrite run_cmd_eq. cbn zeta.
  destruct (oracle w (launched w) cmd (deref (env self) w)) as [rc out err | msg |];
    try exact I.
  destruct (rc =? 0)%N; [exact I |]. destruct ignore_errors; [exact I |].
  cbn [fst snd exit_ok trace set_trace]. split; [reflexivity |].
  eexists. apply last_log_error.
  destruct (capture && negb (String.eqb err "")); reflexivity.
Qed.

(** Decomposes a method along its syntax. *)
Ltac loud_step :=
  first
    [ apply loud_error_exit | apply loud_run_cmd
    | apply loud_ret | apply loud_raise | apply loud_gets | apply loud_lift
    | apply loud_emit | apply loud_launch | apply loud_remove_file
    | apply loud_dict_setitem | apply loud_dict_copy
    | apply loud_bind; [| intros ?]
    | apply loud_try_except; [| intros ?]
    | apply loud_try_except_all
    | apply loud_for_each; intros ?
    | match goal with
      | |- loud (if ?b then _ else _) => destruct b
      | |- loud (match ?x with _ => _ end) => destruct x
      end ].

Ltac loud_method :=
  unfold subprocess_check_output, subprocess_run, os_remove, os_path_exists,
    os_path_isdir, os_path_isfile, Logger_header, Logger_info, Logger_warning,
    Logger_success, Logger_debug, print, time_sleep, dict_get,
    ingress_setting, as_argument, assigned_value, json_load_config;
  repeat loud_step.

Lemma loud_load_config : loud load_config.
Proof. unfold load_config. loud_method. Qed.

Lemma loud_discover_services : loud discover_services.
Proof.
  intros w. unfold discover_services. rewrite gets_then.
  destruct (discover_loop_pure (listing w) [] w) as [l ->]. exact I.
Qed.

Lemma loud_force_unlock_terraform self : loud (force_unlock_terraform self).
Proof. intros w. rewrite force_unlock_terraform_returns. exact I. Qed.

Lemma loud_cleanup_resources self : loud (cleanup_resources self).
Proof. unfold cleanup_resources. loud_method. Qed.

Lemma loud_check_minikube self : loud (check_minikube self).
Proof. unfold check_minikube. loud_method. Qed.

Lemma loud_set_docker_env self : loud (set_docker_env self).
Proof. intros w. rewrite set_docker_env_returns. exact I. Qed.

Lemma loud_build_images self : loud (build_images self).
Proof. unfold build_images. loud_method. Qed.

Lemma loud_deploy_k8s self : loud (deploy_k8s self).
Proof. unfold deploy_k8s. loud_method. Qed.

Lemma loud_wait_loop self fuel : forall retries, loud (wait_loop self fuel retries).
Proof.
  induction fuel as [| fuel IH]; intros retries.
  - apply loud_ret.
  - rewrite wait_loop_S. destruct (retries <? 40)%nat; [| apply loud_ret].
    apply loud_bind; [apply loud_run_cmd | intros output].
    destruct (healthy output); [loud_method |].
    apply loud_bind; [loud_method | intros _].
    apply loud_bind; [loud_method | intros _]. apply IH.
Qed.

Lemma loud_wait_for_pods self : loud (wait_for_pods self).
Proof.
  unfold wait_for_pods.
  apply loud_bind; [loud_method | intros _].
  apply loud_bind; [apply loud_wait_loop | intros returned]. loud_method.
Qed.

Lemma loud_open_tunnel self : loud (open_tunnel self).
Proof. unfold open_tunnel. loud_method. Qed.

Lemma loud_main self : loud (main self).
Proof.
  unfold main.
  apply loud_bind; [apply loud_force_unlock_terraform | intros _].
  apply loud_bind; [apply loud_cleanup_resources | intros _].
  apply loud_bind; [apply loud_check_minikube | intros self'].
  apply loud_bind; [apply loud_set_docker_env | intros _].
  apply loud_bind; [apply loud_build_images | intros _].
  apply loud_bind; [apply loud_deploy_k8s | intros _].
  apply loud_bind; [apply loud_wait_for_pods | intros _].
  apply loud_open_tunnel.
Qed.

(** X16 (CLI surface).  The script never ends the process silently or
    with another code than 1: in every run of the program, and of every
    method on its own, an outcome that is an exit has code 1 and the last
    line logged before it is an error line.  (A run can also end by
    returning, or by an exception nobody handles.) *)
Theorem every_exit_has_code_one_and_is_announced w :
  exit_ok (program w).1 (program w).2 /\
  (forall self,
     exit_ok (main self w).1 (main self w).2 /\
     exit_ok (cleanup_resources self w).1 (cleanup_resources self w).2 /\
     exit_ok (check_minikube self w).1 (check_minikube self w).2 /\
     exit_ok (build_images self w).1 (build_images self w).2 /\
     exit_ok (deploy_k8s self w).1 (deploy_k8s self w).2 /\
     exit_ok (wait_for_pods self w).1 (wait_for_pods self w).2) /\
  exit_ok (load_config w).1 (load_config w).2 /\
  (forall c, (program w).1 = Exit c -> c = 1%Z).
Proof.
  assert (Hprogram : loud program).
  { unfold program, __init__.
    apply loud_bind; [| intros self; apply loud_main].
    apply loud_bind; [apply loud_dict_copy | intros r].
    apply loud_bind; [apply loud_load_config | intros cfg].
    apply loud_bind; [apply loud_discover_services | intros svcs].
    apply loud_ret. }
  split; [exact (Hprogram w) |]. split; [| split; [exact (loud_load_config w) |]].
  - intros self.
    split; [exact (loud_main self w) |].
    split; [exact (loud_cleanup_resources self w) |].
    split; [exact (loud_check_minikube self w) |].
    split; [exact (loud_build_images self w) |].
    split; [exact (loud_deploy_k8s self w) | exact (loud_wait_for_pods self w)].
  - intros c Hc. pose proof (Hprogram w) as H. rewrite Hc in H. exact (proj1 H).
Qed.

(** *** What a run can cost *)

Lemma within_weaken (s l s' l' : nat) {A} (m : W A) :
  within s l m -> s <= s' -> l <= l' -> within s' l' m.
Proof.
  intros Hm Hs Hl w. destruct (Hm w) as (evs & Ht & H1 & H2).
  exists evs. split; [exact Ht | split; lia].
Qed.

Lemma within_still {A} (m : W A) : (forall w, trace (m w).2 = trace w) -> within 0 0 m.
Proof.
  intros Hm w. exists []. rewrite app_nil_r. split; [apply Hm | split; cbn; lia].
Qed.

Lemma within_ret {A} (a : A) : within 0 0 (mret a : W A).
Proof. apply within_still. reflexivity. Qed.

Lemma within_raise {A} e : within 0 0 (raise e : W A).
Proof. apply within_still. reflexivity. Qed.

Lemma within_sys_exit {A} c : within 0 0 (sys_exit c : W A).
Proof. apply within_still. reflexivity. Qed.

Lemma within_gets {A} (f : world -> A) : within 0 0 (gets f).
Proof. apply within_still. reflexivity. Qed.

Lemma within_lift {A} (x : exn + A) : within 0 0 (lift x).
Proof. apply within_still. destruct x; reflexivity. Qed.

Lemma within_ingress_setting self key : within 0 0 (ingress_setting self key).
Proof.
  apply within_still. intros w. rewrite ingress_setting_eq.
  destruct (ingress_value (config self) key); reflexivity.
Qed.

Lemma within_as_argument j : within 0 0 (as_argument j).
Proof. apply within_still. destruct j; reflexivity. Qed.

Lemma within_remove_file path : within 0 0 (remove_file path).
Proof.
  apply within_still. intros w. unfold remove_file.
  destruct (remove_error w !! path); [reflexivity |].
  destruct (fs w !! path) as [[] |]; reflexivity.
Qed.

Lemma within_dict_setitem r k v : within 0 0 (dict_setitem r k v).
Proof. apply within_still. destruct r; reflexivity. Qed.

Lemma within_dict_copy r : within 0 0 (dict_copy r).
Proof. apply within_still. reflexivity. Qed.

Lemma within_sleep secs : within secs 0 (emit (Sleep secs)).
Proof. intros w. eexists [_]. split; [reflexivity | split; cbn; lia]. Qed.

(** A log line, a print, a probe, the note of a removal. *)
Lemma within_emit e : slept [e] = 0 -> launched_cmds [e] = [] -> within 0 0 (emit e).
Proof.
  intros Hs Hl w. exists [e]. rewrite Hs, Hl. split; [reflexivity | split; cbn; lia].
Qed.

Lemma within_launch cmd shell env cwd : within 0 1 (launch cmd shell env cwd).
Proof. intros w. eexists [_]. split; [reflexivity | split; cbn; lia]. Qed.

Lemma within_bind (s1 l1 s2 l2 : nat) {A B} (m : W A) (k : A -> W B) :
  within s1 l1 m -> (forall a, within s2 l2 (k a)) -> within (s1 + s2) (l1 + l2) (m ≫= k).
Proof.
  intros Hm Hk w. rewrite bind_eq. destruct (Hm w) as (evs1 & Ht1 & Hs1 & Hl1).
  destruct (m w) as [[a | c | e] w1]; cbn [fst snd] in *.
  - destruct (Hk a w1) as (evs2 & Ht2 & Hs2 & Hl2).
    exists (evs1 ++ evs2). rewrite Ht2, Ht1, app_assoc, slept_app, launched_cmds_app,
      length_app.
    split; [reflexivity | split; lia].
  - exists evs1. split; [exact Ht1 | split; lia].
  - exists evs1. split; [exact Ht1 | split; lia].
Qed.

Lemma within_try_except (s1 l1 s2 l2 : nat) {A} (m : W A) catches h :
  within s1 l1 m -> (forall e, within s2 l2 (h e)) ->
  within (s1 + s2) (l1 + l2) (try_except m catches h).
Proof.
  intros Hm Hh w. unfold try_except. destruct (Hm w) as (evs1 & Ht1 & Hs1 & Hl1).
  destruct (m w) as [[a | c | e] w1]; cbn [fst snd] in *.
  - exists evs1. split; [exact Ht1 | split; lia].
  - exists evs1. split; [exact Ht1 | split; lia].
  - destruct (catches e).
    + destruct (Hh e w1) as (evs2 & Ht2 & Hs2 & Hl2).
      exists (evs1 ++ evs2). rewrite Ht2, Ht1, app_assoc, slept_app, launched_cmds_app,
        length_app.
      split; [reflexivity | split; lia].
    + exists evs1. split; [exact Ht1 | split; lia].
Qed.

Lemma within_try_except_all (s1 l1 s2 l2 : nat) {A} (m h : W A) :
  within s1 l1 m -> within s2 l2 h -> within (s1 + s2) (l1 + l2) (try_except_all m h).
Proof.
  intros Hm Hh w. unfold try_except_all. destruct (Hm w) as (evs1 & Ht1 & Hs1 & Hl1).
  destruct (m w) as [[a | c | e] w1]; cbn [fst snd] in *.
  - exists evs1. split; [exact Ht1 | split; lia].
  - destruct (Hh w1) as (evs2 & Ht2 & Hs2 & Hl2).
    exists (evs1 ++ evs2). rewrite Ht2, Ht1, app_assoc, slept_app, launched_cmds_app,
      length_app.
    split; [reflexivity | split; lia].
  - destruct (Hh w1) as (evs2 & Ht2 & Hs2 & Hl2).
    exists (evs1 ++ evs2). rewrite Ht2, Ht1, app_assoc, slept_app, launched_cmds_app,
      length_app.
    split; [reflexivity | split; lia].
Qed.

Lemma within_if (s1 l1 s2 l2 : nat) {A} (b : bool) (m1 m2 : W A) :
  within s1 l1 m1 -> within s2 l2 m2 ->
  within (Nat.max s1 s2) (Nat.max l1 l2) (if b then m1 else m2).
Proof.
  intros H1 H2. destruct b.
  - apply (within_weaken s1 l1); [exact H1 | lia | lia].
  - apply (within_weaken s2 l2); [exact H2 | lia | lia].
Qed.

Lemma within_for_each (s l : nat) {A} (xs : list A) (body : A -> W unit) :
  (forall x, within s l (body x)) ->
  within (length xs * s) (length xs * l) (for_each xs body).
Proof.
  intros Hb. induction xs as [| x xs IH].
  - apply within_ret.
  - cbn [length for_each Nat.mul]. apply within_bind; [apply Hb | intros _; exact IH].
Qed.

Lemma within_subprocess_run cmd shell check capture env cwd :
  within 0 1 (subprocess_run cmd shell check capture env cwd).
Proof.
  intros w. unfold subprocess_run. rewrite bind_eq. cbn.
  destruct (oracle w (launched w) cmd (deref (default Environ env) w))
    as [rc out err | msg |]; [destruct (check && negb (rc =? 0)%N) | |];
    eexists [_]; (split; [reflexivity | split; cbn; lia]).
Qed.

Lemma within_check_output argv : within 0 1 (subprocess_check_output argv).
Proof.
  unfold subprocess_check_output.
  apply (within_bind 0 1 0 0); [apply within_subprocess_run | intros r; apply within_ret].
Qed.

Lemma within_run_cmd self cmd shell capture cwd_override ignore_errors :
  within 0 1 (run_cmd self cmd shell capture cwd_override ignore_errors).
Proof.
  intros w. rewrite run_cmd_eq. cbn zeta. unfold run_events.
  destruct (oracle w (launched w) cmd (deref (env self) w)) as [rc out err | msg |];
    [destruct (rc =? 0)%N; [| destruct ignore_errors;
       [| destruct (capture && negb (String.eqb err ""))]] | |].
  all: eexists; cbn [fst snd trace set_trace]; rewrite <- ?app_assoc.
  all: split; [reflexivity | split; cbn; lia].
Qed.

(** Bounds a method along its syntax; the bounds of the parts add up. *)
Ltac within_step :=
  first
    [ apply within_run_cmd | apply within_subprocess_run | apply within_check_output
    | apply within_ingress_setting | apply within_as_argument
    | apply within_ret | apply within_raise | apply within_sys_exit
    | apply within_gets | apply within_lift | apply within_sleep
    | apply within_emit; reflexivity
    | apply within_launch | apply within_remove_file
    | apply within_dict_setitem | apply within_dict_copy
    | match goal with
      | |- within _ _ (if _ then _ else _) => eapply within_if
      | |- within _ _ (try_except _ _ _) => eapply within_try_except; [| intros ?]
      | |- within _ _ (try_except_all _ _) => eapply within_try_except_all
      | |- within _ _ (for_each _ _) => eapply within_for_each; intros ?
      | |- within _ _ (mbind _ _) => eapply within_bind; [| intros ?]
      end ].

Ltac within_method :=
  unfold os_remove, os_path_exists, os_path_isdir, os_path_isfile,
    Logger_header, Logger_info, Logger_warning, Logger_error,
    Logger_success, Logger_debug, print, time_sleep, dict_get, json_load_config;
  repeat within_step.

Ltac within_bound :=
  eapply within_weaken; [within_method | cbn; lia | cbn; lia].

Lemma within_load_config : within 0 0 load_config.
Proof. unfold load_config. within_bound. Qed.

Lemma within_discover_services : within 0 0 discover_services.
Proof.
  apply within_still. intros w. unfold discover_services. rewrite gets_then.
  destruct (discover_loop_pure (listing w) [] w) as [l ->]. reflexivity.
Qed.

Lemma within_force_unlock_terraform self : within 0 0 (force_unlock_terraform self).
Proof. unfold force_unlock_terraform. within_bound. Qed.

Lemma within_cleanup_resources self : within 5 2 (cleanup_resources self).
Proof. unfold cleanup_resources. within_bound. Qed.

Lemma within_check_minikube self : within 0 3 (check_minikube self).
Proof. unfold check_minikube. within_bound. Qed.

(** The loop over the lines of the export records nothing. *)
Lemma within_bridge_loop self lines :
  within 0 0 (for_each lines (set_docker_env_line self)).
Proof.
  apply within_still. intros w. exact (proj1 (bridge_loop_rest self lines w)).
Qed.

Lemma within_set_docker_env self : within 0 1 (set_docker_env self).
Proof.
  unfold set_docker_env. eapply within_weaken.
  - eapply within_bind; [within_method | intros _].
    eapply within_try_except_all; [| within_method].
    eapply within_bind; [within_method | intros output].
    eapply within_bind; [apply within_bridge_loop | intros _]. within_method.
  - cbn. lia.
  - cbn. lia.
Qed.

Lemma within_build_images self : within 0 (length (services self)) (build_images self).
Proof. unfold build_images. within_bound. Qed.

Lemma within_deploy_k8s self : within 0 2 (deploy_k8s self).
Proof. unfold deploy_k8s. within_bound. Qed.

Lemma within_wait_loop self fuel : forall retries,
  within (3 * (40 - retries)) (40 - retries) (wait_loop self fuel retries).
Proof.
  induction fuel as [| fuel IH]; intros retries.
  - eapply within_weaken; [apply within_ret | lia | lia].
  - rewrite wait_loop_S. destruct (Nat.ltb_spec retries 40) as [Hlt | Hge].
    + eapply within_weaken.
      * eapply within_bind; [apply within_run_cmd | intros output].
        eapply within_if; [within_method |].
        eapply within_bind; [within_method | intros _].
        eapply within_bind; [within_method | intros _]. apply IH.
      * cbn. lia.
      * cbn. lia.
    + eapply within_weaken; [apply within_ret | lia | lia].
Qed.

Lemma within_wait_for_pods self : within 120 40 (wait_for_pods self).
Proof.
  unfold wait_for_pods. eapply within_weaken.
  - eapply within_bind; [within_method | intros _].
    eapply within_bind; [apply within_wait_loop | intros returned]. within_method.
  - cbn. lia.
  - cbn. lia.
Qed.

Lemma within_open_tunnel self : within 0 1 (open_tunnel self).
Proof. unfold open_tunnel. within_bound. Qed.

Lemma within_bind_post (s1 l1 s2 l2 : nat) {A B} (Q : A -> Prop)
    (m : W A) (k : A -> W B) :
  within s1 l1 m ->
  (forall w a, (m w).1 = Return a -> Q a) ->
  (forall a, Q a -> within s2 l2 (k a)) ->
  within (s1 + s2) (l1 + l2) (m ≫= k).
Proof.
  intros Hm HQ Hk w. rewrite bind_eq. destruct (Hm w) as (evs1 & Ht1 & Hs1 & Hl1).
  specialize (HQ w).
  destruct (m w) as [[a | c | e] w1]; cbn [fst snd] in *.
  - destruct (Hk a (HQ a eq_refl) w1) as (evs2 & Ht2 & Hs2 & Hl2).
    exists (evs1 ++ evs2). rewrite Ht2, Ht1, app_assoc, slept_app, launched_cmds_app,
      length_app.
    split; [reflexivity | split; lia].
  - exists evs1. split; [exact Ht1 | split; lia].
  - exists evs1. split; [exact Ht1 | split; lia].
Qed.

Lemma within_main self : within 125 (49 + length (services self)) (main self).
Proof.
  unfold main. eapply within_weaken.
  - eapply within_bind; [apply within_force_unlock_terraform | intros _].
    eapply within_bind; [apply within_cleanup_resources | intros _].
    eapply (within_bind_post _ _ _ _ (fun self' => services self' = services self));
      [apply within_check_minikube
      | intros w self' Hret; exact (proj2 (proj2 (check_minikube_keeps self w self' Hret)))
      | intros self' Hsvc].
    eapply within_bind; [apply within_set_docker_env | intros _].
    eapply within_bind;
      [apply (within_weaken 0 (length (services self')) 0 (length (services self)));
       [apply within_build_images | lia | rewrite Hsvc; lia]
      | intros _].
    eapply within_bind; [apply within_deploy_k8s | intros _].
    eapply within_bind; [apply within_wait_for_pods | intros _].
    apply within_open_tunnel.
  - cbn. lia.
  - cbn. lia.
Qed.

Lemma load_config_listing w : listing (load_config w).2 = listing w.
Proof.
  unfold load_config, os_path_exists, json_load_config. step_W.
  destruct (bool_decide (is_Some (fs w !! CONFIG_FILE w))); cbn; [| reflexivity].
  destruct (config_load w) as [e | j]; cbn; [| reflexivity].
  destruct (is_Exception e); reflexivity.
Qed.

(** X17 (Orchestrator).  A run costs a bounded amount of waiting and of
    commands, whatever the tools answer: [main] sleeps at most 125 seconds
    (5 in the reap step, at most 120 in the health check) and launches at
    most 49 commands plus one per service; the health check alone sleeps
    at most 120 seconds and polls at most 40 times.  For the whole
    program the services are at most the entries of the project root. *)
Theorem main_sleeps_and_launches_within_bounds self w :
  let evs := new_events w (main self w).2 in
  let polls := new_events w (wait_for_pods self w).2 in
  let all := new_events w (program w).2 in
  (slept evs <= 125 /\ length (launched_cmds evs) <= 49 + length (services self)) /\
  (slept polls <= 120 /\ length (launched_cmds polls) <= 40) /\
  (slept all <= 125 /\ length (launched_cmds all) <= 49 + length (listing w)).
Proof.
  cbn zeta. split; [| split].
  - destruct (within_main self w) as (evs & Ht & Hs & Hl).
    rewrite (new_events_app _ _ _ Ht). split; assumption.
  - destruct (within_wait_for_pods self w) as (evs & Ht & Hs & Hl).
    rewrite (new_events_app _ _ _ Ht). split; assumption.
  - rewrite program_eq. set (w0 := set_heap (heap w ++ [os_environ w]) w).
    rewrite bind_eq.
    destruct (within_load_config w0) as (evs1 & Ht1 & Hs1 & Hl1).
    pose proof (load_config_listing w0) as Hlist.
    destruct (load_config w0) as [[cfg | c | e] w2]; cbn [fst snd] in *.
    + unfold discover_services. rewrite bind_eq, gets_then, discover_loop_filter.
      cbn [app]. cbv iota beta.
      set (self0 := Manager _ cfg _ None).
      destruct (within_main self0 w2) as (evs2 & Ht2 & Hs2 & Hl2).
      assert (Hsvc : length (services self0) <= length (listing w)).
      { unfold self0. cbn [services]. rewrite Hlist. apply List.filter_length_le. }
      erewrite new_events_app
        by (rewrite Ht2, Ht1; unfold w0; cbn [trace set_heap];
            rewrite <- app_assoc; reflexivity).
      rewrite slept_app, launched_cmds_app, length_app. split; lia.
    + erewrite new_events_app by (rewrite Ht1; reflexivity). split; lia.
    + erewrite new_events_app by (rewrite Ht1; reflexivity). split; lia.
Qed.

(** *** HealthPoller: the loop needs no more than its 41 rounds *)

Lemma wait_loop_fuel self fuel : forall retries n w,
  40 - retries < fuel ->
  wait_loop self (fuel + n) retries w = wait_loop self fuel retries w.
Proof.
  induction fuel as [| fuel IH]; intros retries n w Hfuel; [lia |].
  change (S fuel + n) with (S (fuel + n)). rewrite !wait_loop_S.
  destruct (Nat.ltb_spec retries 40) as [Hlt | Hge]; [| reflexivity].
  rewrite !bind_eq.
  destruct (run_cmd self (CmdList ["kubectl"; "get"; "pods"]) false true None false w)
    as [[output | c | e] w1]; try reflexivity.
  destruct (healthy output); [reflexivity |].
  unfold time_sleep, Logger_debug. rewrite !emit_then.
  destruct (S retries mod 5 =? 0)%nat.
  - rewrite !emit_then. apply IH. lia.
  - rewrite !bind_eq. cbn [mret W_ret ret]. apply IH. lia.
Qed.

(** X18 (HealthPoller).  The health check ends by itself in every
    world: the loop of [while retries < 40] is left after at most 40
    rounds, so that unfolding it 41 times is always enough; unfolding it
    further changes nothing, neither in the outcome nor in the world. *)
Theorem wait_for_pods_loop_ends_within_41_rounds self n w :
  wait_loop self (41 + n) 0 w = wait_loop self 41 0 w /\
  (Logger_header "Step 6: Health Check" ;;
   returned ← wait_loop self (41 + n) 0;
   if (returned : bool) then ret tt
   else Logger_warning "Timed out waiting for pods.") w = wait_for_pods self w.
Proof.
  split; [apply wait_loop_fuel; lia |].
  unfold wait_for_pods, Logger_header. rewrite !emit_then, !bind_eq.
  rewrite wait_loop_fuel by lia. reflexivity.
Qed.

(** *** CommandRunner: the text handed back *)

Lemma drop_while_starts_clear p l : starts_clear p (PyStr.drop_while p l).
Proof.
  induction l as [| c l IH]; [exact I |].
  cbn. destruct (p c) eqn:Hc; [exact IH | exact Hc].
Qed.

Lemma drop_while_snoc p l c :
  p c = false -> PyStr.drop_while p (l ++ [c]) = PyStr.drop_while p l ++ [c].
Proof.
  intros Hc. induction l as [| d l IH]; cbn.
  - rewrite Hc. reflexivity.
  - destruct (p d); [exact IH | reflexivity].
Qed.

(** Trimmed at the front, a text stays so when its end is trimmed. *)
Lemma rev_drop_while_rev_clear p l :
  starts_clear p l -> starts_clear p (rev (PyStr.drop_while p (rev l))).
Proof.
  destruct l as [| c l]; [intros _; exact I |]. cbn [starts_clear rev]. intros Hc.
  rewrite drop_while_snoc by exact Hc. rewrite rev_app_distr. exact Hc.
Qed.

Lemma chars_of_chars l : PyStr.chars (PyStr.of_chars l) = l.
Proof. apply list_ascii_of_string_of_list_ascii. Qed.

(** [s.strip().strip()] is [s.strip()]. *)
Lemma strip_with_idempotent p s :
  PyStr.strip_with p (PyStr.strip_with p s) = PyStr.strip_with p s.
Proof.
  apply strip_with_clear; unfold PyStr.strip_with; rewrite chars_of_chars.
  - apply rev_drop_while_rev_clear, drop_while_starts_clear.
  - rewrite rev_involutive. apply drop_while_starts_clear.
Qed.

(** X19 (CommandResult).  The text [run_cmd] hands back is trimmed:
    whenever the call returns, its result has no white space at either
    end (trimming it again changes nothing); it is the trimmed standard
    output of a command that exited with status 0 and was captured, and
    the empty string in every other case. *)
Theorem run_cmd_result_is_trimmed self cmd shell capture cwd_override ignore_errors w s :
  (run_cmd self cmd shell capture cwd_override ignore_errors w).1 = Return s ->
  PyStr.strip s = s /\
  (s = "" \/
   capture = true /\
   exists out err,
     oracle w (launched w) cmd (deref (env self) w) = Completed 0 out err /\
     s = PyStr.strip out).
Proof.
  rewrite run_cmd_eq. cbn zeta.
  destruct (oracle w (launched w) cmd (deref (env self) w)) as [[| p] out err | msg |];
    cbn [N.eqb fst]; try discriminate.
  - destruct capture; intros [= <-].
    + split; [apply strip_with_idempotent |]. right. split; [reflexivity |]. eauto.
    + split; [reflexivity | left; reflexivity].
  - destruct ignore_errors; [| discriminate]. intros [= <-].
    split; [reflexivity | left; reflexivity].
Qed.

Lemma run_cmd_result_is_trimmed_witness :
  (run_cmd plain_manager minikube_ip_query false true None false
           (working_machine example_config)).1 = Return "192.168.49.2" /\
  PyStr.strip "192.168.49.2" = "192.168.49.2".
Proof.
  assert (Hrun : (run_cmd plain_manager minikube_ip_query false true None false
                          (working_machine example_config)).1 = Return "192.168.49.2")
    by (vm_compute; reflexivity).
  split; [exact Hrun |].
  exact (proj1 (run_cmd_result_is_trimmed plain_manager minikube_ip_query false true None
                  false (working_machine example_config) "192.168.49.2" Hrun)).
Defined.

(** *** EnvironmentBridge: the one command of the step *)

Lemma bridge_loop_host self lines :
  env self <> Environ ->
  forall w, os_environ (for_each lines (set_docker_env_line self) w).2 = os_environ w.
Proof.
  intros Hne. induction lines as [| line lines IH]; intros w; [reflexivity |].
  rewrite for_each_cons.
  assert (Hstep : os_environ (set_docker_env_line self line w).2 = os_environ w).
  { rewrite set_docker_env_line_eq.
    destruct (assigned_key line) as [k |]; [| reflexivity].
    destruct (line_value line) as [v |]; [| reflexivity].
    destruct (env self); [congruence | reflexivity]. }
  destruct (set_docker_env_line self line w) as [[[] | c | e] w']; cbn [snd] in *;
    [rewrite IH; exact Hstep | exact Hstep | exact Hstep].
Qed.

(** X20 (EnvironmentBridge).  In every world the bridge step returns,
    having launched exactly one command: the export query, which itself
    inherits the host environment [os.environ] rather than the pipeline's
    map.  The step never sleeps, and it writes to no dictionary but the
    pipeline's map: the host environment is the same afterwards unless the
    two are the same dictionary. *)
Theorem set_docker_env_launches_one_query self w :
  let r := set_docker_env self w in
  r.1 = Return tt /\
  launched r.2 = S (launched w) /\
  List.filter is_exec (new_events w r.2) =
    [Exec docker_env_cmd false false (os_environ w) None] /\
  slept (new_events w r.2) = 0 /\
  (env self <> Environ -> os_environ r.2 = os_environ w).
Proof.
  cbn zeta. split; [apply set_docker_env_returns |].
  rewrite set_docker_env_eq. cbn zeta. set (w1 := set_trace _ _).
  destruct (bridge_loop_rest self (exported_lines w) w1) as (Htr & Hl & _).
  pose proof (fun Hne => bridge_loop_host self (exported_lines w) Hne w1) as Hos.
  change (os_environ w1) with (os_environ w) in Hos.
  assert (Hgoal : forall (o : outcome unit) e,
            is_exec e = false -> slept [e] = 0 ->
            let r := (o, set_trace
                           (trace (for_each (exported_lines w)
                                     (set_docker_env_line self) w1).2 ++ [e])
                           (for_each (exported_lines w) (set_docker_env_line self) w1).2) in
            launched r.2 = S (launched w) /\
            List.filter is_exec (new_events w r.2) =
              [Exec docker_env_cmd false false (os_environ w) None] /\
            slept (new_events w r.2) = 0 /\
            (env self <> Environ -> os_environ r.2 = os_environ w)).
  { intros o e He Hs. cbn zeta. cbn [fst snd launched os_environ trace set_trace].
    rewrite Hl, Htr. split; [reflexivity |].
    erewrite new_events_app
      by (unfold w1; cbn [trace set_trace]; rewrite <- app_assoc; reflexivity).
    cbn [app List.filter is_exec slept]. rewrite He.
    destruct e; try discriminate He; cbn in Hs |- *; auto. }
  destruct (exported_output w);
    try match goal with
        | |- context [(for_each ?l ?f ?w2).1] => destruct (for_each l f w2).1
        end; apply Hgoal; reflexivity.
Qed.

(** *** The constructor *)

(** X21 (Orchestrator).  The constructor copies the host environment
    into a dictionary of its own, then loads the configuration, then
    discovers the services; it launches nothing and leaves the host
    environment alone.  When the configuration file is there and parses to
    [j], the object holds the new dictionary, [j] as it was parsed, the
    service directories of the project root in listing order, and no
    cluster address; the probe for the configuration file is the only
    event.  An interrupt while the file is read is not caught. *)
Theorem init_builds_the_manager w :
  let cf := CONFIG_FILE w in
  let r := __init__ w in
  (forall j,
     is_Some (fs w !! cf) -> config_load w = inr j ->
     r = (Return (Manager (Cell (length (heap w))) j
                          (List.filter (is_service w) (listing w)) None),
          set_trace (trace w ++ [Probe cf]) (set_heap (heap w ++ [os_environ w]) w))) /\
  (is_Some (fs w !! cf) -> config_load w = inl KeyboardInterrupt ->
   r.1 = Raise KeyboardInterrupt) /\
  launched r.2 = launched w /\
  os_environ r.2 = os_environ w /\
  heap r.2 = heap w ++ [os_environ w] /\
  launched_cmds (new_events w r.2) = [].
Proof.
  cbn zeta. unfold __init__, dict_copy. rewrite bind_eq. cbv iota beta.
  set (w0 := set_heap (heap w ++ [deref Environ w]) w).
  rewrite bind_eq, load_config_eq. cbn zeta.
  change (CONFIG_FILE w0) with (CONFIG_FILE w). change (fs w0) with (fs w).
  change (config_load w0) with (config_load w).
  destruct (fs w !! CONFIG_FILE w) as [nd |] eqn:Hfs.
  - destruct (config_load w) as [e | j] eqn:Hload.
    + destruct (is_Exception e) eqn:He.
      * split; [intros j _ [=] |]. split; [intros _ [= ->]; discriminate He |].
        cbn [fst snd launched os_environ heap set_trace].
        erewrite new_events_app
          by (unfold w0; cbn [trace set_trace set_heap]; rewrite <- app_assoc; reflexivity).
        repeat split; reflexivity.
      * split; [intros j _ [=] |]. split; [intros _ [= ->]; reflexivity |].
        cbn [fst snd launched os_environ heap set_trace].
        erewrite new_events_app by (unfold w0; cbn [trace set_trace set_heap]; reflexivity).
        repeat split; reflexivity.
    + unfold discover_services. rewrite bind_eq, gets_then, discover_loop_filter.
      cbn [app]. cbv iota beta.
      split; [intros j' _ [= <-]; reflexivity |]. split; [intros _ [=] |].
      cbn [fst snd launched os_environ heap set_trace mret W_ret ret].
      erewrite new_events_app by (unfold w0; cbn [trace set_trace set_heap]; reflexivity).
      repeat split; reflexivity.
  - split; [intros j [nd' Hnd]; discriminate Hnd |].
    split; [intros [nd' Hnd]; discriminate Hnd |].
    cbn [fst snd launched os_environ heap set_trace].
    erewrite new_events_app
      by (unfold w0; cbn [trace set_trace set_heap]; rewrite <- app_assoc; reflexivity).
    repeat split; reflexivity.
Qed.

(** ** CommandRunner: when the runner ends the process *)











(** ** Orchestrator: every step, until one does not return *)

Lemma announces_emit r s e {A} (body : W A) :
  (forall root, step_of_event root e = Some s) ->
  sound quiet_note r body ->
  announces s (emit e ;; body).
Proof.
  intros He Hb w. rewrite emit_then.
  destruct (rtc_quiet_trace _ _ _ (Hb (set_trace (trace w ++ [e]) w)))
    as (Hr & evs & Ht & Hs).
  cbn in Hr, Ht. split; [exact Hr |]. exists (e :: evs). split.
  - rewrite Ht, <- app_assoc. reflexivity.
  - unfold steps_begun in *. cbn. rewrite He. cbn. f_equal. apply Hs.
Qed.

Lemma announces_force_unlock_terraform self : announces Unlock (force_unlock_terraform self).
Proof.
  intros w. rewrite force_unlock_terraform_eq. cbn zeta.
  assert (Hprobe : step_of_event (project_root w) (Probe (lock_file_of (project_root w)))
                   = Some Unlock).
  { cbn. rewrite String.eqb_refl. reflexivity. }
  destruct (fs w !! lock_file_of (project_root w)) as [nd |];
    [destruct (remove_error w !! lock_file_of (project_root w)) as [msg |];
     [| destruct nd] |].
  all: split; [reflexivity |].
  all: eexists; split; [cbn; rewrite <- ?app_assoc; reflexivity |].
  all: unfold steps_begun; cbn [omap list_omap app]; rewrite Hprobe; reflexivity.
Qed.

Lemma announces_cleanup_resources self : announces Reap (cleanup_resources self).
Proof.
  unfold cleanup_resources, Logger_header.
  apply (announces_emit (env self)); [reflexivity |]. sound_method.
Qed.

Lemma announces_check_minikube self : announces Bootstrap (check_minikube self).
Proof.
  unfold check_minikube, Logger_header.
  apply (announces_emit (env self)); [reflexivity |]. sound_method.
Qed.

Lemma announces_set_docker_env self : announces BridgeEnvironment (set_docker_env self).
Proof.
  unfold set_docker_env, Logger_header.
  apply (announces_emit (env self)); [reflexivity |].
  apply sound_try_except_all; [| sound_method].
  apply sound_bind; [sound_method | intros output].
  apply sound_bind; [| intros _; sound_method].
  apply sound_for_each. intros line. apply set_docker_env_line_sound.
Qed.

Lemma announces_build_images self : announces Build (build_images self).
Proof.
  unfold build_images, Logger_header.
  apply (announces_emit (env self)); [reflexivity |]. sound_method.
Qed.

Lemma announces_deploy_k8s self : announces Deploy (deploy_k8s self).
Proof.
  unfold deploy_k8s, Logger_header.
  apply (announces_emit (env self)); [reflexivity |]. sound_method.
Qed.

Lemma announces_wait_for_pods self : announces HealthPoll (wait_for_pods self).
Proof.
  unfold wait_for_pods, Logger_header.
  apply (announces_emit (env self)); [reflexivity |].
  apply sound_bind; [apply sound_wait_loop; auto | intros returned].
  sound_method.
Qed.

(** The four lookups at the head of [open_tunnel], when they succeed. *)
Lemma open_tunnel_settings self :
  has_all_fields (config self) = true ->
  exists lp cp ns svc,
    ingress_value (config self) "local_port" = inr lp /\
    ingress_value (config self) "container_port" = inr cp /\
    ingress_value (config self) "namespace" = inr ns /\
    ingress_value (config self) "service_name" = inr svc.
Proof.
  unfold has_all_fields, required_fields. cbn [forallb]. rewrite !has_field_value.
  destruct (ingress_value (config self) "namespace") as [e | ns]; [discriminate |].
  destruct (ingress_value (config self) "local_port") as [e | lp]; [discriminate |].
  destruct (ingress_value (config self) "container_port") as [e | cp]; [discriminate |].
  destruct (ingress_value (config self) "service_name") as [e | svc]; [discriminate |].
  intros _. eauto 8.
Qed.

Lemma announces_open_tunnel self :
  has_all_fields (config self) = true -> announces Tunnel (open_tunnel self).
Proof.
  intros Hall w.
  destruct (open_tunnel_settings self Hall) as (lp & cp & ns & svc & Hlp & Hcp & Hns & Hsvc).
  assert (Heq : exists body : W unit,
            open_tunnel self w =
            (emit (Log Header "Step 8: Opening Access Tunnel") ;; body) w /\
            sound quiet_note (env self) body).
  { unfold open_tunnel.
    rewrite bind_eq, ingress_setting_eq, Hlp. cbn [lift]. unfold ret at 1. cbv iota beta.
    rewrite bind_eq, ingress_setting_eq, Hcp. cbn [lift]. unfold ret at 1. cbv iota beta.
    rewrite bind_eq, ingress_setting_eq, Hns. cbn [lift]. unfold ret at 1. cbv iota beta.
    rewrite bind_eq, ingress_setting_eq, Hsvc. cbn [lift]. unfold ret at 1. cbv iota beta.
    unfold Logger_header. eexists. split; [reflexivity |]. sound_method. }
  destruct Heq as (body & -> & Hbody).
  apply (announces_emit (env self)); [reflexivity | exact Hbody].
Qed.

(** Without its settings the tunnel step is over before it has done
    anything. *)
Lemma open_tunnel_without_settings self w :
  has_all_fields (config self) = false -> exists e, open_tunnel self w = (Raise e, w).
Proof.
  unfold has_all_fields, required_fields. cbn [forallb]. rewrite !has_field_value.
  intros Hmiss. unfold open_tunnel.
  rewrite bind_eq, ingress_setting_eq.
  destruct (ingress_value (config self) "local_port") as [e | lp];
    [exists e; reflexivity |].
  cbn [lift]. unfold ret at 1. cbv iota beta.
  rewrite bind_eq, ingress_setting_eq.
  destruct (ingress_value (config self) "container_port") as [e | cp];
    [exists e; reflexivity |].
  cbn [lift]. unfold ret at 1. cbv iota beta.
  rewrite bind_eq, ingress_setting_eq.
  destruct (ingress_value (config self) "namespace") as [e | ns];
    [exists e; reflexivity |].
  cbn [lift]. unfold ret at 1. cbv iota beta.
  rewrite bind_eq, ingress_setting_eq.
  destruct (ingress_value (config self) "service_name") as [e | svc];
    [exists e; reflexivity |].
  discriminate Hmiss.
Qed.

(** A method followed by the handing on of the object. *)
Lemma then_hand_on {A} (m : W A) (self : manager) w :
  ((m ;; ret self) w).2 = (m w).2 /\
  returns ((m ;; ret self) w).1 = returns (m w).1 /\
  (forall self', ((m ;; ret self) w).1 = Return self' -> self' = self).
Proof.
  rewrite bind_eq. destruct (m w) as [[a | c | e] w']; cbn;
    repeat split; try discriminate. intros self' [= <-]. reflexivity.
Qed.

(** What one step leaves in the trace. *)
Lemma step_method_marker s self w :
  project_root (step_method s self w).2 = project_root w /\
  (exists evs,
     trace (step_method s self w).2 = trace w ++ evs /\
     steps_begun (project_root w) evs =
       if shows_marker (config self) s then [s] else []) /\
  (forall self', (step_method s self w).1 = Return self' -> config self' = config self).
Proof.
  assert (Hwrap : forall (m : W unit) (s0 : step),
            announces s0 m ->
            project_root ((m ;; ret self) w).2 = project_root w /\
            (exists evs,
               trace ((m ;; ret self) w).2 = trace w ++ evs /\
               steps_begun (project_root w) evs = [s0]) /\
            (forall self', ((m ;; ret self) w).1 = Return self' ->
                           config self' = config self)).
  { intros m s0 Hm. destruct (then_hand_on m self w) as (Hw & _ & Hself).
    rewrite Hw. destruct (Hm w) as (Hr & evs & Ht & Hs).
    split; [exact Hr |]. split; [exists evs; auto |].
    intros self' Hret. rewrite (Hself self' Hret). reflexivity. }
  destruct s; cbn [step_method shows_marker].
  - apply Hwrap, announces_force_unlock_terraform.
  - apply Hwrap, announces_cleanup_resources.
  - destruct (announces_check_minikube self w) as (Hr & evs & Ht & Hs).
    split; [exact Hr |]. split; [exists evs; auto |].
    intros self' Hret. apply (check_minikube_keeps self w self' Hret).
  - apply Hwrap, announces_set_docker_env.
  - apply Hwrap, announces_build_images.
  - apply Hwrap, announces_deploy_k8s.
  - apply Hwrap, announces_wait_for_pods.
  - destruct (has_all_fields (config self)) eqn:Hall.
    + apply Hwrap, announces_open_tunnel, Hall.
    + destruct (then_hand_on (open_tunnel self) self w) as (Hw & Hret & _).
      destruct (open_tunnel_without_settings self w Hall) as (e & Hraise).
      rewrite Hw. rewrite Hraise in Hret |- *. split; [reflexivity |].
      split; [exists []; rewrite app_nil_r; split; reflexivity |].
      intros self' Hr. rewrite Hr in Hret. discriminate Hret.
Qed.

Lemma steps_called_prefix l : forall self w, steps_called l self w `prefix_of` l.
Proof.
  induction l as [| s l IH]; intros self w; [exists []; reflexivity |].
  cbn [steps_called].
  destruct (step_method s self w) as [[self' | c | e] w'].
  - destruct (IH self' w') as [rest Hrest]. exists rest. cbn. f_equal. exact Hrest.
  - exists l. reflexivity.
  - exists l. reflexivity.
Qed.

(** The markers a run of steps leaves are those of the steps called, in
    their order. *)
Lemma run_steps_markers l : forall self w,
  project_root (run_steps l self w).2 = project_root w /\
  exists evs,
    trace (run_steps l self w).2 = trace w ++ evs /\
    steps_begun (project_root w) evs =
      List.filter (shows_marker (config self)) (steps_called l self w).
Proof.
  induction l as [| s l IH]; intros self w.
  - split; [reflexivity |]. exists []. rewrite app_nil_r. split; reflexivity.
  - cbn [run_steps steps_called]. rewrite bind_eq.
    destruct (step_method_marker s self w) as (Hr1 & (evs1 & Ht1 & Hs1) & Hcfg).
    destruct (step_method s self w) as [[self' | c | e] w']; cbn [fst snd] in *.
    + destruct (IH self' w') as (Hr2 & evs2 & Ht2 & Hs2).
      split; [congruence |]. exists (evs1 ++ evs2). split.
      * rewrite Ht2, Ht1, app_assoc. reflexivity.
      * rewrite steps_begun_app, Hs1. rewrite Hr1 in Hs2. rewrite Hs2.
        rewrite (Hcfg self' eq_refl). cbn [List.filter].
        destruct (shows_marker (config self) s); reflexivity.
    + split; [exact Hr1 |]. exists evs1. split; [exact Ht1 |].
      rewrite Hs1. cbn [List.filter].
      destruct (shows_marker (config self) s); reflexivity.
    + split; [exact Hr1 |]. exists evs1. split; [exact Ht1 |].
      rewrite Hs1. cbn [List.filter].
      destruct (shows_marker (config self) s); reflexivity.
Qed.

Lemma run_steps_cons s l self w :
  run_steps (s :: l) self w =
  match step_method s self w with
  | (Return self', w') => run_steps l self' w'
  | (Exit c, w') => (Exit c, w')
  | (Raise e, w') => (Raise e, w')
  end.
Proof. reflexivity. Qed.

Lemma steps_called_cons s l self w :
  steps_called (s :: l) self w =
  s :: match step_method s self w with
       | (Return self', w') => steps_called l self' w'
       | _ => []
       end.
Proof. reflexivity. Qed.

Lemma hand_on_eq {A} (m : W A) (self : manager) w :
  (m ;; ret self) w =
  match m w with
  | (Return _, w') => (Return self, w')
  | (Exit c, w') => (Exit c, w')
  | (Raise e, w') => (Raise e, w')
  end.
Proof. reflexivity. Qed.

(** [main] is the run of the eight steps of the pipeline. *)
Lemma main_as_run_steps self w :
  main self w = (run_steps pipeline self ;; ret tt) w.
Proof.
  unfold main, pipeline. rewrite (bind_eq (run_steps _ _)).
  rewrite run_steps_cons. cbn [step_method]. rewrite hand_on_eq.
  rewrite (bind_eq (force_unlock_terraform self)).
  destruct (force_unlock_terraform self w) as [[[] | c | e] w1];
    [| reflexivity | reflexivity].
  rewrite run_steps_cons. cbn [step_method]. rewrite hand_on_eq.
  rewrite (bind_eq (cleanup_resources self)).
  destruct (cleanup_resources self w1) as [[[] | c | e] w2];
    [| reflexivity | reflexivity].
  rewrite run_steps_cons. cbn [step_method].
  rewrite (bind_eq (check_minikube self)).
  destruct (check_minikube self w2) as [[self' | c | e] w3];
    [| reflexivity | reflexivity].
  rewrite run_steps_cons. cbn [step_method]. rewrite hand_on_eq.
  rewrite (bind_eq (set_docker_env self')).
  destruct (set_docker_env self' w3) as [[[] | c | e] w4];
    [| reflexivity | reflexivity].
  rewrite run_steps_cons. cbn [step_method]. rewrite hand_on_eq.
  rewrite (bind_eq (build_images self')).
  destruct (build_images self' w4) as [[[] | c | e] w5];
    [| reflexivity | reflexivity].
  rewrite run_steps_cons. cbn [step_method]. rewrite hand_on_eq.
  rewrite (bind_eq (deploy_k8s self')).
  destruct (deploy_k8s self' w5) as [[[] | c | e] w6];
    [| reflexivity | reflexivity].
  rewrite run_steps_cons. cbn [step_method]. rewrite hand_on_eq.
  rewrite (bind_eq (wait_for_pods self')).
  destruct (wait_for_pods self' w6) as [[[] | c | e] w7];
    [| reflexivity | reflexivity].
  rewrite run_steps_cons. cbn [step_method]. rewrite hand_on_eq.
  destruct (open_tunnel self' w7) as [[[] | c | e] w8]; reflexivity.
Qed.

Lemma main_run_steps self w :
  (main self w).2 = (run_steps pipeline self w).2 /\
  returns (main self w).1 = returns (run_steps pipeline self w).1.
Proof.
  rewrite main_as_run_steps, bind_eq.
  destruct (run_steps pipeline self w) as [[a | c | e] w']; split; reflexivity.
Qed.

(** All eight steps are called exactly when the first seven return. *)
Lemma tunnel_called_after_seven self w :
  In Tunnel (steps_called pipeline self w) <-> returns (before_tunnel self w).1 = true.
Proof.
  assert (Hno : forall l : list step, ~ In Tunnel l -> In Tunnel l <-> false = true)
    by (intros l Hl; split; [tauto | discriminate]).
  unfold before_tunnel, pipeline.
  rewrite steps_called_cons. cbn [step_method]. rewrite hand_on_eq.
  rewrite (bind_eq (force_unlock_terraform self)).
  destruct (force_unlock_terraform self w) as [[[] | c | e] w1];
    [| apply Hno; cbn; intuition discriminate | apply Hno; cbn; intuition discriminate].
  rewrite steps_called_cons. cbn [step_method]. rewrite hand_on_eq.
  rewrite (bind_eq (cleanup_resources self)).
  destruct (cleanup_resources self w1) as [[[] | c | e] w2];
    [| apply Hno; cbn; intuition discriminate | apply Hno; cbn; intuition discriminate].
  rewrite steps_called_cons. cbn [step_method].
  rewrite (bind_eq (check_minikube self)).
  destruct (check_minikube self w2) as [[self' | c | e] w3];
    [| apply Hno; cbn; intuition discriminate | apply Hno; cbn; intuition discriminate].
  rewrite steps_called_cons. cbn [step_method]. rewrite hand_on_eq.
  rewrite (bind_eq (set_docker_env self')).
  destruct (set_docker_env self' w3) as [[[] | c | e] w4];
    [| apply Hno; cbn; intuition discriminate | apply Hno; cbn; intuition discriminate].
  rewrite steps_called_cons. cbn [step_method]. rewrite hand_on_eq.
  rewrite (bind_eq (build_images self')).
  destruct (build_images self' w4) as [[[] | c | e] w5];
    [| apply Hno; cbn; intuition discriminate | apply Hno; cbn; intuition discriminate].
  rewrite steps_called_cons. cbn [step_method]. rewrite hand_on_eq.
  rewrite (bind_eq (deploy_k8s self')).
  destruct (deploy_k8s self' w5) as [[[] | c | e] w6];
    [| apply Hno; cbn; intuition discriminate | apply Hno; cbn; intuition discriminate].
  rewrite steps_called_cons. cbn [step_method]. rewrite hand_on_eq.
  rewrite ?(bind_eq (wait_for_pods self')).
  destruct (wait_for_pods self' w6) as [[[] | c | e] w7];
    [| apply Hno; cbn; intuition discriminate | apply Hno; cbn; intuition discriminate].
  rewrite steps_called_cons. cbn [fst returns].
  split; [reflexivity |]. intros _. cbn. auto 10.
Qed.

Lemma filter_all {A} (f : A -> bool) l : (forall x, f x = true) -> List.filter f l = l.
Proof.
  intros Hf. induction l as [| x l IH]; [reflexivity |].
  cbn. rewrite Hf, IH. reflexivity.
Qed.

(** C7 (Orchestrator), as stated, fails for a run in which a step does
    not return: when every command exits with status 2, the bootstrap
    step ends the process with code 1, so that of the eight steps only
    unlock, reap and bootstrap execute; no image is built, nothing is
    deployed and no port-forward is issued, although the configuration is
    the one of the claim. *)
Lemma a_failing_step_ends_the_run :
  let w := failing_world in
  let r := main example_manager w in
  config example_manager = example_config /\
  r.1 = Exit 1 /\
  steps_begun (project_root w) (new_events w r.2) = [Unlock; Reap; Bootstrap] /\
  launched_cmds (new_events w r.2) =
    [delete_all; delete_namespace "app"; minikube_status; minikube_start].
Proof. vm_compute. repeat split; reflexivity. Qed.

(** C7 (Orchestrator), amended.  In every run of [main] the steps are
    taken in the fixed order unlock, reap, bootstrap, bridge-environment,
    build, deploy, health-poll, tunnel: the first step is always called,
    and every further step is called exactly when the step before it has
    returned, whatever the data of the run.  The steps that begin, as the
    trace shows them, are the steps called, in that order (the tunnel step
    shows only if its four settings can be read); so the unlock step
    always begins, all eight steps are called exactly when the first seven
    return, and all eight begin when [main] returns.  With the
    configuration of the example (namespace app, local port 8080,
    container port 80, service ingress-nginx) every step called begins,
    and a run in which the tunnel step is called launches last
    [kubectl port-forward -n app svc/ingress-nginx 8080:80]. *)
Theorem main_runs_each_step_until_one_stops self w :
  let r := main self w in
  let root := project_root w in
  let evs := new_events w r.2 in
  let called := steps_called pipeline self w in
  called `prefix_of` pipeline /\
  steps_begun root evs `prefix_of` pipeline /\
  steps_begun root evs = List.filter (shows_marker (config self)) called /\
  (exists rest, steps_begun root evs = Unlock :: rest) /\
  (In Tunnel called <-> returns (before_tunnel self w).1 = true) /\
  (returns r.1 = true -> steps_begun root evs = pipeline /\ called = pipeline) /\
  (config self = example_config ->
   steps_begun root evs = called /\
   (In Tunnel called ->
    exists child_env,
      last (List.filter is_exec evs) =
      Some (Exec example_port_forward false false child_env None))).
Proof.
  cbn zeta.
  destruct (main_steps self w) as (_ & evs & Ht & Hp & Hr).
  rewrite (new_events_app _ _ _ Ht).
  destruct (run_steps_markers pipeline self w) as (_ & evs' & Ht' & Hm).
  destruct (main_run_steps self w) as (Hw & Hret).
  rewrite <- Hw, Ht in Ht'. apply app_inv_head in Ht'. subst evs'.
  pose proof (steps_called_prefix pipeline self w) as Hprefix.
  split; [exact Hprefix |]. split; [exact Hp |]. split; [exact Hm |].
  split.
  { rewrite Hm. unfold pipeline. rewrite steps_called_cons.
    cbn [List.filter shows_marker]. eexists. reflexivity. }
  split; [apply tunnel_called_after_seven |].
  split.
  { intros Hreturns. pose proof (Hr Hreturns) as Hall. split; [exact Hall |].
    destruct Hprefix as [rest Hrest].
    assert (Hlen : length (List.filter (shows_marker (config self))
                             (steps_called pipeline self w)) = length pipeline)
      by (rewrite <- Hm, Hall; reflexivity).
    pose proof (List.filter_length_le (shows_marker (config self))
                  (steps_called pipeline self w)) as Hle.
    assert (Hnil : rest = []).
    { destruct rest as [| s rest]; [reflexivity |].
      apply (f_equal (@length step)) in Hrest. rewrite length_app in Hrest.
      cbn [length] in Hrest. lia. }
    rewrite Hnil, app_nil_r in Hrest. symmetry. exact Hrest. }
  intros Hcfg.
  assert (Hshown : steps_begun (project_root w) evs = steps_called pipeline self w).
  { rewrite Hm, Hcfg. apply filter_all. intros []; reflexivity. }
  split; [exact Hshown |].
  intros Hin. apply tunnel_called_after_seven in Hin.
  rewrite main_before_tunnel, bind_eq in Ht.
  destruct (before_tunnel_steps self w) as (_ & evs1 & Ht1 & _).
  destruct (before_tunnel self w) as [[self' | c | e] w7] eqn:Hbt;
    cbn in Ht, Ht1, Hin; try discriminate Hin.
  destruct (before_tunnel_keeps self w self') as (_ & Hc & _);
    [rewrite Hbt; reflexivity |].
  destruct (open_tunnel_example self' w7) as (evs2 & Ht2 & Hf2); [congruence |].
  rewrite Ht2, Ht1, <- app_assoc in Ht. apply app_inv_head in Ht. subst evs.
  exists (os_environ w7). rewrite List.filter_app, Hf2. apply last_snoc.
Qed.

Lemma main_runs_each_step_until_one_stops_witness :
  let w := ready_machine in
  let evs := new_events w (main example_manager w).2 in
  (__init__ (working_machine example_config)).1 = Return example_manager /\
  config example_manager = example_config /\
  steps_called pipeline example_manager w = pipeline /\
  steps_begun (project_root w) evs = pipeline /\
  exists child_env,
    last (List.filter is_exec evs) =
    Some (Exec example_port_forward false false child_env None).
Proof.
  cbn zeta.
  destruct (main_runs_each_step_until_one_stops example_manager ready_machine)
    as (_ & _ & _ & _ & _ & _ & Hexample).
  destruct (Hexample eq_refl) as (Hsteps & Hlast).
  assert (Hcalled : steps_called pipeline example_manager ready_machine = pipeline)
    by (vm_compute; reflexivity).
  split; [vm_compute; reflexivity |]. split; [reflexivity |].
  split; [exact Hcalled |]. split; [rewrite Hsteps; exact Hcalled |].
  apply Hlast. rewrite Hcalled. cbn. auto 10.
Defined.
